(** * AO Launcher: roster, selection and launch protocol

    A shallow embedding of the front-end logic of the launcher
    ([static/js/script.js]) and of the preference-copy page
    ([static/js/preferences.js]), together with the properties of the
    selection state machine, the launch handler and the target set of the
    preference copier.

    Conventions of the embedding.
    - [appSettings.accounts] is a JavaScript array of account objects; it is a
      [list Account.t].  A character id is a JavaScript number as
      [parseInt] yields it: an integer, [NaN] or an infinity.
    - A handler that mutates [appSettings] in place becomes a function from the
      old value to the new one.  A handler that raises a [TypeError] before it
      has mutated anything returns [None].
    - [String.prototype.localeCompare] and [String.prototype.toLowerCase] are
      built-ins of the host; they are parameters of the development.
    - [Array.prototype.sort] is stable; with a consistent comparator its result
      is the stable sorted permutation, computed here by insertion. *)

From Stdlib Require Import String Ascii DecimalString ZArith Lia Bool.
From Stdlib Require Import List Permutation.
From Stdlib Require DecimalPos DecimalZ.
Import ListNotations.
Open Scope string_scope.
Open Scope list_scope.

(** ** Data model *)

(** The id of a character is the number that [parseInt(text, 10)] returned
    when the character was added or loaded: an integer, [NaN] when the text
    starts with no digit, or an infinity when it holds too many digits. *)
Inductive Id :=
| IdNumber (z : Z)
| IdNaN
| IdInfinity (negative : bool).

Coercion IdNumber : Z >-> Id.
Bind Scope Z_scope with Id.

Module Character.
Record t := mk {
  name : string;
  id : Id;
  selected : bool;
  comment : string
}.
End Character.

Module Account.
Record t := mk {
  name : string;
  password : string;
  characters : list Character.t
}.
End Account.

Record AppSettings := mkSettings {
  gameFolder : string;
  dllFolder : string;
  accounts : list Account.t;
  autoCycle : bool
}.

(** [char.selected = v] *)
Definition setSelected (v : bool) (c : Character.t) : Character.t :=
  Character.mk (Character.name c) (Character.id c) v (Character.comment c).

(** [char.comment = text] *)
Definition setComment (text : string) (c : Character.t) : Character.t :=
  Character.mk (Character.name c) (Character.id c) (Character.selected c) text.

(** [account.password = text] *)
Definition setPassword (text : string) (a : Account.t) : Account.t :=
  Account.mk (Account.name a) text (Account.characters a).

(** [account.characters = cs] (the array is mutated in place). *)
Definition setCharacters (cs : list Character.t) (a : Account.t) : Account.t :=
  Account.mk (Account.name a) (Account.password a) cs.

(** ** Array helpers *)

(** [arr.forEach((x, index) => ...)] where the callback rewrites [x]. *)
Fixpoint forEachFrom {A B : Type} (i : nat) (f : nat -> A -> B) (l : list A)
  : list B :=
  match l with
  | [] => []
  | x :: t => f i x :: forEachFrom (S i) f t
  end.

Definition forEachIndexed {A B : Type} (f : nat -> A -> B) (l : list A)
  : list B :=
  forEachFrom 0 f l.

(** [arr[i]] rewritten by [f], for an object mutated in place through
    [arr[i]].  The callers have checked that [i] is in range. *)
Fixpoint updateAt {A : Type} (i : nat) (f : A -> A) (l : list A) : list A :=
  match l, i with
  | [], _ => []
  | x :: t, O => f x :: t
  | x :: t, S j => x :: updateAt j f t
  end.

(** [arr.splice(i, 1)]: removes the element at [i] when there is one. *)
Fixpoint splice1 {A : Type} (i : nat) (l : list A) : list A :=
  match l, i with
  | [], _ => []
  | _ :: t, O => t
  | x :: t, S j => x :: splice1 j t
  end.

(** [arr.sort(cmp)]: stable insertion with the comparator [cmp]. *)
Fixpoint insertBy {A : Type} (cmp : A -> A -> Z) (x : A) (l : list A)
  : list A :=
  match l with
  | [] => [x]
  | y :: t => if (cmp x y <=? 0)%Z then x :: y :: t
              else y :: insertBy cmp x t
  end.

Fixpoint sortBy {A : Type} (cmp : A -> A -> Z) (l : list A) : list A :=
  match l with
  | [] => []
  | x :: t => insertBy cmp x (sortBy cmp t)
  end.

(** A list in which every element is at most its successor. *)
Fixpoint sortedBy {A : Type} (cmp : A -> A -> Z) (l : list A) : Prop :=
  match l with
  | [] => True
  | x :: t =>
      match t with
      | [] => True
      | y :: _ => (cmp x y <= 0)%Z
      end /\ sortedBy cmp t
  end.

(** Number of selected characters of an account, and of the whole roster. *)
Definition selectedCount (a : Account.t) : nat :=
  length (filter Character.selected (Account.characters a)).

Definition totalSelected (r : list Account.t) : nat :=
  list_sum (map selectedCount r).

(** The invariant of the data model: at most one selected character. *)
Definition atMostOneSelected (a : Account.t) : Prop :=
  selectedCount a <= 1.

(** No character of the roster is selected. *)
Definition noneSelected (r : list Account.t) : Prop :=
  Forall (fun a => Forall (fun c => Character.selected c = false)
                          (Account.characters a)) r.

(** A comparator for concrete runs: ordinal comparison of the strings. *)
Definition ordinalCompare (a b : string) : Z :=
  match String.compare a b with
  | Lt => (-1)%Z
  | Eq => 0%Z
  | Gt => 1%Z
  end.

(** ASCII lower-casing, for concrete runs. *)
Definition asciiLower (c : ascii) : ascii :=
  let n := nat_of_ascii c in
  if (65 <=? n)%nat && (n <=? 90)%nat then ascii_of_nat (n + 32) else c.

Fixpoint asciiToLowerCase (s : string) : string :=
  match s with
  | EmptyString => EmptyString
  | String c t => String (asciiLower c) (asciiToLowerCase t)
  end.

(** ** Messages and requests

    What a handler does to the outside world, in order: the messages it shows
    with [showMessage] and the requests it sends with [fetch].  Console output
    is not recorded. *)

Inductive MessageType := success | error | info | warning.

(** The [{accountName, password, characterId}] objects of the launch list. *)
Module Selected.
Record t := mk {
  accountName : string;
  password : string;
  characterId : Id
}.
End Selected.

(** The [accountsData] snapshot sent with the conflict check. *)
Module CharacterData.
Record t := mk {
  characterName : string;
  characterId : Id
}.
End CharacterData.

Module AccountData.
Record t := mk {
  accountName : string;
  characters : list CharacterData.t
}.
End AccountData.

Inductive Event :=
| ShowMessage (message : string) (type : MessageType)
| PostCheckAndFocusWindow (allAccounts : list AccountData.t)
                          (selectedAccounts : list string)
| PostCloseRunningInstances (selectedAccounts : list string)
                            (allAccounts : list AccountData.t)
| SetTimeout (ms : Z)
| PostLaunch (gameFolder dllFolder : string) (characters : list Selected.t)
| PostFocusLauncherWindow.

(** Decimal rendering of numbers inside template strings. *)
Definition showNat (n : nat) : string := NilZero.string_of_uint (Nat.to_uint n).
Definition showZ (z : Z) : string := NilZero.string_of_int (Z.to_int z).

(** An id inside a template string. *)
Definition showId (i : Id) : string :=
  match i with
  | IdNumber z => showZ z
  | IdNaN => "NaN"
  | IdInfinity false => "Infinity"
  | IdInfinity true => "-Infinity"
  end.

(** [a === b] on ids: [NaN] equals nothing, itself included. *)
Definition strictEq (a b : Id) : bool :=
  match a, b with
  | IdNumber x, IdNumber y => (x =? y)%Z
  | IdInfinity n, IdInfinity m => Bool.eqb n m
  | _, _ => false
  end.

(** The same id, [NaN] included: what tells two checkboxes apart. *)
Definition sameId (a b : Id) : bool :=
  match a, b with
  | IdNaN, IdNaN => true
  | _, _ => strictEq a b
  end.

(** [s || d] on strings: the empty string is falsy. *)
Definition orElse (s d : string) : string := if s =? "" then d else s.

(** A JavaScript [Set] of strings, in insertion order. *)
Definition setHas (x : string) (s : list string) : bool :=
  existsb (String.eqb x) s.

Definition setAdd (x : string) (s : list string) : list string :=
  if setHas x s then s else s ++ [x].

Definition setDelete (x : string) (s : list string) : list string :=
  filter (fun y => negb (String.eqb x y)) s.

(** A JavaScript [Map] with string keys, in insertion order: [set] on a key
    already present replaces its value in place. *)
Fixpoint mapSet {V : Type} (k : string) (v : V) (m : list (string * V))
  : list (string * V) :=
  match m with
  | [] => [(k, v)]
  | (k', v') :: t => if String.eqb k k' then (k, v) :: t
                     else (k', v') :: mapSet k v t
  end.

Fixpoint mapGet {V : Type} (k : string) (m : list (string * V)) : option V :=
  match m with
  | [] => None
  | (k', v') :: t => if String.eqb k k' then Some v' else mapGet k t
  end.

(** ** Replies of the back end *)

Inductive CheckStatus :=
| conflicts_found
| no_conflicts
| check_error
| unsupported
| unknown_status (text : string).

Module Conflict.
Record t := mk {
  accountName : string;
  message : string
}.
End Conflict.

(** The body of a [/check_and_focus_window] reply.  The handler reads the
    three arrays through [x || []], so an absent array is the empty list. *)
Module CheckResult.
Record t := mk {
  status : CheckStatus;
  conflictedAccounts : list string;
  conflicts : list Conflict.t;
  runningCharacters : list string;
  message : string
}.
End CheckResult.

Inductive LaunchStatus :=
| launch_success
| launch_partial_success
| launch_other (text : string).

Module LaunchResult.
Record t := mk {
  status : LaunchStatus;
  message : string;
  launched : list string;
  errors : list string
}.
End LaunchResult.

(** The result of [await fetch(...)] followed by [await response.json()]:
    either of them rejects with an error, or the reply has an [ok] flag and
    a body. *)
Inductive Fetched (A : Type) :=
| Rejected (errorMessage : string)
| Responded (ok : bool) (body : A).

Arguments Rejected {A} errorMessage.
Arguments Responded {A} ok body.

(** What the back end answers during one run of the launch handler.  The
    reply to the close request is never read, only awaited. *)
Record Backend := mkBackend {
  firstCheck : Fetched CheckResult.t;
  closeReply : Fetched unit;
  recheck : Fetched CheckResult.t;
  launchReply : Fetched LaunchResult.t
}.

(** ** Handlers with early [return] and [throw]

    A computation records the events it caused and ends by falling through
    with a value, by [return], or by throwing an error message. *)

Inductive Outcome (A : Type) :=
| Continue (value : A)
| Return
| Throw (errorMessage : string).

Arguments Continue {A} value.
Arguments Return {A}.
Arguments Throw {A} errorMessage.

Definition Handler (A : Type) : Type := list Event * Outcome A.

Definition ret {A : Type} (a : A) : Handler A := ([], Continue a).

Definition bind {A B : Type} (h : Handler A) (k : A -> Handler B)
  : Handler B :=
  match h with
  | (tr, Continue a) => let '(tr', o) := k a in (tr ++ tr', o)
  | (tr, Return) => (tr, Return)
  | (tr, Throw m) => (tr, Throw m)
  end.

Notation "x <- h ;; k" := (bind h (fun x => k))
  (at level 61, h at next level, right associativity).
Notation "h ;;; k" := (bind h (fun _ => k))
  (at level 61, right associativity).

Definition emit (e : Event) : Handler unit := ([e], Continue tt).
Definition returnNow {A : Type} : Handler A := ([], Return).
Definition throw {A : Type} (m : string) : Handler A := ([], Throw m).

(** [try { h } catch (error) { onError(error.message) }] *)
Definition tryCatch {A : Type} (h : Handler A) (onError : string -> Handler A)
  : Handler A :=
  match h with
  | (tr, Throw m) => let '(tr', o) := onError m in (tr ++ tr', o)
  | other => other
  end.

(** [await fetch(...)] once the request [e] has been sent. *)
Definition await {A : Type} (e : Event) (reply : Fetched A)
  : Handler (bool * A) :=
  match reply with
  | Rejected m => ([e], Throw m)
  | Responded ok body => ([e], Continue (ok, body))
  end.

(** The launch requests of a trace, and its other requests. *)
Definition isLaunch (e : Event) : bool :=
  match e with PostLaunch _ _ _ => true | _ => false end.

Definition isCheck (e : Event) : bool :=
  match e with PostCheckAndFocusWindow _ _ => true | _ => false end.

Definition isClose (e : Event) : bool :=
  match e with PostCloseRunningInstances _ _ => true | _ => false end.

Definition isWait (e : Event) : bool :=
  match e with SetTimeout _ => true | _ => false end.

(** Neither a wait, nor a conflict check, nor a close request. *)
Definition isQuiet (e : Event) : bool :=
  negb (isWait e || isCheck e || isClose e).

Definition launchedLists (tr : list Event) : list (list Selected.t) :=
  flat_map (fun e => match e with
                     | PostLaunch _ _ cs => [cs]
                     | _ => []
                     end) tr.

Definition newline : string := String (ascii_of_nat 10) EmptyString.

Infix "+++" := String.append (at level 60, right associativity).

(** [arr.includes(x)] and [arr.join(sep)] on arrays of strings. *)
Definition includes (arr : list string) (x : string) : bool :=
  existsb (String.eqb x) arr.

Definition join (sep : string) (arr : list string) : string :=
  String.concat sep arr.

(** ** The persisted document

    [JSON.stringify] followed by [JSON.parse] is the identity on JSON values
    without [undefined] members, so the saved file is represented by the
    JSON value it denotes.  The numbers of a JSON value are finite:
    [JSON.stringify] writes [NaN] and the infinities as [null]. *)

#[local] Set Warnings "-register-all".

Inductive json :=
| JNull
| JBool (b : bool)
| JNumber (z : Z)
| JString (s : string)
| JArray (items : list json)
| JObject (members : list (string * json)).

(** Property access on a parsed object: with a repeated key the last
    member wins. *)
Fixpoint getMember (k : string) (members : list (string * json))
  : option json :=
  match members with
  | [] => None
  | (k', v) :: t =>
      match getMember k t with
      | Some v' => Some v'
      | None => if String.eqb k k' then Some v else None
      end
  end.

(** [map] with a partial function: [None] as soon as one element fails. *)
Fixpoint traverse {A B : Type} (f : A -> option B) (l : list A)
  : option (list B) :=
  match l with
  | [] => Some []
  | x :: t =>
      match f x, traverse f t with
      | Some y, Some ys => Some (y :: ys)
      | _, _ => None
      end
  end.

Section Launcher.

(** Built-ins of the host. *)
Variable localeCompare : string -> string -> Z.
Variable toLowerCase : string -> string.
(** [isNaN(s)] and [parseInt(s, 10)] on the text typed into a prompt or
    found in a document.  [isNaN] goes by [Number(s)] and [parseInt] by the
    digits that [s] starts with, so that a text can pass [isNaN] and still be
    parsed to [NaN]. *)
Variable isNaN : string -> bool.
Variable parseInt10 : string -> Id.

(** *** renderUI (script.js, lines 87-155)

    Only the effect on [appSettings] is kept: the early return on an empty
    roster, the in-place sort of the accounts by name and, inside the
    [forEach], of each account's characters by name. *)
Definition sortCharacters (a : Account.t) : Account.t :=
  setCharacters
    (sortBy (fun x y => localeCompare (Character.name x) (Character.name y))
            (Account.characters a))
    a.

Definition renderUI (r : list Account.t) : list Account.t :=
  if (length r =? 0)%nat then r
  else
    map sortCharacters
        (sortBy (fun a b => localeCompare (Account.name a) (Account.name b)) r).

(** *** Character checkboxes (script.js, lines 207-244) *)

(** The [ctrlKey] branch: every character of every account is rewritten. *)
Definition ctrlClickSelection (accIndex charIndex : nat) (r : list Account.t)
  : list Account.t :=
  forEachIndexed
    (fun idx acc =>
       setCharacters
         (forEachIndexed
            (fun cidx char =>
               setSelected ((idx =? accIndex)%nat && (cidx =? charIndex)%nat)
                           char)
            (Account.characters acc))
         acc)
    r.

(** The body of the [forEach] of the plain-click branch. *)
Definition radioStep (charIndex : nat) (intendedState : bool)
           (index : nat) (char : Character.t) : Character.t :=
  if (index =? charIndex)%nat then setSelected intendedState char
  else if intendedState then setSelected false char
  else char.

(** The plain-click branch.  Reading
    [appSettings.accounts[accIndex].characters[charIndex].selected] raises a
    [TypeError] when an index is out of range, before any write. *)
Definition plainClickSelection (accIndex charIndex : nat)
           (r : list Account.t) : option (list Account.t) :=
  match nth_error r accIndex with
  | None => None
  | Some account =>
      match nth_error (Account.characters account) charIndex with
      | None => None
      | Some char =>
          let isCurrentlySelected := Character.selected char in
          let intendedState := negb isCurrentlySelected in
          Some (updateAt accIndex
                         (fun acc =>
                            setCharacters
                              (forEachIndexed
                                 (radioStep charIndex intendedState)
                                 (Account.characters acc))
                              acc)
                         r)
      end
  end.

(** The whole [onclick] handler: mutate, then [renderUI].  When the handler
    raises, [appSettings] is left as it was. *)
Definition checkbox_onclick (ctrlKey : bool) (accIndex charIndex : nat)
           (r : list Account.t) : list Account.t :=
  if ctrlKey then renderUI (ctrlClickSelection accIndex charIndex r)
  else
    match plainClickSelection accIndex charIndex r with
    | Some r' => renderUI r'
    | None => r
    end.

(** A sequence of plain clicks, each given by its two indices. *)
Definition plainClicks (clicks : list (nat * nat)) (r : list Account.t)
  : list Account.t :=
  fold_left (fun st ac => checkbox_onclick false (fst ac) (snd ac) st)
            clicks r.

(** *** Clear Selection button (script.js, lines 394-408) *)

(** The two nested [forEach]: the new roster and [selectionCleared]. *)
Definition clearSelection (r : list Account.t) : list Account.t * bool :=
  (map (fun account =>
          setCharacters
            (map (fun char => if Character.selected char
                              then setSelected false char else char)
                 (Account.characters account))
            account)
       r,
   existsb (fun account => existsb Character.selected
                                   (Account.characters account)) r).

Definition clearSelectionBtn_onclick (r : list Account.t)
  : list Account.t * list Event :=
  let '(r', selectionCleared) := clearSelection r in
  (renderUI r',
   if selectionCleared
   then [ShowMessage "All character selections have been cleared." info]
   else []).

(** *** Roster edits (script.js, lines 247-290 and 411-424)

    A handler returns the new roster and the messages it showed, or [None]
    when it raised before writing.  [prompt] yields [None] when the dialog
    is cancelled. *)

(** [account.characters.push(c)] *)
Definition pushCharacter (c : Character.t) (acc : Account.t) : Account.t :=
  setCharacters (Account.characters acc ++ [c]) acc.

Definition addCharBtn_onclick (accIndex : nat)
           (promptName promptId : option string) (r : list Account.t)
  : option (list Account.t * list Event) :=
  match promptName with
  | None => Some (r, [])
  | Some charName =>
      if charName =? "" then Some (r, [])
      else
        match promptId with
        | None =>
            Some (r, [ShowMessage
                        "Invalid Character ID. Please enter a number."
                        warning])
        | Some charId =>
            if (charId =? "") || isNaN charId then
              Some (r, [ShowMessage
                          "Invalid Character ID. Please enter a number."
                          warning])
            else
              match nth_error r accIndex with
              | None => None
              | Some _ =>
                  Some (renderUI
                          (updateAt accIndex
                             (pushCharacter
                                (Character.mk charName (parseInt10 charId)
                                              false ""))
                             r),
                        [])
              end
        end
  end.

Definition addAccountBtn_onclick (promptName promptPassword : option string)
           (r : list Account.t) : list Account.t :=
  match promptName with
  | None => r
  | Some accName =>
      if accName =? "" then r
      else
        match promptPassword with
        | None => r
        | Some password =>
            if password =? "" then r
            else renderUI (r ++ [Account.mk accName password []])
        end
  end.

Definition removeCharBtn_onclick (confirmed : bool)
           (accIndex charIndex : nat) (r : list Account.t)
  : option (list Account.t) :=
  if negb confirmed then Some r
  else
    match nth_error r accIndex with
    | None => None
    | Some _ =>
        Some (renderUI
                (updateAt accIndex
                   (fun acc =>
                      setCharacters
                        (splice1 charIndex (Account.characters acc)) acc)
                   r))
    end.

Definition removeAccountBtn_onclick (confirmed : bool) (accIndex : nat)
           (r : list Account.t) : list Account.t :=
  if negb confirmed then r else renderUI (splice1 accIndex r).

(** The comment editor (lines 163-204): the click handler reads the current
    comment, which raises when an index is out of range; [saveComment] then
    stores the trimmed text of the input.  The page is not rendered again. *)
Definition saveComment (accIndex charIndex : nat) (newComment : string)
           (r : list Account.t) : option (list Account.t) :=
  match nth_error r accIndex with
  | None => None
  | Some account =>
      match nth_error (Account.characters account) charIndex with
      | None => None
      | Some _ =>
          Some (updateAt accIndex
                         (fun acc =>
                            setCharacters
                              (updateAt charIndex (setComment newComment)
                                        (Account.characters acc))
                              acc)
                         r)
      end
  end.

(** The password dialog (lines 305-358): [showEditPasswordDialog] reads
    [account.name], which raises when the index is out of range; the save
    button then stores the trimmed text of the input unless it is empty. *)
Definition savePasswordBtn_onclick (accIndex : nat) (newPassword : string)
           (r : list Account.t) : option (list Account.t * list Event) :=
  match nth_error r accIndex with
  | None => None
  | Some account =>
      if newPassword =? "" then
        Some (r, [ShowMessage "Please enter a new password." warning])
      else
        Some (updateAt accIndex (setPassword newPassword) r,
              [ShowMessage
                 ("Password updated successfully for "
                  +++ Account.name account +++ "!")
                 success])
  end.

(** The edits of the roster as one operation. *)
Inductive Edit :=
| AddCharacter (accIndex : nat) (promptName promptId : option string)
| AddAccount (promptName promptPassword : option string)
| RemoveCharacter (confirmed : bool) (accIndex charIndex : nat)
| RemoveAccount (confirmed : bool) (accIndex : nat)
| EditComment (accIndex charIndex : nat) (newComment : string)
| EditPassword (accIndex : nat) (newPassword : string).

Definition applyEdit (e : Edit) (r : list Account.t) : list Account.t :=
  match e with
  | AddCharacter accIndex n i =>
      match addCharBtn_onclick accIndex n i r with
      | Some (r', _) => r'
      | None => r
      end
  | AddAccount n p => addAccountBtn_onclick n p r
  | RemoveCharacter c accIndex charIndex =>
      match removeCharBtn_onclick c accIndex charIndex r with
      | Some r' => r'
      | None => r
      end
  | RemoveAccount c accIndex => removeAccountBtn_onclick c accIndex r
  | EditComment accIndex charIndex newComment =>
      match saveComment accIndex charIndex newComment r with
      | Some r' => r'
      | None => r
      end
  | EditPassword accIndex newPassword =>
      match savePasswordBtn_onclick accIndex newPassword r with
      | Some (r', _) => r'
      | None => r
      end
  end.

(** *** Launch button (script.js, lines 427-732) *)

(** Lines 428-442: the launch list and the set of account names with a
    selection, both in roster order. *)
Definition selectedCharactersOf (r : list Account.t) : list Selected.t :=
  flat_map
    (fun account =>
       map (fun char => Selected.mk (Account.name account)
                                    (Account.password account)
                                    (Character.id char))
           (filter Character.selected (Account.characters account)))
    r.

Definition selectedAccountsOf (r : list Account.t) : list string :=
  fold_left (fun set char => setAdd (Selected.accountName char) set)
            (selectedCharactersOf r) [].

(** Lines 460-466. *)
Definition accountsDataOf (r : list Account.t) : list AccountData.t :=
  map (fun account =>
         AccountData.mk
           (Account.name account)
           (map (fun char => CharacterData.mk (Character.name char)
                                              (Character.id char))
                (Account.characters account)))
      r.

(** [account.characters.some(c => c.name.toLowerCase() ===
    runningCharName.toLowerCase())] *)
Definition hasCharacterNamed (runningCharName : string) (account : Account.t)
  : bool :=
  existsb (fun c => toLowerCase (Character.name c)
                    =? toLowerCase runningCharName)
          (Account.characters account).

(** Lines 491-499: the first account, in roster order, that has a character
    of that name. *)
Definition runningCharToAccountOf (r : list Account.t)
           (runningCharacters : list string) : list (string * string) :=
  fold_left
    (fun m runningCharName =>
       match find (hasCharacterNamed runningCharName) r with
       | Some account =>
           mapSet (toLowerCase runningCharName) (Account.name account) m
       | None => m
       end)
    runningCharacters [].

(** Lines 502-512. *)
Definition selectedCharNamesByAccountOf (r : list Account.t)
           (selectedCharacters : list Selected.t) : list (string * string) :=
  fold_left
    (fun m char =>
       match find (fun acc => Account.name acc =? Selected.accountName char)
                  r with
       | Some account =>
           match find (fun c => strictEq (Character.id c)
                                          (Selected.characterId char))
                      (Account.characters account) with
           | Some character =>
               mapSet (Selected.accountName char) (Character.name character) m
           | None => m
           end
       | None => m
       end)
    selectedCharacters [].

(** Lines 518-539.  [!accountName] and [!selectedCharName] also hold for the
    empty string. *)
Definition accountsToCloseOf (r : list Account.t)
           (selectedCharacters : list Selected.t)
           (runningCharacters : list string) : list string :=
  let runningCharToAccount := runningCharToAccountOf r runningCharacters in
  let selectedCharNamesByAccount :=
    selectedCharNamesByAccountOf r selectedCharacters in
  fold_left
    (fun accountsToClose runningCharName =>
       match mapGet (toLowerCase runningCharName) runningCharToAccount with
       | None => accountsToClose
       | Some accountName =>
           if accountName =? "" then accountsToClose
           else
             match mapGet accountName selectedCharNamesByAccount with
             | None => setAdd accountName accountsToClose
             | Some selectedCharName =>
                 if selectedCharName =? "" then
                   setAdd accountName accountsToClose
                 else if negb (toLowerCase selectedCharName
                               =? toLowerCase runningCharName) then
                   setAdd accountName accountsToClose
                 else accountsToClose
             end
       end)
    runningCharacters [].

(** Lines 579-584. *)
Definition failedToCloseOf (r : list Account.t)
           (accountsToClose stillRunning : list string) : list string :=
  filter (fun charName =>
            match find (hasCharacterNamed charName) r with
            | Some acc => setHas (Account.name acc) accountsToClose
            | None => false
            end)
         stillRunning.

(** Lines 542-600: close, wait, check again. *)
Definition closeAndRecheck (r : list Account.t) (w : Backend)
           (accountsToClose : list string) : Handler CheckResult.t :=
  tryCatch
    (_ <- await (PostCloseRunningInstances accountsToClose (accountsDataOf r))
                (closeReply w) ;;
     emit (SetTimeout 5000) ;;;
     recheckResponse <- await (PostCheckAndFocusWindow
                                 (accountsDataOf r) (selectedAccountsOf r))
                              (recheck w) ;;
     let '(ok, newCheckResult) := recheckResponse in
     if negb ok then throw "Failed to recheck window status"
     else
       let stillRunning := CheckResult.runningCharacters newCheckResult in
       let failedToClose := failedToCloseOf r accountsToClose stillRunning in
       if (0 <? length failedToClose)%nat then
         emit (ShowMessage
                 "Failed to close some game windows. Please close them manually."
                 error) ;;;
         returnNow
       else ret newCheckResult)
    (fun _ =>
       emit (ShowMessage "Error managing game windows. Please try again."
                         error) ;;;
       returnNow).

(** Lines 483-601: the auto-cycle block; it yields the check result that
    the status switch will use. *)
Definition autoCyclePhase (s : AppSettings) (w : Backend)
           (checkResult : CheckResult.t) : Handler CheckResult.t :=
  if autoCycle s then
    let runningCharacters := CheckResult.runningCharacters checkResult in
    let accountsToClose :=
      accountsToCloseOf (accounts s) (selectedCharactersOf (accounts s))
                        runningCharacters in
    if (0 <? length accountsToClose)%nat
    then closeAndRecheck (accounts s) w accountsToClose
    else ret checkResult
  else ret checkResult.

Definition conflictMessageOf (conflicts : list Conflict.t) : string :=
  fold_left (fun m conflict =>
               m +++ "• " +++ Conflict.message conflict +++ newline)
            conflicts
            ("Cannot launch - account conflicts detected:"
             +++ newline +++ newline)
  +++ newline
  +++ "Please close the running game instance(s) before launching new characters from the same account(s).".

(** Lines 605-656: the switch on [checkResult.status]; it yields the
    launch list. *)
Definition statusSwitch (checkResult : CheckResult.t)
           (selectedCharacters : list Selected.t)
  : Handler (list Selected.t) :=
  match CheckResult.status checkResult with
  | conflicts_found =>
      let conflictedAccounts := CheckResult.conflictedAccounts checkResult in
      let conflicts := CheckResult.conflicts checkResult in
      emit (ShowMessage (conflictMessageOf conflicts) error) ;;;
      let remainingCharacters :=
        filter (fun char =>
                  negb (includes conflictedAccounts
                                 (Selected.accountName char)))
               selectedCharacters in
      if (length remainingCharacters =? 0)%nat then returnNow
      else
        emit (ShowMessage
                ("Launching " +++ showNat (length remainingCharacters)
                 +++ " character(s) without conflicts...") info) ;;;
        ret remainingCharacters
  | no_conflicts =>
      let runningCount :=
        length (CheckResult.runningCharacters checkResult) in
      (if (0 <? runningCount)%nat then
         emit (ShowMessage
                 ("No conflicts detected (" +++ showNat runningCount
                  +++ " other character(s) running). Launching...") info)
       else
         emit (ShowMessage "No conflicts detected. Launching characters..."
                           info)) ;;;
      ret selectedCharacters
  | check_error | unsupported =>
      emit (ShowMessage (CheckResult.message checkResult) error) ;;;
      returnNow
  | unknown_status text =>
      emit (ShowMessage ("Unknown check status: " +++ text) warning) ;;;
      ret selectedCharacters
  end.

(** Lines 663-727: the launch request and the report of its outcome.  The
    reply to the focus request is only logged. *)
Definition submitLaunch (s : AppSettings) (w : Backend)
           (selectedCharacters : list Selected.t) : Handler unit :=
  if (0 <? length selectedCharacters)%nat then
    response <- await (PostLaunch (gameFolder s) (dllFolder s)
                                  selectedCharacters)
                      (launchReply w) ;;
    let '(ok, result) := response in
    if ok then
      match LaunchResult.status result with
      | launch_success =>
          emit (ShowMessage (LaunchResult.message result) success) ;;;
          emit PostFocusLauncherWindow
      | launch_partial_success =>
          emit (ShowMessage
                  (LaunchResult.message result
                   +++ " Launched: "
                   +++ join ", " (LaunchResult.launched result)
                   +++ ". Errors: "
                   +++ join ", " (LaunchResult.errors result))
                  warning) ;;;
          emit PostFocusLauncherWindow
      | launch_other _ => ret tt
      end
    else
      emit (ShowMessage
              ("Launch failed: "
               +++ orElse (LaunchResult.message result) "Server error")
              error)
  else ret tt.

(** Lines 457-731: the body of the outer [try]. *)
Definition checkThenLaunch (s : AppSettings) (w : Backend) : Handler unit :=
  checkResponse <- await (PostCheckAndFocusWindow
                            (accountsDataOf (accounts s))
                            (selectedAccountsOf (accounts s)))
                         (firstCheck w) ;;
  let '(ok, checkResult) := checkResponse in
  selectedCharacters <-
    (if ok then
       latest <- autoCyclePhase s w checkResult ;;
       statusSwitch latest (selectedCharactersOf (accounts s))
     else
       emit (ShowMessage
               ("Error checking for conflicts: "
                +++ orElse (CheckResult.message checkResult) "Unknown error")
               error) ;;;
       returnNow) ;;
  submitLaunch s w selectedCharacters.

(** The whole handler: the trace of what it showed and requested. *)
Definition launchBtn_onclick (s : AppSettings) (w : Backend) : list Event :=
  fst
    (if (length (selectedCharactersOf (accounts s)) =? 0)%nat then
       emit (ShowMessage "No characters selected for launch." warning) ;;;
       returnNow
     else if (gameFolder s =? "") || (dllFolder s =? "") then
       emit (ShowMessage
               "Please specify both Game Folder and DLL Folder paths."
               error) ;;;
       returnNow
     else
       emit (ShowMessage "Checking for existing game instances..." info) ;;;
       tryCatch
         (checkThenLaunch s w)
         (fun errorMessage =>
            emit (ShowMessage
                    ("Failed to connect to launcher backend: "
                     +++ errorMessage
                     +++ ". Is the Python server running?")
                    error))).

(** *** Save and load of the configuration file (script.js, 735-885) *)

(** [JSON.stringify] writes a number that is not finite as [null]. *)
Definition idToJson (i : Id) : json :=
  match i with
  | IdNumber z => JNumber z
  | _ => JNull
  end.

Definition characterToJson (c : Character.t) : json :=
  JObject [("name", JString (Character.name c));
           ("id", idToJson (Character.id c));
           ("selected", JBool (Character.selected c));
           ("comment", JString (Character.comment c))].

Definition accountToJson (a : Account.t) : json :=
  JObject [("name", JString (Account.name a));
           ("password", JString (Account.password a));
           ("characters", JArray (map characterToJson
                                      (Account.characters a)))].

(** [JSON.stringify(appSettings, null, 2)] *)
Definition settingsToJson (s : AppSettings) : json :=
  JObject [("gameFolder", JString (gameFolder s));
           ("dllFolder", JString (dllFolder s));
           ("accounts", JArray (map accountToJson (accounts s)));
           ("autoCycle", JBool (autoCycle s))].

Definition saveConfigBtn_onclick (s : AppSettings) : json * list Event :=
  (settingsToJson s,
   [ShowMessage "Configuration saved to ao_launcher_config.json" success]).

(** Reading a character object, with the migration of line 860: an id that
    is a string goes through [parseInt(id, 10)].  An absent [selected] is
    falsy and an absent [comment] is shown as the empty text.  [None]: the
    object is not a character of the data model; so it is with an id that is
    [null], which is what a [NaN] or infinite id was written as. *)
Definition characterOfJson (j : json) : option Character.t :=
  match j with
  | JObject m =>
      match getMember "name" m, getMember "id" m with
      | Some (JString name), Some idValue =>
          let id := match idValue with
                    | JNumber z => Some (IdNumber z)
                    | JString t => Some (parseInt10 t)
                    | _ => None
                    end in
          let selected := match getMember "selected" m with
                          | Some (JBool b) => Some b
                          | None => Some false
                          | _ => None
                          end in
          let comment := match getMember "comment" m with
                         | Some (JString c) => Some c
                         | None => Some ""
                         | _ => None
                         end in
          match id, selected, comment with
          | Some i, Some sel, Some c => Some (Character.mk name i sel c)
          | _, _, _ => None
          end
      | _, _ => None
      end
  | _ => None
  end.

Definition accountOfJson (j : json) : option Account.t :=
  match j with
  | JObject m =>
      match getMember "name" m, getMember "password" m,
            getMember "characters" m with
      | Some (JString name), Some (JString password), Some (JArray cs) =>
          match traverse characterOfJson cs with
          | Some characters => Some (Account.mk name password characters)
          | None => None
          end
      | _, _, _ => None
      end
  | _ => None
  end.

Definition invalidConfigMessage : Event :=
  ShowMessage
    "Invalid config file format. Please select a valid AO Launcher JSON file."
    error.

(** [reader.onload] on a file whose text parses to [doc].  The result is the
    new [appSettings] and the message shown; [None] when the document puts
    outside the data model what the handler would store as it is (an id
    that is [null], for one), and for the document [null], on which reading
    a property raises and the text of the message is the engine's. *)
Definition loadConfig_onload (doc : json) (current : AppSettings)
  : option (AppSettings * list Event) :=
  match doc with
  | JNull => None
  | JObject m =>
      match getMember "gameFolder" m, getMember "dllFolder" m,
            getMember "accounts" m with
      | Some (JString g), Some (JString d), Some (JArray accs) =>
          let auto := match getMember "autoCycle" m with
                      | Some (JBool b) => Some b
                      | None => Some false
                      | _ => None
                      end in
          match traverse accountOfJson accs, auto with
          | Some loaded, Some a =>
              Some (mkSettings g d (renderUI loaded) a,
                    [ShowMessage
                       "Configuration loaded successfully from file!"
                       success])
          | _, _ => None
          end
      | _, _, _ => Some (current, [invalidConfigMessage])
      end
  | _ => Some (current, [invalidConfigMessage])
  end.

(** *** The accounts to close, in words

    Used to state what [accountsToCloseOf] computes. *)

(** The account has a character of that name, ignoring case. *)
Definition hasRunning (account : Account.t) (runningCharName : string)
  : Prop :=
  exists c, In c (Account.characters account)
            /\ toLowerCase (Character.name c) = toLowerCase runningCharName.

(** The account a running name is matched to: the first account of the
    roster that has a character of that name. *)
Definition matchedTo (r : list Account.t) (runningCharName : string)
           (account : Account.t) : Prop :=
  exists before after,
    r = before ++ account :: after
    /\ hasRunning account runningCharName
    /\ Forall (fun a => ~ hasRunning a runningCharName) before.

Definition noneSelectedIn (account : Account.t) : Prop :=
  forall c, In c (Account.characters account) -> Character.selected c = false.

Definition selectedDiffers (account : Account.t) (runningCharName : string)
  : Prop :=
  exists c, In c (Account.characters account)
            /\ Character.selected c = true
            /\ toLowerCase (Character.name c) <> toLowerCase runningCharName.

(** An account with a running character and either no selected character
    or a selected character of another name. *)
Definition mustClose (r : list Account.t) (runningCharacters : list string)
           (accountName : string) : Prop :=
  exists runningCharName account,
    In runningCharName runningCharacters
    /\ matchedTo r runningCharName account
    /\ Account.name account = accountName
    /\ (noneSelectedIn account \/ selectedDiffers account runningCharName).

End Launcher.

(** A roster of the data model whose account names identify the accounts:
    account names are distinct and not empty; in each account the ids are
    distinct and none is [NaN], the names are not empty and at most one
    character is selected. *)
Definition wellFormedRoster (r : list Account.t) : Prop :=
  NoDup (map Account.name r)
  /\ Forall (fun a =>
               Account.name a <> ""
               /\ NoDup (map Character.id (Account.characters a))
               /\ Forall (fun c => Character.id c <> IdNaN)
                         (Account.characters a)
               /\ atMostOneSelected a
               /\ Forall (fun c => Character.name c <> "")
                         (Account.characters a))
            r.

(** The three forms of the close stage of a launch: absent, cut short by a
    failed close request, or complete. *)
Inductive CloseStage (r : list Account.t) (w : Backend) : list Event -> Prop :=
| NoClose : CloseStage r w []
| CloseFailed names :
    (exists m, closeReply w = Rejected m) ->
    CloseStage r w [PostCloseRunningInstances names (accountsDataOf r)]
| CloseDone names :
    (exists ok u, closeReply w = Responded ok u) ->
    CloseStage r w [PostCloseRunningInstances names (accountsDataOf r);
                    SetTimeout 5000;
                    PostCheckAndFocusWindow (accountsDataOf r)
                                            (selectedAccountsOf r)].

(** ** The preference-copy page (preferences.js)

    The page keeps three pieces of state next to the settings it loaded:
    [characterLookup], a [Map] from character key to entry,
    [sourceCharacterKey], and [selectedTargets], a [Set] of character keys. *)

Module Prefs.

Module Entry.
Record t := mk {
  accountName : string;
  characterId : Id;
  characterName : string
}.
End Entry.

(** The [{accountName, characterId}] objects of the request. *)
Module Ref.
Record t := mk {
  accountName : string;
  characterId : Id
}.
End Ref.

Record State := mkState {
  accounts : list Account.t;
  characterLookup : list (string * Entry.t);
  sourceCharacterKey : string;
  selectedTargets : list string
}.

Definition getCharacterKey (accountName : string) (characterId : Id)
  : string :=
  accountName +++ "::" +++ showId characterId.

(** Lines 186-211.  An id of the data model is never [undefined] or
    [null], so the inner filter keeps every character. *)
Definition rebuildCharacterLookup (st : State) : State :=
  let lookup :=
    fold_left
      (fun m acc =>
         fold_left
           (fun m' char =>
              let key := getCharacterKey (Account.name acc)
                                         (Character.id char) in
              mapSet key
                     (Entry.mk (Account.name acc) (Character.id char)
                               (orElse (Character.name char)
                                       ("Char " +++ showId (Character.id char))))
                     m')
           (Account.characters acc) m)
      (filter (fun acc => negb (Account.name acc =? "")) (accounts st))
      [] in
  let validKeys := map fst lookup in
  let source :=
    if negb (sourceCharacterKey st =? "")
       && negb (setHas (sourceCharacterKey st) validKeys)
    then "" else sourceCharacterKey st in
  mkState (accounts st) lookup source
          (filter (fun key => setHas key validKeys && negb (key =? source))
                  (selectedTargets st)).

(** The checkbox that [renderTargetAccounts] created for a character of the
    roster (lines 351-373).  It exists only for a character of the roster
    and is [disabled] when the character is the source; the page is rendered
    again after every change of the source, so the flag is current. *)
Definition rendered (st : State) (accountName : string) (characterId : Id)
  : bool :=
  existsb (fun acc =>
             (Account.name acc =? accountName)
             && existsb (fun c => sameId (Character.id c) characterId)
                        (Account.characters acc))
          (accounts st).

Definition targetCheckbox_onchange (accountName : string) (characterId : Id)
           (checked : bool) (st : State) : State :=
  let key := getCharacterKey accountName characterId in
  if negb (rendered st accountName characterId) then st
  else if key =? sourceCharacterKey st then st
  else
    mkState (accounts st) (characterLookup st) (sourceCharacterKey st)
            (if checked then setAdd key (selectedTargets st)
             else setDelete key (selectedTargets st)).

(** Lines 400-415. *)
Definition setAccountSelection (accountName : string) (shouldSelect : bool)
           (st : State) : State :=
  match find (fun acc => Account.name acc =? accountName) (accounts st) with
  | None => st
  | Some account =>
      mkState (accounts st) (characterLookup st) (sourceCharacterKey st)
              (fold_left
                 (fun targets char =>
                    let key := getCharacterKey accountName
                                               (Character.id char) in
                    if key =? sourceCharacterKey st then targets
                    else if shouldSelect then setAdd key targets
                    else setDelete key targets)
                 (Account.characters account) (selectedTargets st))
  end.

(** Lines 417-424. *)
Definition handleSelectAllTargets (st : State) : State :=
  mkState (accounts st) (characterLookup st) (sourceCharacterKey st)
          (fold_left
             (fun targets kv =>
                if negb (fst kv =? sourceCharacterKey st)
                then setAdd (fst kv) targets else targets)
             (characterLookup st) (selectedTargets st)).

(** Lines 426-429. *)
Definition handleClearAllTargets (st : State) : State :=
  mkState (accounts st) (characterLookup st) (sourceCharacterKey st) [].

(** The [change] listener of the source drop-down (lines 559-568). *)
Definition sourceCharacterSelect_onchange (value : string) (st : State)
  : State :=
  mkState (accounts st) (characterLookup st) value
          (if negb (value =? "") then setDelete value (selectedTargets st)
           else selectedTargets st).

(** Lines 436-448. *)
Definition buildTargetPayload (st : State) : list Ref.t :=
  flat_map
    (fun key =>
       match mapGet key (characterLookup st) with
       | Some entry => [Ref.mk (Entry.accountName entry)
                               (Entry.characterId entry)]
       | None => []
       end)
    (selectedTargets st).

(** Lines 450-458. *)
Definition getSourcePayload (st : State) : option Ref.t :=
  if sourceCharacterKey st =? "" then None
  else
    match mapGet (sourceCharacterKey st) (characterLookup st) with
    | Some entry => Some (Ref.mk (Entry.accountName entry)
                                 (Entry.characterId entry))
    | None => None
    end.

Record Payload := mkPayload {
  prefsBasePath : string;
  source : Ref.t;
  targets : list Ref.t;
  items : list string;
  createBackup : bool
}.

(** Lines 460-498 of [handleCopyPreferences]: the checks that precede the
    request.  [basePath] is the trimmed text of the path input and [items]
    the ids of the ticked preference items.  The result is the body of the
    [/copy_preferences] request, or the message shown instead. *)
Definition handleCopyPreferences (basePath : string) (items : list string)
           (createBackup : bool) (st : State)
  : Payload + (string * MessageType) :=
  if basePath =? "" then
    inr ("Please set the path to your Prefs directory first.", error)
  else
    match getSourcePayload st with
    | None =>
        inr ("Select the character you want to copy preferences from.",
             error)
    | Some source =>
        if (length items =? 0)%nat then
          inr ("Select at least one preference file or folder to copy.",
               warning)
        else
          let targets := buildTargetPayload st in
          if (length targets =? 0)%nat then
            inr ("Choose at least one target character to receive the preferences.",
                 warning)
          else inl (mkPayload basePath source targets items createBackup)
    end.

(** What the operator can do on the page. *)
Inductive UiEvent :=
| SourceChange (value : string)
| TargetCheckboxChange (accountName : string) (characterId : Id)
                       (checked : bool)
| AccountSelection (accountName : string) (shouldSelect : bool)
| SelectAllTargets
| ClearAllTargets.

Definition step (e : UiEvent) (st : State) : State :=
  match e with
  | SourceChange value => sourceCharacterSelect_onchange value st
  | TargetCheckboxChange a c checked => targetCheckbox_onchange a c checked st
  | AccountSelection a shouldSelect => setAccountSelection a shouldSelect st
  | SelectAllTargets => handleSelectAllTargets st
  | ClearAllTargets => handleClearAllTargets st
  end.

(** [initialise]: the settings and the stored source key come from local
    storage; [selectedTargets] starts empty (line 126). *)
Definition initialise (storedAccounts : list Account.t)
           (storedSourceKey : string) : State :=
  rebuildCharacterLookup (mkState storedAccounts [] storedSourceKey []).

Definition run (events : list UiEvent) (st : State) : State :=
  fold_left (fun s e => step e s) events st.

(** Every entry of [characterLookup] is stored under its own key. *)
Definition lookupKeyed (m : list (string * Entry.t)) : Prop :=
  forall kv, In kv m ->
             fst kv = getCharacterKey (Entry.accountName (snd kv))
                                      (Entry.characterId (snd kv)).

(** The source is not a target, the empty key is not a target, and the
    lookup is keyed. *)
Definition sourceExcluded (st : State) : Prop :=
  ~ In (sourceCharacterKey st) (selectedTargets st)
  /\ ~ In "" (selectedTargets st)
  /\ lookupKeyed (characterLookup st).

End Prefs.

(** ** Equivalent rosters

    The same accounts with the same passwords and the same characters, in
    any order. *)
Definition sameAccount (a b : Account.t) : Prop :=
  Account.name a = Account.name b
  /\ Account.password a = Account.password b
  /\ Permutation (Account.characters a) (Account.characters b).

Definition equivalentRoster (r1 r2 : list Account.t) : Prop :=
  exists r', Permutation r1 r' /\ Forall2 sameAccount r' r2.

(** ** Rosters whose ids are integers

    What the page means an id to be; [parseInt] also yields [NaN] and the
    infinities. *)
Definition finiteId (i : Id) : Prop := exists z, i = IdNumber z.

Definition finiteIds (r : list Account.t) : Prop :=
  Forall (fun a => Forall (fun c => finiteId (Character.id c))
                          (Account.characters a)) r.

(** ** Further definitions, for the properties of the last parts *)

(** The message of the outer [catch] of the launch handler (line 729). *)
Definition connectionMessage (m : string) : Event :=
  ShowMessage ("Failed to connect to launcher backend: " +++ m
               +++ ". Is the Python server running?") error.

(** *** Settings in local storage (script.js, lines 46-81 and 889-891) *)

(** What [localStorage.getItem('aoLauncherSettings')] holds: nothing (or
    the empty text, which is falsy as well), a text that [JSON.parse]
    rejects, or a text that parses to a document. *)
Inductive StoredItem :=
| NoItem
| Unparsable
| Parsed (doc : json).

(** A value that [||] replaces by its right operand; a member that is
    absent reads as [undefined]. *)
Definition falsy (v : option json) : bool :=
  match v with
  | None | Some JNull | Some (JBool false) => true
  | Some (JNumber z) => (z =? 0)%Z
  | Some (JString t) => t =? ""
  | _ => false
  end.

(** [v || string] and [v || false] as far as the result is a string or a
    boolean of the data model. *)
Definition stringOrEmpty (v : option json) : option string :=
  match v with
  | Some (JString t) => Some t
  | _ => if falsy v then Some "" else None
  end.

Definition boolOrFalse (v : option json) : option bool :=
  match v with
  | Some (JBool b) => Some b
  | _ => if falsy v then Some false else None
  end.

(** Lines 64-70: the migration loop raises on an account that is [null]
    and on a character that is [null], where it reads a property; any other
    value passes. *)
Definition migrationThrows (accs : list json) : bool :=
  existsb
    (fun account =>
       match account with
       | JNull => true
       | JObject m =>
           match getMember "characters" m with
           | Some (JArray chars) =>
               existsb (fun char => match char with
                                    | JNull => true
                                    | _ => false
                                    end) chars
           | _ => false
           end
       | _ => false
       end)
    accs.

Definition corruptStorageMessage : Event :=
  ShowMessage
    "Error loading settings from local storage. Data might be corrupt."
    error.

Section Storage.

Variable localeCompare : string -> string -> Z.
Variable parseInt10 : string -> Id.

(** Lines 53-81.  The fields are assigned one after the other, so that an
    exception of the migration loop leaves the folders and the auto-cycle
    flag of the document with the roster of before.  [None]: the document
    puts outside the data model what the function stores as it is. *)
Definition loadSettingsFromLocalStorage (stored : StoredItem)
           (current : AppSettings) : option (AppSettings * list Event) :=
  match stored with
  | NoItem => Some (current, [])
  | Unparsable => Some (current, [corruptStorageMessage])
  | Parsed JNull => Some (current, [corruptStorageMessage])
  | Parsed doc =>
      let m := match doc with
               | JObject members => members
               | _ => []
               end in
      match stringOrEmpty (getMember "gameFolder" m),
            stringOrEmpty (getMember "dllFolder" m),
            boolOrFalse (getMember "autoCycle" m) with
      | Some g, Some d, Some a =>
          match getMember "accounts" m with
          | Some (JArray accs) =>
              if migrationThrows accs then
                Some (mkSettings g d (accounts current) a,
                      [corruptStorageMessage])
              else
                match traverse (accountOfJson parseInt10) accs with
                | Some loaded => Some (mkSettings g d loaded a, [])
                | None => None
                end
          | _ => Some (mkSettings g d [] a, [])
          end
      | _, _, _ => None
      end
  end.

(** Lines 889-891: the page loads the settings, then renders. *)
Definition pageLoad (stored : StoredItem) (current : AppSettings)
  : option (AppSettings * list Event) :=
  match loadSettingsFromLocalStorage stored current with
  | Some (s, messages) =>
      Some (mkSettings (gameFolder s) (dllFolder s)
                       (renderUI localeCompare (accounts s)) (autoCycle s),
            messages)
  | None => None
  end.

End Storage.

(** *** The batch-file export (script.js, lines 750-833) *)

Module BatEntry.
Record t := mk {
  accountName : string;
  password : string;
  characterId : Id;
  characterName : string
}.
End BatEntry.

(** Lines 752-765. *)
Definition selectedForBat (r : list Account.t) : list BatEntry.t :=
  flat_map
    (fun account =>
       map (fun char => BatEntry.mk (Account.name account)
                                    (Account.password account)
                                    (Character.id char)
                                    (Character.name char))
           (filter Character.selected (Account.characters account)))
    r.

(** [replace(/[^a-zA-Z0-9]/g, '_')], a character of a string being one
    code unit. *)
Definition isAlphaNumeric (c : ascii) : bool :=
  let n := nat_of_ascii c in
  ((48 <=? n)%nat && (n <=? 57)%nat)
  || ((65 <=? n)%nat && (n <=? 90)%nat)
  || ((97 <=? n)%nat && (n <=? 122)%nat).

Fixpoint replaceNonAlphaNumeric (s : string) : string :=
  match s with
  | EmptyString => EmptyString
  | String c t =>
      String (if isAlphaNumeric c then c else "_"%char)
             (replaceNonAlphaNumeric t)
  end.

(** Lines 778-783. *)
Definition batFilename (selectedCharacters : list BatEntry.t) : string :=
  match selectedCharacters with
  | [only] =>
      "AO_Launch_"
      +++ replaceNonAlphaNumeric (BatEntry.characterName only) +++ ".bat"
  | _ =>
      "AO_Launch_" +++ showNat (length selectedCharacters)
      +++ "_Characters.bat"
  end.

Definition doubleQuote : string := String (ascii_of_nat 34) EmptyString.

(** Lines 786-794. *)
Definition batLine (accountName password : string) (characterId : Id)
  : string :=
  newline +++ "dotnet AOQuickLauncher.dll " +++ accountName +++ " "
  +++ password +++ " " +++ showId characterId.

Definition batContent (s : AppSettings)
           (selectedCharacters : list BatEntry.t) : string :=
  fold_left
    (fun content char =>
       content +++ batLine (BatEntry.accountName char)
                           (BatEntry.password char)
                           (BatEntry.characterId char))
    selectedCharacters
    ("@ECHO OFF" +++ newline
     +++ "set AOPath=" +++ gameFolder s +++ newline
     +++ "cd /d " +++ doubleQuote +++ dllFolder s +++ doubleQuote
     +++ newline).

(** The File System Access API as the handler meets it: absent from the
    window; present, with the picker or one of the writes rejected (a
    cancelled dialog included); or present, with the file written under
    the name the operator chose. *)
Inductive SavePicker :=
| PickerAbsent
| PickerRejected
| PickerSaved (handleName : string).

Inductive ExportEvent :=
| Shown (message : string) (type : MessageType)
| WrittenThroughPicker (suggestedName handleName content : string)
| Downloaded (filename content : string).

Definition saveBatBtn_onclick (s : AppSettings) (picker : SavePicker)
  : list ExportEvent :=
  let selectedCharacters := selectedForBat (accounts s) in
  if (length selectedCharacters =? 0)%nat then
    [Shown "No characters selected. Please select at least one character first."
           warning]
  else if (gameFolder s =? "") || (dllFolder s =? "") then
    [Shown "Please specify both Game Folder and DLL Folder paths." error]
  else
    let filename := batFilename selectedCharacters in
    let content := batContent s selectedCharacters in
    match picker with
    | PickerSaved handleName =>
        [WrittenThroughPicker filename handleName content;
         Shown ("Saved launch script for "
                +++ showNat (length selectedCharacters)
                +++ " character(s) to " +++ handleName) success]
    | _ =>
        [Downloaded filename content;
         Shown ("Saved launch script for "
                +++ showNat (length selectedCharacters)
                +++ " character(s) as .BAT file") success]
    end.

(** ** Sample data for concrete runs *)

(** A roster outside the data model: three ticked characters under one
    account, as a hand-written configuration file can hold. *)
Definition crowdedRoster : list Account.t :=
  [Account.mk "Main" "pw"
     [Character.mk "Ada" 1 true "";
      Character.mk "Bea" 2 true "";
      Character.mk "Cyd" 3 true ""]].

Definition sampleRoster : list Account.t :=
  [Account.mk "Alpha" "pw1"
     [Character.mk "Ada" 1 true "";
      Character.mk "Bea" 2 false "tank"];
   Account.mk "Beta" "pw2"
     [Character.mk "Cyd" 3 false ""]].

(** Two accounts under one name: the second one holds the selected
    character. *)
Definition twinRoster : list Account.t :=
  [Account.mk "Twin" "pw1" [Character.mk "Ada" 1 false ""];
   Account.mk "Twin" "pw2" [Character.mk "Bea" 2 true ""]].

Definition busyRoster : list Account.t :=
  [Account.mk "Alpha" "pw1"
     [Character.mk "Ada" 1 true "";
      Character.mk "Bea" 2 false "tank"];
   Account.mk "Beta" "pw2"
     [Character.mk "Cyd" 3 true ""]].

Definition launchSettings : AppSettings :=
  mkSettings "C:\AO" "C:\AOQuickLauncher" busyRoster false.

Definition cyclingSettings : AppSettings :=
  mkSettings "C:\AO" "C:\AOQuickLauncher" busyRoster true.

Definition unconfiguredSettings : AppSettings :=
  mkSettings "" "C:\AOQuickLauncher" busyRoster false.

(** Bea runs under Alpha while Ada is selected there. *)
Definition conflictReply : CheckResult.t :=
  CheckResult.mk conflicts_found ["Alpha"]
                 [Conflict.mk "Alpha" "Alpha: Bea is running, Ada is selected"]
                 ["Bea"] "".

Definition beaRunsReply : CheckResult.t :=
  CheckResult.mk no_conflicts [] [] ["Bea"] "".

Definition quietReply : CheckResult.t :=
  CheckResult.mk no_conflicts [] [] [] "".

Definition launchedReply : LaunchResult.t :=
  LaunchResult.mk launch_success "Launched" ["Ada"; "Cyd"] [].

Definition conflictBackend : Backend :=
  mkBackend (Responded true conflictReply) (Rejected "not asked")
            (Rejected "not asked") (Responded true launchedReply).

(** The window of Bea closes on request. *)
Definition closingBackend : Backend :=
  mkBackend (Responded true beaRunsReply) (Responded true tt)
            (Responded true quietReply) (Responded true launchedReply).

(** The window of Bea stays open. *)
Definition stubbornBackend : Backend :=
  mkBackend (Responded true beaRunsReply) (Responded true tt)
            (Responded true beaRunsReply) (Responded true launchedReply).

(** The close request is not answered. *)
Definition deafBackend : Backend :=
  mkBackend (Responded true beaRunsReply) (Rejected "Failed to fetch")
            (Rejected "not asked") (Responded true launchedReply).

Definition twinSettings : AppSettings :=
  mkSettings "C:\AO" "C:\AOQuickLauncher" twinRoster true.

(** The first check reports the conflict on Alpha, and so does the
    re-check: the window of Bea stays open. *)
Definition conflictStaysBackend : Backend :=
  mkBackend (Responded true conflictReply) (Responded true tt)
            (Responded true conflictReply) (Responded true launchedReply).

(** The first check reports the conflict on Alpha; the re-check finds
    nothing running. *)
Definition conflictClearsBackend : Backend :=
  mkBackend (Responded true conflictReply) (Responded true tt)
            (Responded true quietReply) (Responded true launchedReply).

(** [sampleRoster] once a character Zed was added to Beta with a blank
    typed as its id, and the same with an id of too many digits. *)
Definition blankIdRoster : list Account.t :=
  [Account.mk "Alpha" "pw1"
     [Character.mk "Ada" 1 true "";
      Character.mk "Bea" 2 false "tank"];
   Account.mk "Beta" "pw2"
     [Character.mk "Cyd" 3 false "";
      Character.mk "Zed" IdNaN false ""]].

Definition hugeIdRoster : list Account.t :=
  [Account.mk "Alpha" "pw1"
     [Character.mk "Ada" 1 true "";
      Character.mk "Bea" 2 false "tank"];
   Account.mk "Beta" "pw2"
     [Character.mk "Cyd" 3 false "";
      Character.mk "Zed" (IdInfinity false) false ""]].

Definition blankIdSettings : AppSettings :=
  mkSettings "C:\AO" "C:\AOQuickLauncher" blankIdRoster false.

Definition hugeIdSettings : AppSettings :=
  mkSettings "C:\AO" "C:\AOQuickLauncher" hugeIdRoster false.

(** The two built-ins on prompt texts made of blanks and a few decimal
    digits, for concrete runs.  [Number(s)] ignores the blanks around the
    digits and reads a text without digits as 0, so [isNaN] holds when
    something else stands in the text; [parseInt(s, 10)] skips the leading
    blanks and reads the digits that follow, which gives [NaN] when there
    is none. *)
Definition isDigit (c : ascii) : bool :=
  let n := nat_of_ascii c in (48 <=? n)%nat && (n <=? 57)%nat.

Definition isBlank (c : ascii) : bool := (nat_of_ascii c =? 32)%nat.

Fixpoint skipBlanks (s : string) : string :=
  match s with
  | EmptyString => EmptyString
  | String c t => if isBlank c then skipBlanks t else s
  end.

Fixpoint allBlanks (s : string) : bool :=
  match s with
  | EmptyString => true
  | String c t => isBlank c && allBlanks t
  end.

Fixpoint digitsThenBlanks (s : string) : bool :=
  match s with
  | EmptyString => true
  | String c t => if isDigit c then digitsThenBlanks t else allBlanks s
  end.

Fixpoint leadingDigits (s : string) : string :=
  match s with
  | EmptyString => EmptyString
  | String c t => if isDigit c then String c (leadingDigits t) else EmptyString
  end.

Fixpoint digitsValue (acc : Z) (s : string) : Z :=
  match s with
  | EmptyString => acc
  | String c t =>
      digitsValue (10 * acc + Z.of_nat (nat_of_ascii c - 48))%Z t
  end.

Definition digitsIsNaN (s : string) : bool :=
  negb (digitsThenBlanks (skipBlanks s)).

Definition digitsParseInt (s : string) : Id :=
  let digits := leadingDigits (skipBlanks s) in
  if digits =? "" then IdNaN else IdNumber (digitsValue 0 digits).

(** * Properties *)

(** ** Arrays *)

Section ArrayFacts.

Context {A B : Type}.

Lemma forEachFrom_nth_error (f : nat -> A -> B) (l : list A) :
  forall i n,
    nth_error (forEachFrom i f l) n = option_map (f (i + n)) (nth_error l n).
Proof.
  induction l as [|x t IH]; intros i n.
  - destruct n; reflexivity.
  - destruct n as [|n]; simpl.
    + now rewrite Nat.add_0_r.
    + rewrite IH. now replace (S i + n) with (i + S n) by lia.
Qed.

Lemma forEachFrom_In (f : nat -> A -> B) (l : list A) :
  forall i y, In y (forEachFrom i f l) ->
              exists n x, nth_error l n = Some x /\ y = f (i + n) x.
Proof.
  intros i y Hy. apply In_nth_error in Hy. destruct Hy as [n Hn].
  rewrite forEachFrom_nth_error in Hn.
  destruct (nth_error l n) as [x|] eqn:E; [|discriminate].
  injection Hn as <-. now exists n, x.
Qed.

Lemma forEachFrom_map (g : B -> nat) (f : nat -> A -> B) (l : list A) :
  forall i, map g (forEachFrom i f l) = forEachFrom i (fun j x => g (f j x)) l.
Proof.
  induction l as [|x t IH]; intros i; simpl; [reflexivity|].
  now rewrite IH.
Qed.

End ArrayFacts.

Lemma forEachFrom_ext {A B : Type} (f g : nat -> A -> B) (l : list A) :
  (forall i x, f i x = g i x) ->
  forall i, forEachFrom i f l = forEachFrom i g l.
Proof.
  intros H. induction l as [|x t IH]; intros i; simpl; [reflexivity|].
  now rewrite H, IH.
Qed.

Lemma splice1_incl {A : Type} (l : list A) :
  forall i x, In x (splice1 i l) -> In x l.
Proof.
  induction l as [|y t IH]; intros i x Hx; simpl in *.
  - destruct i; contradiction.
  - destruct i as [|i]; [now right|].
    destruct Hx as [<-|Hx]; [now left | right; eauto].
Qed.

Lemma splice1_filter_length {A : Type} (p : A -> bool) (l : list A) :
  forall i, length (filter p (splice1 i l)) <= length (filter p l).
Proof.
  induction l as [|y t IH]; intros i; simpl.
  - destruct i; simpl; lia.
  - destruct i as [|i]; simpl.
    + destruct (p y); simpl; lia.
    + specialize (IH i). destruct (p y); simpl; lia.
Qed.

(** ** Sorting *)

Section SortFacts.

Context {A : Type}.
Variable cmp : A -> A -> Z.

Lemma insertBy_perm (x : A) (l : list A) :
  Permutation (insertBy cmp x l) (x :: l).
Proof.
  induction l as [|y t IH]; simpl; [reflexivity|].
  destruct (cmp x y <=? 0)%Z; [reflexivity|].
  rewrite IH. apply perm_swap.
Qed.

Lemma sortBy_perm (l : list A) : Permutation (sortBy cmp l) l.
Proof.
  induction l as [|x t IH]; simpl; [reflexivity|].
  rewrite insertBy_perm. now constructor.
Qed.

Hypothesis cmp_total : forall a b, (cmp a b <= 0)%Z \/ (cmp b a <= 0)%Z.

Lemma insertBy_sorted (x : A) (l : list A) :
  sortedBy cmp l -> sortedBy cmp (insertBy cmp x l).
Proof.
  induction l as [|y t IH]; intros Hl; simpl; [tauto|].
  destruct (Z.leb_spec (cmp x y) 0) as [Hxy|Hxy].
  - simpl. split; [assumption|]. exact Hl.
  - destruct Hl as [Hy Ht]. specialize (IH Ht).
    split; [|exact IH].
    destruct t as [|z t']; simpl.
    + destruct (cmp_total x y); lia.
    + destruct (cmp x z <=? 0)%Z; [|assumption].
      destruct (cmp_total x y); lia.
Qed.

Lemma sortBy_sorted (l : list A) : sortedBy cmp (sortBy cmp l).
Proof.
  induction l as [|x t IH]; simpl; [exact I|].
  now apply insertBy_sorted.
Qed.

Lemma sortBy_fixes_sorted (l : list A) : sortedBy cmp l -> sortBy cmp l = l.
Proof.
  induction l as [|x t IH]; intros Hl; simpl; [reflexivity|].
  destruct Hl as [Hx Ht]. rewrite (IH Ht).
  destruct t as [|y t']; simpl; [reflexivity|].
  destruct (Z.leb_spec (cmp x y) 0); [reflexivity | lia].
Qed.

Lemma sortBy_idempotent (l : list A) :
  sortBy cmp (sortBy cmp l) = sortBy cmp l.
Proof. apply sortBy_fixes_sorted, sortBy_sorted. Qed.

End SortFacts.

(** Sorting commutes with a map that the comparator does not see. *)
Lemma sortBy_map {A : Type} (cmp : A -> A -> Z) (f : A -> A) :
  (forall a b, cmp (f a) (f b) = cmp a b) ->
  forall l, sortBy cmp (map f l) = map f (sortBy cmp l).
Proof.
  intros Hf.
  assert (Hins : forall x l,
             insertBy cmp (f x) (map f l) = map f (insertBy cmp x l)).
  { intros x l. induction l as [|y t IH]; simpl; [reflexivity|].
    rewrite Hf. destruct (cmp x y <=? 0)%Z; simpl; [reflexivity|].
    now rewrite IH. }
  induction l as [|x t IH]; simpl; [reflexivity|].
  now rewrite IH, Hins.
Qed.

Lemma updateAt_nth_error_other {A : Type} (f : A -> A) (l : list A) :
  forall i j, j <> i -> nth_error (updateAt i f l) j = nth_error l j.
Proof.
  induction l as [|x t IH]; intros i j Hij; simpl.
  - now destruct i.
  - destruct i as [|i], j as [|j]; simpl; try reflexivity; try congruence.
    apply IH. congruence.
Qed.

Lemma updateAt_Forall {A : Type} (P : A -> Prop) (f : A -> A) (l : list A) :
  (forall x, In x l -> P x -> P (f x)) ->
  Forall P l -> forall i, Forall P (updateAt i f l).
Proof.
  intros Hf Hl. induction Hl as [|x t Hx Ht IH]; intros i; simpl.
  - destruct i; constructor.
  - destruct i as [|i]; constructor; auto.
    + apply Hf; [now left | assumption].
    + apply IH. intros y Hy. apply Hf. now right.
Qed.

Lemma updateAt_In {A : Type} (f : A -> A) (l : list A) :
  forall i y, In y (updateAt i f l) -> In y l \/ exists x, In x l /\ y = f x.
Proof.
  induction l as [|x t IH]; intros i y Hy; simpl in Hy.
  - destruct i; contradiction.
  - destruct i as [|i]; simpl in Hy.
    + destruct Hy as [<-|Hy]; [right; exists x; split; [now left|reflexivity]|].
      left. now right.
    + destruct Hy as [<-|Hy]; [left; now left|].
      destruct (IH _ _ Hy) as [H|(x' & H & ->)]; [left; now right|].
      right. exists x'. split; [now right | reflexivity].
Qed.

(** ** The roster under [renderUI] and the checkbox handler *)

Section RosterFacts.

Variable localeCompare : string -> string -> Z.

Local Abbreviation render := (renderUI localeCompare).
Local Abbreviation sortChars := (sortCharacters localeCompare).

Lemma selectedCount_perm (a b : Account.t) :
  Permutation (Account.characters a) (Account.characters b) ->
  selectedCount a = selectedCount b.
Proof.
  intros H. unfold selectedCount.
  apply Permutation_length.
  induction H; simpl; try reflexivity.
  - destruct (Character.selected x); [now constructor | assumption].
  - destruct (Character.selected x), (Character.selected y);
      try reflexivity. apply perm_swap.
  - etransitivity; eassumption.
Qed.

Lemma selectedCount_sortCharacters (a : Account.t) :
  selectedCount (sortChars a) = selectedCount a.
Proof. apply selectedCount_perm. simpl. apply sortBy_perm. Qed.

Lemma renderUI_perm (r : list Account.t) :
  Permutation (render r) (map sortChars r).
Proof.
  unfold render. destruct r as [|a t]; [reflexivity|].
  cbn [length Nat.eqb]. apply Permutation_map, sortBy_perm.
Qed.

Lemma renderUI_Forall_selected (P : nat -> Prop) (r : list Account.t) :
  Forall (fun a => P (selectedCount a)) r ->
  Forall (fun a => P (selectedCount a)) (render r).
Proof.
  intros H. eapply Permutation_Forall.
  - symmetry. apply renderUI_perm.
  - apply Forall_map. eapply Forall_impl; [|exact H].
    intros a Ha. cbv beta. now rewrite selectedCount_sortCharacters.
Qed.

Lemma renderUI_atMostOne (r : list Account.t) :
  Forall atMostOneSelected r -> Forall atMostOneSelected (render r).
Proof. apply (renderUI_Forall_selected (fun n => n <= 1)). Qed.

Lemma renderUI_totalSelected (r : list Account.t) :
  totalSelected (render r) = totalSelected r.
Proof.
  unfold totalSelected.
  rewrite (Permutation_list_sum (Permutation_map _ (renderUI_perm r))).
  rewrite map_map. f_equal. apply map_ext, selectedCount_sortCharacters.
Qed.

(** A character of the rendered roster is a character of the roster. *)
Lemma renderUI_characters (r : list Account.t) (a' : Account.t)
      (c : Character.t) :
  In a' (render r) -> In c (Account.characters a') ->
  exists a, In a r /\ Account.name a' = Account.name a
            /\ In c (Account.characters a).
Proof.
  intros Ha Hc.
  apply (Permutation_in _ (renderUI_perm r)) in Ha.
  apply in_map_iff in Ha. destruct Ha as (a & <- & Ha).
  exists a. repeat split; [assumption|].
  simpl in Hc. eapply Permutation_in; [apply sortBy_perm | exact Hc].
Qed.

(** *** The radio group of one account *)

Lemma radio_select_count (charIndex : nat) (l : list Character.t) :
  forall i,
    length (filter Character.selected
                   (forEachFrom i (radioStep charIndex true) l))
    = if (i <=? charIndex)%nat && (charIndex <? i + length l)%nat
      then 1 else 0.
Proof.
  induction l as [|x t IH]; intros i; simpl.
  - destruct (Nat.leb_spec i charIndex), (Nat.ltb_spec charIndex (i + 0));
      simpl; try reflexivity; lia.
  - unfold radioStep at 1.
    destruct (Nat.eqb_spec i charIndex) as [->|Hne]; simpl; rewrite IH.
    + destruct (Nat.leb_spec (S charIndex) charIndex); [lia|].
      destruct (Nat.leb_spec charIndex charIndex); [|lia].
      destruct (Nat.ltb_spec charIndex (charIndex + S (length t)));
        [reflexivity | lia].
    + destruct (Nat.leb_spec (S i) charIndex),
               (Nat.leb_spec i charIndex),
               (Nat.ltb_spec charIndex (S i + length t)),
               (Nat.ltb_spec charIndex (i + S (length t)));
        simpl; try reflexivity; lia.
Qed.

Lemma radio_clear_count (charIndex : nat) (l : list Character.t) :
  forall i,
    length (filter Character.selected
                   (forEachFrom i (radioStep charIndex false) l))
    <= length (filter Character.selected l).
Proof.
  induction l as [|x t IH]; intros i; simpl; [lia|].
  specialize (IH (S i)). unfold radioStep at 1.
  destruct (i =? charIndex)%nat; simpl.
  - destruct (Character.selected x); simpl; lia.
  - destruct (Character.selected x); simpl; lia.
Qed.

Lemma radio_atMostOne (charIndex : nat) (intended : bool) (a : Account.t) :
  atMostOneSelected a ->
  atMostOneSelected
    (setCharacters
       (forEachIndexed (radioStep charIndex intended) (Account.characters a))
       a).
Proof.
  unfold atMostOneSelected, selectedCount, forEachIndexed. simpl. intros H.
  destruct intended.
  - rewrite radio_select_count.
    destruct (_ && _); lia.
  - pose proof (radio_clear_count charIndex (Account.characters a) 0). lia.
Qed.

Lemma plainClickSelection_atMostOne (accIndex charIndex : nat)
      (r r' : list Account.t) :
  plainClickSelection accIndex charIndex r = Some r' ->
  Forall atMostOneSelected r -> Forall atMostOneSelected r'.
Proof.
  unfold plainClickSelection.
  destruct (nth_error r accIndex) as [account|]; [|discriminate].
  destruct (nth_error (Account.characters account) charIndex) as [char|];
    [|discriminate].
  intros [= <-] Hr. apply updateAt_Forall; [|assumption].
  intros a _. apply radio_atMostOne.
Qed.

Lemma checkbox_plain_atMostOne (accIndex charIndex : nat)
      (r : list Account.t) :
  Forall atMostOneSelected r ->
  Forall atMostOneSelected
         (checkbox_onclick localeCompare false accIndex charIndex r).
Proof.
  intros Hr. unfold checkbox_onclick.
  destruct (plainClickSelection accIndex charIndex r) as [r'|] eqn:E;
    [|assumption].
  apply renderUI_atMostOne. eapply plainClickSelection_atMostOne; eassumption.
Qed.

Lemma plainClicks_atMostOne (clicks : list (nat * nat)) :
  forall r, Forall atMostOneSelected r ->
            Forall atMostOneSelected (plainClicks localeCompare clicks r).
Proof.
  unfold plainClicks.
  induction clicks as [|[a c] t IH]; intros r Hr; simpl; [assumption|].
  apply IH. now apply checkbox_plain_atMostOne.
Qed.

(** C1, as amended: from a roster in which every account has at most one
    selected character, any sequence of plain clicks (each followed by the
    re-rendering sort) leads to a roster with the same property; and a
    plain click on one account leaves every other account of the roster
    exactly as it was. *)
Theorem plain_clicks_keep_one_selected_per_account
        (clicks : list (nat * nat)) (r : list Account.t) :
  Forall atMostOneSelected r ->
  Forall atMostOneSelected (plainClicks localeCompare clicks r)
  /\ (forall r0 accIndex charIndex r' j,
        plainClickSelection accIndex charIndex r0 = Some r' ->
        j <> accIndex -> nth_error r' j = nth_error r0 j).
Proof.
  intros Hr. split; [now apply plainClicks_atMostOne|].
  intros r0 accIndex charIndex r' j H Hj.
  unfold plainClickSelection in H.
  destruct (nth_error r0 accIndex) as [account|]; [|discriminate].
  destruct (nth_error (Account.characters account) charIndex) as [char|];
    [|discriminate].
  injection H as <-. now apply updateAt_nth_error_other.
Qed.

(** *** Ctrl+click *)

Lemma ctrl_inner_count (b : bool) (charIndex : nat) (l : list Character.t) :
  forall i,
    length (filter Character.selected
              (forEachFrom i
                 (fun cidx char =>
                    setSelected (b && (cidx =? charIndex)%nat) char) l))
    = if b && ((i <=? charIndex)%nat && (charIndex <? i + length l)%nat)
      then 1 else 0.
Proof.
  destruct b; simpl.
  - induction l as [|x t IH]; intros i; simpl.
    + destruct (Nat.leb_spec i charIndex), (Nat.ltb_spec charIndex (i + 0));
        simpl; try reflexivity; lia.
    + destruct (Nat.eqb_spec i charIndex) as [->|Hne]; simpl; rewrite IH.
      * destruct (Nat.leb_spec (S charIndex) charIndex); [lia|].
        destruct (Nat.leb_spec charIndex charIndex); [|lia].
        destruct (Nat.ltb_spec charIndex (charIndex + S (length t)));
          [reflexivity | lia].
      * destruct (Nat.leb_spec (S i) charIndex),
                 (Nat.leb_spec i charIndex),
                 (Nat.ltb_spec charIndex (S i + length t)),
                 (Nat.ltb_spec charIndex (i + S (length t)));
          simpl; try reflexivity; lia.
  - induction l as [|x t IH]; intros i; simpl; [reflexivity | apply IH].
Qed.

Lemma ctrl_outer_sum (accIndex charIndex : nat) (r : list Account.t) :
  forall i,
    list_sum
      (forEachFrom i
         (fun idx acc =>
            if (idx =? accIndex)%nat
               && (charIndex <? length (Account.characters acc))%nat
            then 1 else 0) r)
    = if (i <=? accIndex)%nat then
        match nth_error r (accIndex - i) with
        | Some acc =>
            if (charIndex <? length (Account.characters acc))%nat
            then 1 else 0
        | None => 0
        end
      else 0.
Proof.
  induction r as [|a t IH]; intros i.
  - simpl. destruct (i <=? accIndex)%nat; [|reflexivity].
    now destruct (accIndex - i).
  - cbn [forEachFrom].
    change (list_sum (?x :: ?l)) with (x + list_sum l).
    rewrite IH.
    destruct (Nat.eqb_spec i accIndex) as [->|Hne].
    + rewrite Nat.sub_diag. cbn [nth_error andb].
      destruct (Nat.leb_spec (S accIndex) accIndex); [lia|].
      destruct (Nat.leb_spec accIndex accIndex); [|lia].
      destruct (_ <? _)%nat; reflexivity.
    + cbn [andb].
      destruct (Nat.leb_spec (S i) accIndex), (Nat.leb_spec i accIndex);
        try reflexivity; try lia.
      replace (accIndex - i) with (S (accIndex - S i)) by lia.
      reflexivity.
Qed.

Lemma ctrlClick_totalSelected (accIndex charIndex : nat)
      (r : list Account.t) (acc : Account.t) :
  nth_error r accIndex = Some acc ->
  charIndex < length (Account.characters acc) ->
  totalSelected (ctrlClickSelection accIndex charIndex r) = 1.
Proof.
  intros Hacc Hlt. unfold totalSelected, ctrlClickSelection, forEachIndexed.
  rewrite forEachFrom_map.
  rewrite (forEachFrom_ext
             _ (fun idx a =>
                  if (idx =? accIndex)%nat
                     && (charIndex <? length (Account.characters a))%nat
                  then 1 else 0)).
  - rewrite ctrl_outer_sum. simpl. rewrite Nat.sub_0_r, Hacc.
    destruct (Nat.ltb_spec charIndex (length (Account.characters acc)));
      [reflexivity | lia].
  - intros j x. unfold selectedCount, forEachIndexed. simpl.
    rewrite ctrl_inner_count. simpl. reflexivity.
Qed.

Lemma ctrlClick_target (accIndex charIndex : nat) (r : list Account.t)
      (acc : Account.t) (ch : Character.t) :
  nth_error r accIndex = Some acc ->
  nth_error (Account.characters acc) charIndex = Some ch ->
  exists acc',
    nth_error (ctrlClickSelection accIndex charIndex r) accIndex = Some acc'
    /\ nth_error (Account.characters acc') charIndex
       = Some (setSelected true ch).
Proof.
  intros Hacc Hch. unfold ctrlClickSelection, forEachIndexed.
  rewrite forEachFrom_nth_error, Hacc. simpl.
  eexists. split; [reflexivity|]. simpl.
  rewrite forEachFrom_nth_error, Hch. simpl.
  now rewrite !Nat.eqb_refl.
Qed.

Lemma ctrlClick_only_target (accIndex charIndex : nat) (r : list Account.t)
      (acc : Account.t) (ch : Character.t) (a : Account.t)
      (c : Character.t) :
  nth_error r accIndex = Some acc ->
  nth_error (Account.characters acc) charIndex = Some ch ->
  In a (ctrlClickSelection accIndex charIndex r) ->
  In c (Account.characters a) ->
  Character.selected c = true ->
  c = setSelected true ch.
Proof.
  intros Hacc Hch Ha Hc Hsel. unfold ctrlClickSelection, forEachIndexed in Ha.
  apply forEachFrom_In in Ha. destruct Ha as (n & x & Hx & ->).
  simpl in Hc. apply forEachFrom_In in Hc. destruct Hc as (m & y & Hy & ->).
  simpl in Hsel. apply andb_true_iff in Hsel. destruct Hsel as [Hn Hm].
  apply Nat.eqb_eq in Hn, Hm. subst n m.
  rewrite Hacc in Hx. injection Hx as <-.
  rewrite Hch in Hy. injection Hy as <-.
  simpl. now rewrite !Nat.eqb_refl.
Qed.

(** C2: a Ctrl+click on an existing character of an existing account
    leaves exactly one selected character in the whole roster, the clicked
    one, whatever was selected before; this holds for the roster as the
    handler writes it and as [renderUI] re-sorts it. *)
Theorem ctrl_click_selects_exactly_the_target
        (r : list Account.t) (accIndex charIndex : nat)
        (acc : Account.t) (ch : Character.t) :
  nth_error r accIndex = Some acc ->
  nth_error (Account.characters acc) charIndex = Some ch ->
  totalSelected (ctrlClickSelection accIndex charIndex r) = 1
  /\ (exists acc',
        nth_error (ctrlClickSelection accIndex charIndex r) accIndex
        = Some acc'
        /\ nth_error (Account.characters acc') charIndex
           = Some (setSelected true ch))
  /\ totalSelected (checkbox_onclick localeCompare true accIndex charIndex r)
     = 1
  /\ (forall a c,
        In a (checkbox_onclick localeCompare true accIndex charIndex r) ->
        In c (Account.characters a) ->
        Character.selected c = true ->
        c = setSelected true ch).
Proof.
  intros Hacc Hch.
  assert (Hlt : charIndex < length (Account.characters acc)).
  { apply nth_error_Some. congruence. }
  repeat split.
  - eapply ctrlClick_totalSelected; eassumption.
  - eapply ctrlClick_target; eassumption.
  - unfold checkbox_onclick. rewrite renderUI_totalSelected.
    eapply ctrlClick_totalSelected; eassumption.
  - intros a c Ha Hc Hsel. unfold checkbox_onclick in Ha.
    destruct (renderUI_characters _ _ _ Ha Hc) as (a0 & Ha0 & _ & Hc0).
    eapply ctrlClick_only_target; eassumption.
Qed.

(** *** Clear Selection *)

Lemma clearSelection_noneSelected (r : list Account.t) :
  noneSelected (fst (clearSelection r)).
Proof.
  unfold noneSelected. simpl. apply Forall_map, Forall_forall.
  intros a _. simpl. apply Forall_map, Forall_forall. intros c _.
  now destruct (Character.selected c) eqn:E.
Qed.

Lemma clearSelection_fixes_noneSelected (r : list Account.t) :
  noneSelected r -> clearSelection r = (r, false).
Proof.
  unfold clearSelection. intros H. f_equal.
  - rewrite <- (map_id r) at 2. apply map_ext_in. intros a Ha.
    destruct a as [n p cs]. unfold setCharacters. simpl. f_equal.
    rewrite <- (map_id cs) at 2. apply map_ext_in. intros c Hc.
    unfold noneSelected in H. rewrite Forall_forall in H.
    specialize (H _ Ha). simpl in H. rewrite Forall_forall in H.
    now rewrite (H _ Hc).
  - apply not_true_is_false. intros E. apply existsb_exists in E.
    destruct E as (a & Ha & E). apply existsb_exists in E.
    destruct E as (c & Hc & E).
    unfold noneSelected in H. rewrite Forall_forall in H.
    specialize (H _ Ha). rewrite Forall_forall in H.
    rewrite (H _ Hc) in E. discriminate.
Qed.

Lemma renderUI_noneSelected (r : list Account.t) :
  noneSelected r -> noneSelected (render r).
Proof.
  unfold noneSelected. intros H. eapply Permutation_Forall.
  - symmetry. apply renderUI_perm.
  - apply Forall_map. eapply Forall_impl; [|exact H].
    intros a Ha. simpl. eapply Permutation_Forall; [|exact Ha].
    symmetry. apply sortBy_perm.
Qed.

Lemma noneSelected_total (r : list Account.t) :
  noneSelected r -> totalSelected r = 0.
Proof.
  unfold totalSelected. induction 1 as [|a t Ha Ht IH]; [reflexivity|].
  simpl. rewrite IH. unfold selectedCount.
  clear -Ha. induction Ha as [|c cs Hc Hcs IHc]; [reflexivity|].
  simpl. now rewrite Hc.
Qed.

Section ConsistentComparator.

(** [localeCompare] orders any two strings one way or the other. *)
Hypothesis localeCompare_total :
  forall a b, (localeCompare a b <= 0)%Z \/ (localeCompare b a <= 0)%Z.

Lemma sortCharacters_idempotent (a : Account.t) :
  sortChars (sortChars a) = sortChars a.
Proof.
  unfold sortCharacters, setCharacters. simpl. f_equal.
  apply sortBy_idempotent. intros x y. apply localeCompare_total.
Qed.

Lemma renderUI_idempotent (r : list Account.t) :
  render (render r) = render r.
Proof.
  unfold renderUI. destruct r as [|a t]; [reflexivity|].
  cbn [length Nat.eqb].
  set (s := sortBy _ (a :: t)).
  destruct (map sortChars s) as [|b u] eqn:E; [reflexivity|].
  cbn [length Nat.eqb]. rewrite <- E.
  rewrite sortBy_map by reflexivity.
  unfold s. rewrite sortBy_idempotent
    by (intros x y; apply localeCompare_total).
  rewrite map_map. apply map_ext. apply sortCharacters_idempotent.
Qed.

(** C8: clearing the selection twice gives the roster that clearing it
    once gives, the second call shows no message, and the first call
    shows its message exactly when some character was selected; after
    it no character is selected. *)
Theorem clear_selection_is_idempotent (r : list Account.t) :
  let first := clearSelectionBtn_onclick localeCompare r in
  let second := clearSelectionBtn_onclick localeCompare (fst first) in
  fst second = fst first
  /\ snd second = []
  /\ totalSelected (fst first) = 0
  /\ (snd first
      = [ShowMessage "All character selections have been cleared." info]
      <-> exists a c, In a r /\ In c (Account.characters a)
                      /\ Character.selected c = true)
  /\ (snd first = []
      <-> forall a c, In a r -> In c (Account.characters a) ->
                      Character.selected c = false).
Proof.
  cbv zeta.
  assert (Hnone : noneSelected
                    (fst (clearSelectionBtn_onclick localeCompare r))).
  { unfold clearSelectionBtn_onclick.
    pose proof (clearSelection_noneSelected r) as H.
    destruct (clearSelection r) as [r' b]. simpl in *.
    now apply renderUI_noneSelected. }
  assert (Hsecond :
            clearSelectionBtn_onclick
              localeCompare
              (fst (clearSelectionBtn_onclick localeCompare r))
            = (fst (clearSelectionBtn_onclick localeCompare r), [])).
  { unfold clearSelectionBtn_onclick at 1.
    rewrite (clearSelection_fixes_noneSelected _ Hnone).
    f_equal. unfold clearSelectionBtn_onclick.
    destruct (clearSelection r) as [r' b]. simpl.
    apply renderUI_idempotent. }
  rewrite Hsecond. simpl.
  split; [reflexivity|]. split; [reflexivity|].
  split; [now apply noneSelected_total|].
  unfold clearSelectionBtn_onclick, clearSelection. simpl.
  destruct (existsb _ r) eqn:E; simpl.
  - apply existsb_exists in E. destruct E as (a & Ha & E).
    apply existsb_exists in E. destruct E as (c & Hc & E).
    split; split; intros H; try reflexivity; try discriminate.
    + now exists a, c.
    + rewrite (H a c Ha Hc) in E. discriminate.
  - split; split; intros H; try reflexivity; try discriminate.
    + destruct H as (a & c & Ha & Hc & Hs).
      assert (existsb
                (fun account : Account.t =>
                   existsb Character.selected (Account.characters account))
                r = true) as E'.
      { apply existsb_exists. exists a. split; [assumption|].
        apply existsb_exists. now exists c. }
      congruence.
    + intros a c Ha Hc. destruct (Character.selected c) eqn:Hs; [|reflexivity].
      assert (existsb
                (fun account : Account.t =>
                   existsb Character.selected (Account.characters account))
                r = true) as E'.
      { apply existsb_exists. exists a. split; [assumption|].
        apply existsb_exists. now exists c. }
      congruence.
Qed.

End ConsistentComparator.

End RosterFacts.

(** ** Roster edits *)

Lemma updateAt_totalSelected_le (f : Account.t -> Account.t)
      (r : list Account.t) :
  (forall a, selectedCount (f a) <= selectedCount a) ->
  forall i, totalSelected (updateAt i f r) <= totalSelected r.
Proof.
  intros Hf. unfold totalSelected.
  induction r as [|a t IH]; intros i; simpl.
  - destruct i; simpl; lia.
  - destruct i as [|i]; simpl.
    + specialize (Hf a). lia.
    + specialize (IH i). lia.
Qed.

Lemma splice1_totalSelected_le (r : list Account.t) :
  forall i, totalSelected (splice1 i r) <= totalSelected r.
Proof.
  unfold totalSelected. induction r as [|a t IH]; intros i; simpl.
  - destruct i; simpl; lia.
  - destruct i as [|i]; simpl; [lia|]. specialize (IH i). lia.
Qed.

Lemma splice1_Forall {A : Type} (P : A -> Prop) (l : list A) (i : nat) :
  Forall P l -> Forall P (splice1 i l).
Proof.
  rewrite !Forall_forall. intros H x Hx. apply H.
  eapply splice1_incl; eassumption.
Qed.

Lemma selectedCount_push (c : Character.t) (a : Account.t) :
  Character.selected c = false ->
  selectedCount (pushCharacter c a) = selectedCount a.
Proof.
  intros Hc. unfold selectedCount, pushCharacter. simpl.
  rewrite filter_app, length_app. simpl. rewrite Hc. simpl. lia.
Qed.

Lemma selectedCount_splice (i : nat) (a : Account.t) :
  selectedCount (setCharacters (splice1 i (Account.characters a)) a)
  <= selectedCount a.
Proof. unfold selectedCount. simpl. apply splice1_filter_length. Qed.

Lemma selectedCount_comment (i : nat) (text : string) (a : Account.t) :
  selectedCount
    (setCharacters (updateAt i (setComment text) (Account.characters a)) a)
  = selectedCount a.
Proof.
  unfold selectedCount. simpl. generalize i.
  induction (Account.characters a) as [|c t IH]; intros j; simpl.
  - now destruct j.
  - destruct j as [|j]; simpl.
    + now destruct (Character.selected c).
    + specialize (IH j). destruct (Character.selected c); simpl; lia.
Qed.

Section EditFacts.

Variable localeCompare : string -> string -> Z.
Variable isNaN : string -> bool.
Variable parseInt10 : string -> Id.

Local Abbreviation render := (renderUI localeCompare).
Local Abbreviation addCharacter := (addCharBtn_onclick localeCompare isNaN parseInt10).
Local Abbreviation addAccount := (addAccountBtn_onclick localeCompare).
Local Abbreviation removeCharacter := (removeCharBtn_onclick localeCompare).
Local Abbreviation removeAccount := (removeAccountBtn_onclick localeCompare).

(** What [addCharBtn_onclick] yields: the roster as it was, or the roster
    with one more character, unselected and without comment. *)
Lemma addCharacter_result (accIndex : nat) (n i : option string)
      (r r' : list Account.t) (msgs : list Event) :
  addCharacter accIndex n i r = Some (r', msgs) ->
  r' = r
  \/ exists name id,
      r' = render (updateAt accIndex
                            (pushCharacter (Character.mk name id false ""))
                            r).
Proof.
  unfold addCharBtn_onclick. intros H.
  destruct n as [charName|]; [|injection H as <- _; now left].
  destruct (charName =? ""); [injection H as <- _; now left|].
  destruct i as [charId|]; [|injection H as <- _; now left].
  destruct ((charId =? "") || isNaN charId);
    [injection H as <- _; now left|].
  destruct (nth_error r accIndex); [|discriminate].
  injection H as <- _. right. now exists charName, (parseInt10 charId).
Qed.

Lemma addAccount_result (n p : option string) (r : list Account.t) :
  addAccount n p r = r
  \/ exists name password,
      addAccount n p r = render (r ++ [Account.mk name password []]).
Proof.
  unfold addAccountBtn_onclick.
  destruct n as [accName|]; [|now left].
  destruct (accName =? ""); [now left|].
  destruct p as [password|]; [|now left].
  destruct (password =? ""); [now left|].
  right. now exists accName, password.
Qed.

Lemma removeCharacter_result (confirmed : bool) (accIndex charIndex : nat)
      (r r' : list Account.t) :
  removeCharacter confirmed accIndex charIndex r = Some r' ->
  r' = r
  \/ r' = render (updateAt accIndex
                           (fun acc =>
                              setCharacters
                                (splice1 charIndex (Account.characters acc))
                                acc)
                           r).
Proof.
  unfold removeCharBtn_onclick. intros H.
  destruct confirmed; simpl in H; [|injection H as <-; now left].
  destruct (nth_error r accIndex); [|discriminate].
  injection H as <-. now right.
Qed.

Lemma applyEdit_atMostOne (e : Edit) (r : list Account.t) :
  Forall atMostOneSelected r ->
  Forall atMostOneSelected (applyEdit localeCompare isNaN parseInt10 e r).
Proof.
  intros Hr.
  destruct e as [accIndex n i|n p|c accIndex charIndex|c accIndex
                |accIndex charIndex newComment|accIndex newPassword];
    simpl.
  - destruct (addCharacter accIndex n i r) as [[r' msgs]|] eqn:E;
      [|assumption].
    destruct (addCharacter_result _ _ _ _ _ _ E) as [->|(name & id & ->)];
      [assumption|].
    apply renderUI_atMostOne, updateAt_Forall; [|assumption].
    intros a _ Ha. unfold atMostOneSelected in *.
    now rewrite selectedCount_push.
  - destruct (addAccount_result n p r) as [->|(name & pw & ->)];
      [assumption|].
    apply renderUI_atMostOne, Forall_app. split; [assumption|].
    constructor; [|constructor]. unfold atMostOneSelected, selectedCount.
    simpl. lia.
  - destruct (removeCharacter c accIndex charIndex r) as [r'|] eqn:E;
      [|assumption].
    destruct (removeCharacter_result _ _ _ _ _ E) as [->| ->]; [assumption|].
    apply renderUI_atMostOne, updateAt_Forall; [|assumption].
    intros a _ Ha. unfold atMostOneSelected in *.
    pose proof (selectedCount_splice charIndex a). lia.
  - unfold removeAccountBtn_onclick. destruct c; simpl; [|assumption].
    now apply renderUI_atMostOne, splice1_Forall.
  - unfold saveComment. destruct (nth_error r accIndex) as [account|];
      [|assumption].
    destruct (nth_error (Account.characters account) charIndex);
      [|assumption].
    apply updateAt_Forall; [|assumption].
    intros a _ Ha. unfold atMostOneSelected in *.
    now rewrite selectedCount_comment.
  - unfold savePasswordBtn_onclick.
    destruct (nth_error r accIndex) as [account|]; [|assumption].
    destruct (newPassword =? ""); [assumption|].
    apply updateAt_Forall; [|assumption]. intros a _ Ha. exact Ha.
Qed.

Lemma removeCharacter_keeps (confirmed : bool) (accIndex charIndex : nat)
      (r r' : list Account.t) :
  removeCharacter confirmed accIndex charIndex r = Some r' ->
  totalSelected r' <= totalSelected r
  /\ forall a' c, In a' r' -> In c (Account.characters a') ->
                  exists a, In a r /\ Account.name a' = Account.name a
                            /\ In c (Account.characters a).
Proof.
  intros H. destruct (removeCharacter_result _ _ _ _ _ H) as [->| ->].
  - split; [lia|]. intros a' c Ha Hc. now exists a'.
  - split.
    + rewrite renderUI_totalSelected. apply updateAt_totalSelected_le.
      intros a. apply selectedCount_splice.
    + intros a' c Ha Hc.
      destruct (renderUI_characters _ _ _ _ Ha Hc) as (a0 & Ha0 & Hn & Hc0).
      apply updateAt_In in Ha0. destruct Ha0 as [Ha0|(x & Hx & ->)].
      * now exists a0.
      * exists x. repeat split; [assumption..|].
        simpl in Hc0. eapply splice1_incl; eassumption.
Qed.

Lemma removeAccount_keeps (confirmed : bool) (accIndex : nat)
      (r : list Account.t) :
  totalSelected (removeAccount confirmed accIndex r) <= totalSelected r
  /\ forall a' c, In a' (removeAccount confirmed accIndex r) ->
                  In c (Account.characters a') ->
                  exists a, In a r /\ Account.name a' = Account.name a
                            /\ In c (Account.characters a).
Proof.
  unfold removeAccountBtn_onclick. destruct confirmed; simpl.
  - split.
    + rewrite renderUI_totalSelected. apply splice1_totalSelected_le.
    + intros a' c Ha Hc.
      destruct (renderUI_characters _ _ _ _ Ha Hc) as (a0 & Ha0 & Hn & Hc0).
      exists a0. repeat split; try assumption.
      eapply splice1_incl; eassumption.
  - split; [lia|]. intros a' c Ha Hc. now exists a'.
Qed.

(** C10: each edit of the roster (adding or removing a character or an
    account, editing a comment or a password) keeps "at most one selected
    character per account"; a character is added unselected and with an
    empty comment, an account is added without characters, and after a
    removal every remaining character is a character of the old roster,
    flag included, so that no more characters are selected than before. *)
Theorem roster_edits_preserve_selection_invariant
        (e : Edit) (r : list Account.t) :
  Forall atMostOneSelected r ->
  Forall atMostOneSelected (applyEdit localeCompare isNaN parseInt10 e r)
  /\ (forall accIndex n i r' msgs,
        addCharacter accIndex n i r = Some (r', msgs) ->
        r' = r
        \/ exists name id,
            r' = render (updateAt
                           accIndex
                           (pushCharacter (Character.mk name id false ""))
                           r))
  /\ (forall n p,
        addAccount n p r = r
        \/ exists name password,
            addAccount n p r = render (r ++ [Account.mk name password []]))
  /\ (forall confirmed accIndex charIndex r',
        removeCharacter confirmed accIndex charIndex r = Some r' ->
        totalSelected r' <= totalSelected r
        /\ forall a' c, In a' r' -> In c (Account.characters a') ->
                        exists a, In a r /\ Account.name a' = Account.name a
                                  /\ In c (Account.characters a))
  /\ (forall confirmed accIndex,
        totalSelected (removeAccount confirmed accIndex r)
        <= totalSelected r
        /\ forall a' c, In a' (removeAccount confirmed accIndex r) ->
                        In c (Account.characters a') ->
                        exists a, In a r /\ Account.name a' = Account.name a
                                  /\ In c (Account.characters a)).
Proof.
  intros Hr. split; [now apply applyEdit_atMostOne|].
  split; [intros; eapply addCharacter_result; eassumption|].
  split; [intros; apply addAccount_result|].
  split; [intros; eapply removeCharacter_keeps; eassumption|].
  intros; apply removeAccount_keeps.
Qed.

End EditFacts.

(** ** The launch handler *)

Lemma bind_fst {A B : Type} (h : Handler A) (k : A -> Handler B) :
  fst (bind h k)
  = fst h ++ match snd h with
             | Continue a => fst (k a)
             | _ => []
             end.
Proof.
  destruct h as [tr [a| |m]]; simpl; try now rewrite app_nil_r.
  now destruct (k a).
Qed.

Lemma bind_snd {A B : Type} (h : Handler A) (k : A -> Handler B) :
  snd (bind h k)
  = match snd h with
    | Continue a => snd (k a)
    | Return => Return
    | Throw m => Throw m
    end.
Proof.
  destruct h as [tr [a| |m]]; simpl; try reflexivity. now destruct (k a).
Qed.

Lemma tryCatch_fst {A : Type} (h : Handler A) (f : string -> Handler A) :
  fst (tryCatch h f)
  = fst h ++ match snd h with
             | Throw m => fst (f m)
             | _ => []
             end.
Proof.
  destruct h as [tr [a| |m]]; simpl; try now rewrite app_nil_r.
  now destruct (f m).
Qed.

Lemma launchedLists_app (t1 t2 : list Event) :
  launchedLists (t1 ++ t2) = launchedLists t1 ++ launchedLists t2.
Proof. apply flat_map_app. Qed.

Lemma selectedCharactersOf_length (r : list Account.t) :
  length (selectedCharactersOf r) = totalSelected r.
Proof.
  unfold selectedCharactersOf, totalSelected.
  induction r as [|a t IH]; simpl; [reflexivity|].
  now rewrite length_app, length_map, IH.
Qed.

Ltac step_handler :=
  cbn [bind tryCatch emit ret returnNow throw await fst snd app].

(** Closes a case of the shape lemma of the launch trace: the trace at hand
    is the two opening events, the close stage [mid] and quiet events. *)
Ltac close_shape mid Hmid :=
  simpl;
  eexists [_; _], mid, _;
  split; [cbn [app]; do 2 f_equal; rewrite <- !app_assoc; f_equal; reflexivity|];
  split; [now right|]; split; [exact Hmid|];
  repeat (apply Forall_app; split); auto;
  repeat constructor.

Ltac run_handler :=
  repeat (unfold bind, tryCatch, emit, ret, returnNow, throw, await; simpl).

Section LaunchFacts.

Variable toLowerCase : string -> string.

Local Abbreviation launch := (launchBtn_onclick toLowerCase).
Local Abbreviation autoCycleBlock := (autoCyclePhase toLowerCase).
Local Abbreviation closeBlock := (closeAndRecheck toLowerCase).
Local Abbreviation toClose := (accountsToCloseOf toLowerCase).

(** C6: when no character is selected, or the game folder or the DLL
    folder is empty, the launch handler shows one message, a warning or
    an error, and does nothing else: its trace holds no conflict check, no
    close request and no launch request. *)
Theorem launch_validation_fails_fast (s : AppSettings) (w : Backend) :
  totalSelected (accounts s) = 0 \/ gameFolder s = "" \/ dllFolder s = "" ->
  exists message type,
    launch s w = [ShowMessage message type]
    /\ (type = warning \/ type = error)
    /\ filter isCheck (launch s w) = []
    /\ filter isClose (launch s w) = []
    /\ filter isLaunch (launch s w) = [].
Proof.
  intros H. unfold launchBtn_onclick.
  rewrite selectedCharactersOf_length.
  destruct (Nat.eqb_spec (totalSelected (accounts s)) 0) as [E|E].
  - do 2 eexists. run_handler. repeat split; auto.
  - destruct H as [H|H]; [contradiction|].
    assert (Hb : (gameFolder s =? "") || (dllFolder s =? "") = true).
    { apply orb_true_iff. destruct H as [H|H]; [left|right];
        now apply String.eqb_eq. }
    rewrite Hb. do 2 eexists. run_handler. repeat split; auto.
Qed.

(** *** The stages after the first check *)

Lemma closeBlock_no_launch (r : list Account.t) (w : Backend)
      (names : list string) :
  launchedLists (fst (closeBlock r w names)) = [].
Proof.
  unfold closeAndRecheck.
  destruct (closeReply w) as [m|ok u]; run_handler; [reflexivity|].
  destruct (recheck w) as [m|ok' body]; run_handler; [reflexivity|].
  destruct ok'; run_handler; [|reflexivity].
  destruct (0 <? _)%nat; run_handler; reflexivity.
Qed.

Lemma autoCycleBlock_no_launch (s : AppSettings) (w : Backend)
      (cr : CheckResult.t) :
  launchedLists (fst (autoCycleBlock s w cr)) = [].
Proof.
  unfold autoCyclePhase. destruct (autoCycle s); [|reflexivity].
  destruct (0 <? _)%nat; [apply closeBlock_no_launch | reflexivity].
Qed.

Lemma statusSwitch_no_launch (cr : CheckResult.t) (sel : list Selected.t) :
  launchedLists (fst (statusSwitch cr sel)) = [].
Proof.
  unfold statusSwitch.
  destruct (CheckResult.status cr); run_handler; try reflexivity.
  - destruct (length _ =? 0)%nat; reflexivity.
  - destruct (0 <? _)%nat; reflexivity.
Qed.

Lemma submitLaunch_launches (s : AppSettings) (w : Backend)
      (sel : list Selected.t) :
  launchedLists (fst (submitLaunch s w sel))
  = match sel with [] => [] | _ => [sel] end.
Proof.
  unfold submitLaunch. destruct sel as [|c t]; [reflexivity|].
  cbn [length Nat.ltb Nat.leb].
  destruct (launchReply w) as [m|ok body]; run_handler; [reflexivity|].
  destruct ok; [|reflexivity].
  destruct (LaunchResult.status body); reflexivity.
Qed.

(** The launch requests of a run that passed the guards and got an
    answer to its first check. *)
Lemma launch_requests (s : AppSettings) (w : Backend) (cr : CheckResult.t) :
  totalSelected (accounts s) <> 0 ->
  gameFolder s <> "" -> dllFolder s <> "" ->
  firstCheck w = Responded true cr ->
  launchedLists (launch s w)
  = match snd (autoCycleBlock s w cr) with
    | Continue latest =>
        match snd (statusSwitch latest (selectedCharactersOf (accounts s)))
        with
        | Continue [] => []
        | Continue submitted => [submitted]
        | _ => []
        end
    | _ => []
    end.
Proof.
  intros Hsel Hg Hd Hc. unfold launchBtn_onclick.
  rewrite selectedCharactersOf_length.
  destruct (Nat.eqb_spec (totalSelected (accounts s)) 0); [contradiction|].
  apply String.eqb_neq in Hg, Hd. rewrite Hg, Hd. cbn [orb].
  rewrite bind_fst. cbn [emit fst snd]. rewrite launchedLists_app.
  cbn [launchedLists flat_map app].
  rewrite tryCatch_fst, launchedLists_app.
  replace (launchedLists
             match snd (checkThenLaunch toLowerCase s w) with
             | Throw m => _
             | _ => []
             end) with (@nil (list Selected.t))
    by (destruct (snd (checkThenLaunch toLowerCase s w)); reflexivity).
  rewrite app_nil_r. unfold checkThenLaunch. rewrite Hc.
  rewrite bind_fst. cbn [await fst snd]. rewrite launchedLists_app.
  cbn [launchedLists flat_map app].
  rewrite bind_fst, launchedLists_app, bind_fst, launchedLists_app.
  rewrite autoCycleBlock_no_launch, bind_snd. cbn [app].
  destruct (snd (autoCycleBlock s w cr)) as [latest| |m]; try reflexivity.
  rewrite statusSwitch_no_launch. cbn [app].
  destruct (snd (statusSwitch latest _)) as [submitted| |m];
    try reflexivity.
  apply submitLaunch_launches.
Qed.

(** The check result that the auto-cycle stage hands to the status switch:
    the first one when auto-cycle is off or finds no account to close, and
    otherwise the re-check, when the close request was answered and the
    re-check is ok and shows none of the closed accounts still running. *)
Lemma autoCycleBlock_result (s : AppSettings) (w : Backend)
      (cr latest : CheckResult.t) :
  ((autoCycle s = false
    \/ toClose (accounts s) (selectedCharactersOf (accounts s))
               (CheckResult.runningCharacters cr) = [])
   /\ latest = cr)
  \/ (autoCycle s = true
      /\ toClose (accounts s) (selectedCharactersOf (accounts s))
                 (CheckResult.runningCharacters cr) <> []
      /\ (exists ok u, closeReply w = Responded ok u)
      /\ recheck w = Responded true latest
      /\ failedToCloseOf toLowerCase (accounts s)
                         (toClose (accounts s)
                                  (selectedCharactersOf (accounts s))
                                  (CheckResult.runningCharacters cr))
                         (CheckResult.runningCharacters latest) = []) ->
  snd (autoCycleBlock s w cr) = Continue latest.
Proof.
  unfold autoCyclePhase. cbv zeta.
  intros [[[Hoff|Hnone] ->]|(Hon & Hsome & (ok & u & Hclose) & Hre & Hfailed)].
  - now rewrite Hoff.
  - rewrite Hnone. now destruct (autoCycle s).
  - rewrite Hon.
    destruct (toClose (accounts s) (selectedCharactersOf (accounts s))
                      (CheckResult.runningCharacters cr))
      as [|name names] eqn:E; [contradiction|].
    cbn [length Nat.ltb Nat.leb]. unfold closeAndRecheck.
    rewrite Hclose, Hre. run_handler. rewrite Hfailed. reflexivity.
Qed.

(** C3, as amended: in a run that passed the guards, let [latest] be the
    check result that the launch goes by: the first check's when auto-cycle
    is off or has no account to close, and otherwise the re-check's, when
    the close request was answered and the re-check is ok and shows none
    of the closed accounts still running.  A [conflicts_found] status of
    [latest] makes the handler submit exactly the selected characters whose
    account is not listed in its [conflictedAccounts], in one launch
    request, and no request at all when none remains; an [error] or
    [unsupported] status makes it submit nothing. *)
Theorem conflicted_accounts_are_skipped
        (s : AppSettings) (w : Backend) (cr latest : CheckResult.t) :
  totalSelected (accounts s) <> 0 ->
  gameFolder s <> "" -> dllFolder s <> "" ->
  firstCheck w = Responded true cr ->
  ((autoCycle s = false
    \/ toClose (accounts s) (selectedCharactersOf (accounts s))
               (CheckResult.runningCharacters cr) = [])
   /\ latest = cr)
  \/ (autoCycle s = true
      /\ toClose (accounts s) (selectedCharactersOf (accounts s))
                 (CheckResult.runningCharacters cr) <> []
      /\ (exists ok u, closeReply w = Responded ok u)
      /\ recheck w = Responded true latest
      /\ failedToCloseOf toLowerCase (accounts s)
                         (toClose (accounts s)
                                  (selectedCharactersOf (accounts s))
                                  (CheckResult.runningCharacters cr))
                         (CheckResult.runningCharacters latest) = []) ->
  let selection := selectedCharactersOf (accounts s) in
  let remaining :=
    filter (fun char =>
              negb (includes (CheckResult.conflictedAccounts latest)
                             (Selected.accountName char)))
           selection in
  (forall char,
      In char remaining
      <-> In char selection
          /\ ~ In (Selected.accountName char)
                  (CheckResult.conflictedAccounts latest))
  /\ (CheckResult.status latest = conflicts_found ->
      launchedLists (launch s w)
      = match remaining with [] => [] | _ => [remaining] end)
  /\ (CheckResult.status latest = check_error
      \/ CheckResult.status latest = unsupported ->
      launchedLists (launch s w) = []).
Proof.
  intros Hsel Hg Hd Hc Hlatest selection remaining.
  pose proof (autoCycleBlock_result s w cr latest Hlatest) as Hauto.
  pose proof (launch_requests s w cr Hsel Hg Hd Hc) as Hl.
  rewrite Hauto in Hl. fold selection in Hl.
  split; [|split].
  - intros char. unfold remaining. rewrite filter_In, negb_true_iff.
    unfold includes. split; intros [H1 H2]; split; try assumption.
    + intros Hin. assert (E : existsb (String.eqb (Selected.accountName char))
                                      (CheckResult.conflictedAccounts latest)
                              = true).
      { apply existsb_exists. eexists. split; [exact Hin|].
        apply String.eqb_refl. }
      congruence.
    + apply not_true_is_false. intros E. apply existsb_exists in E.
      destruct E as (x & Hx & E). apply String.eqb_eq in E. now subst x.
  - intros Hst. rewrite Hl. unfold statusSwitch. rewrite Hst.
    fold remaining. rewrite bind_snd. cbn [emit snd].
    destruct remaining as [|c t]; reflexivity.
  - intros Hst. rewrite Hl. unfold statusSwitch.
    destruct Hst as [-> | ->]; reflexivity.
Qed.

(** *** The shape of a trace *)

Lemma quiet_filters (tr : list Event) :
  Forall (fun e => isQuiet e = true) tr ->
  filter isWait tr = [] /\ filter isCheck tr = [] /\ filter isClose tr = [].
Proof.
  induction 1 as [|e t He Ht (IH1 & IH2 & IH3)]; [now repeat split|].
  unfold isQuiet in He. simpl. rewrite IH1, IH2, IH3.
  destruct (isWait e), (isCheck e), (isClose e); try discriminate.
  now repeat split.
Qed.

Lemma statusSwitch_quiet (cr : CheckResult.t) (sel : list Selected.t) :
  Forall (fun e => isQuiet e = true) (fst (statusSwitch cr sel)).
Proof.
  unfold statusSwitch.
  destruct (CheckResult.status cr); run_handler; repeat constructor.
  - destruct (length _ =? 0)%nat; repeat constructor.
  - destruct (0 <? _)%nat; repeat constructor.
Qed.

Lemma submitLaunch_quiet (s : AppSettings) (w : Backend)
      (sel : list Selected.t) :
  Forall (fun e => isQuiet e = true) (fst (submitLaunch s w sel)).
Proof.
  unfold submitLaunch. destruct (0 <? length sel)%nat; [|constructor].
  destruct (launchReply w) as [m|ok body]; run_handler;
    [repeat constructor|].
  destruct ok; [|repeat constructor].
  destruct (LaunchResult.status body); repeat constructor.
Qed.

(** What the close block does: a close request alone when that request
    fails, and otherwise the close request, one wait of five seconds and
    one check, followed by at most a message. *)
Lemma closeBlock_shape (r : list Account.t) (w : Backend)
      (names : list string) :
  exists rest,
    Forall (fun e => isQuiet e = true) rest
    /\ match closeReply w with
       | Rejected _ =>
           fst (closeBlock r w names)
           = PostCloseRunningInstances names (accountsDataOf r) :: rest
       | Responded _ _ =>
           fst (closeBlock r w names)
           = [PostCloseRunningInstances names (accountsDataOf r);
              SetTimeout 5000;
              PostCheckAndFocusWindow (accountsDataOf r)
                                      (selectedAccountsOf r)] ++ rest
       end.
Proof.
  unfold closeAndRecheck.
  destruct (closeReply w) as [m|ok u]; run_handler.
  - eexists. split; [|reflexivity]. repeat constructor.
  - destruct (recheck w) as [m|ok' body]; run_handler.
    + eexists. split; [|reflexivity]. repeat constructor.
    + destruct ok'; run_handler.
      * destruct (0 <? _)%nat; run_handler;
          (eexists; split; [|reflexivity]); repeat constructor.
      * eexists. split; [|reflexivity]. repeat constructor.
Qed.

Lemma autoCycleBlock_shape (s : AppSettings) (w : Backend)
      (cr : CheckResult.t) :
  exists mid rest,
    fst (autoCycleBlock s w cr) = mid ++ rest
    /\ CloseStage (accounts s) w mid
    /\ Forall (fun e => isQuiet e = true) rest.
Proof.
  unfold autoCyclePhase.
  destruct (autoCycle s);
    [|exists [], []; repeat split; constructor].
  destruct (0 <? _)%nat;
    [|exists [], []; repeat split; constructor].
  match goal with
  | |- context [closeAndRecheck _ ?r ?w ?n] =>
      destruct (closeBlock_shape r w n) as (rest & Hq & H)
  end.
  destruct (closeReply w) as [m|ok u] eqn:E.
  - eexists [_], rest. rewrite H. repeat split; [|assumption].
    apply CloseFailed. rewrite E. eauto.
  - eexists [_; _; _], rest. rewrite H. repeat split; [|assumption].
    apply CloseDone. rewrite E. eauto.
Qed.

(** Every trace of the launch handler: nothing but messages, or the
    announcement and the first check, then the close stage, then events
    among which there is no wait, no check and no close request. *)
Lemma launch_shape (s : AppSettings) (w : Backend) :
  exists pre mid rest,
    launch s w = pre ++ mid ++ rest
    /\ (pre = [] /\ mid = []
        \/ pre = [ShowMessage "Checking for existing game instances..." info;
                  PostCheckAndFocusWindow
                    (accountsDataOf (accounts s))
                    (selectedAccountsOf (accounts s))])
    /\ CloseStage (accounts s) w mid
    /\ Forall (fun e => isQuiet e = true) rest.
Proof.
  unfold launchBtn_onclick.
  destruct (length _ =? 0)%nat.
  { exists [], [], [ShowMessage "No characters selected for launch." warning].
    repeat split; [left; now split | constructor | repeat constructor]. }
  destruct ((gameFolder s =? "") || (dllFolder s =? "")).
  { eexists [], [], [_]. run_handler.
    repeat split; [left; now split | constructor | repeat constructor]. }
  rewrite bind_fst. cbn [emit fst snd]. rewrite tryCatch_fst.
  unfold checkThenLaunch.
  destruct (firstCheck w) as [m|ok cr]; run_handler.
  { eexists [_; _], [], [_].
    repeat split; [now right | constructor | repeat constructor]. }
  destruct ok; run_handler.
  2:{ eexists [_; _], [], [_].
      repeat split; [now right | constructor | repeat constructor]. }
  destruct (autoCycleBlock_shape s w cr) as (mid & rest & Hshape & Hmid & Hq).
  destruct (autoCyclePhase toLowerCase s w cr) as [tr o] eqn:Eauto.
  simpl in Hshape. subst tr.
  pose proof (fun latest =>
                statusSwitch_quiet latest
                  (selectedCharactersOf (accounts s))) as Q2.
  pose proof (submitLaunch_quiet s w) as Q3.
  destruct o as [latest| |m].
  - specialize (Q2 latest).
    destruct (statusSwitch latest _) as [tr2 [l| |m2]]; cbn [fst] in Q2.
    + specialize (Q3 l).
      destruct (submitLaunch s w l) as [tr3 [u| |m3]]; cbn [fst] in Q3;
        close_shape mid Hmid.
    + close_shape mid Hmid.
    + close_shape mid Hmid.
  - close_shape mid Hmid.
  - close_shape mid Hmid.
Qed.

(** C5, as amended: a launch waits at most once, always five seconds, and
    checks at most twice (the first check and one re-check); once the close
    request has been answered, the trace is the announcement, the first
    check, the close request, one wait of 5000 ms and one re-check,
    followed by events among which there is no further wait, check or
    close request, whatever the re-check answered; and when the close
    request gets no answer, there is no wait and no re-check. *)
Theorem single_settle_wait_and_single_recheck
        (s : AppSettings) (w : Backend) :
  length (filter isWait (launch s w)) <= 1
  /\ length (filter isCheck (launch s w)) <= 2
  /\ length (filter isClose (launch s w)) <= 1
  /\ (forall ms, In (SetTimeout ms) (launch s w) -> ms = 5000%Z)
  /\ (forall names data ok u,
        In (PostCloseRunningInstances names data) (launch s w) ->
        closeReply w = Responded ok u ->
        exists rest,
          launch s w
          = [ShowMessage "Checking for existing game instances..." info;
             PostCheckAndFocusWindow (accountsDataOf (accounts s))
                                     (selectedAccountsOf (accounts s));
             PostCloseRunningInstances names (accountsDataOf (accounts s));
             SetTimeout 5000;
             PostCheckAndFocusWindow (accountsDataOf (accounts s))
                                     (selectedAccountsOf (accounts s))]
            ++ rest
          /\ filter isWait rest = []
          /\ filter isCheck rest = []
          /\ filter isClose rest = [])
  /\ (forall names data m,
        In (PostCloseRunningInstances names data) (launch s w) ->
        closeReply w = Rejected m ->
        filter isWait (launch s w) = []
        /\ length (filter isCheck (launch s w)) = 1).
Proof.
  destruct (launch_shape s w) as (pre & mid & rest & -> & Hpre & Hmid & Hq).
  destruct (quiet_filters rest Hq) as (Qw & Qc & Qx).
  assert (Hin : forall e, In e rest -> isQuiet e = true)
    by (now apply Forall_forall).
  rewrite !filter_app, !length_app, Qw, Qc, Qx.
  split; [|split; [|split; [|split; [|split]]]].
  - destruct Hpre as [[-> ->]| ->]; [simpl; lia|].
    destruct Hmid; simpl; lia.
  - destruct Hpre as [[-> ->]| ->]; [simpl; lia|].
    destruct Hmid; simpl; lia.
  - destruct Hpre as [[-> ->]| ->]; [simpl; lia|].
    destruct Hmid; simpl; lia.
  - intros ms H. apply in_app_or in H. destruct H as [H|H].
    { destruct Hpre as [[-> ->]| ->]; simpl in H; [contradiction|].
      destruct H as [H|[H|[]]]; discriminate. }
    apply in_app_or in H. destruct H as [H|H].
    + destruct Hmid; simpl in H; try contradiction.
      * destruct H as [H|[]]; discriminate.
      * destruct H as [H|[H|[H|[]]]]; try discriminate. congruence.
    + apply Hin in H. discriminate.
  - intros names data ok u H Hc.
    apply in_app_or in H. destruct H as [H|H].
    { destruct Hpre as [[-> ->]| ->]; simpl in H; [contradiction|].
      destruct H as [H|[H|[]]]; discriminate. }
    apply in_app_or in H. destruct H as [H|H];
      [|apply Hin in H; discriminate].
    destruct Hpre as [[-> ->]| ->]; [contradiction|].
    destruct Hmid as [|n [m Hm]|n _]; simpl in H.
    + contradiction.
    + congruence.
    + destruct H as [H|[H|[H|[]]]]; try discriminate.
      injection H as <- _. exists rest. now repeat split.
  - intros names data m H Hc.
    apply in_app_or in H. destruct H as [H|H].
    { destruct Hpre as [[-> ->]| ->]; simpl in H; [contradiction|].
      destruct H as [H|[H|[]]]; discriminate. }
    apply in_app_or in H. destruct H as [H|H];
      [|apply Hin in H; discriminate].
    destruct Hpre as [[-> ->]| ->]; [contradiction|].
    destruct Hmid as [|n _|n (ok & u & Hu)]; simpl in H.
    + contradiction.
    + now split.
    + congruence.
Qed.

End LaunchFacts.

(** ** Sets and maps in insertion order *)

Lemma setHas_In (x : string) (s : list string) : setHas x s = true <-> In x s.
Proof.
  unfold setHas. rewrite existsb_exists. split.
  - intros (y & Hy & E). apply String.eqb_eq in E. now subst y.
  - intros H. exists x. split; [assumption | apply String.eqb_refl].
Qed.

Lemma setAdd_In (x a : string) (s : list string) :
  In a (setAdd x s) <-> a = x \/ In a s.
Proof.
  unfold setAdd. destruct (setHas x s) eqn:E.
  - apply setHas_In in E. split; [now right|]. intros [->|H]; assumption.
  - rewrite in_app_iff. simpl. split.
    + intros [H|[H|[]]]; [now right | now left].
    + intros [->|H]; [right; now left | now left].
Qed.

Lemma setDelete_In (x a : string) (s : list string) :
  In a (setDelete x s) <-> a <> x /\ In a s.
Proof.
  unfold setDelete. rewrite filter_In, negb_true_iff, String.eqb_neq.
  split; intros [H1 H2]; split; auto.
Qed.

Lemma mapGet_mapSet_same {V : Type} (k : string) (v : V)
      (m : list (string * V)) :
  mapGet k (mapSet k v m) = Some v.
Proof.
  induction m as [|[k' v'] t IH]; simpl.
  - now rewrite String.eqb_refl.
  - destruct (String.eqb_spec k k') as [->|Hne]; simpl.
    + now rewrite String.eqb_refl.
    + destruct (String.eqb_spec k k'); [contradiction | assumption].
Qed.

Lemma mapGet_mapSet_other {V : Type} (k k0 : string) (v : V)
      (m : list (string * V)) :
  k <> k0 -> mapGet k (mapSet k0 v m) = mapGet k m.
Proof.
  intros Hne. induction m as [|[k' v'] t IH]; simpl.
  - destruct (String.eqb_spec k k0); [contradiction | reflexivity].
  - destruct (String.eqb_spec k0 k') as [->|Hne']; simpl.
    + destruct (String.eqb_spec k k'); [contradiction | reflexivity].
    + destruct (String.eqb_spec k k'); [reflexivity | assumption].
Qed.

Lemma mapSet_keys {V : Type} (k : string) (v : V) (m : list (string * V))
      (kv : string * V) :
  In kv (mapSet k v m) -> kv = (k, v) \/ In kv m.
Proof.
  induction m as [|[k' v'] t IH]; simpl.
  - intros [<-|[]]. now left.
  - destruct (String.eqb k k'); simpl.
    + intros [<-|H]; [now left | right; now right].
    + intros [<-|H]; [right; now left|].
      destruct (IH H) as [->|H']; [now left | right; now right].
Qed.

Section Folds.

Context {X : Type}.

(** A loop that adds to a set the name computed from some elements. *)
Lemma fold_setAdd_In (g : X -> option string) (l : list X) :
  forall init a,
    In a (fold_left (fun acc x => match g x with
                                  | Some n => setAdd n acc
                                  | None => acc
                                  end) l init)
    <-> In a init \/ exists x, In x l /\ g x = Some a.
Proof.
  induction l as [|x t IH]; intros init a; simpl.
  - split; [now left|]. intros [H|(x & [] & _)]. assumption.
  - rewrite IH. split.
    + intros [H|(y & Hy & E)].
      * destruct (g x) as [n|] eqn:Ex; [|now left].
        apply setAdd_In in H. destruct H as [->|H]; [|now left].
        right. exists x. split; [now left | assumption].
      * right. exists y. split; [now right | assumption].
    + intros [H|(y & [<-|Hy] & E)].
      * left. destruct (g x); [apply setAdd_In; now right | assumption].
      * left. rewrite E. apply setAdd_In. now left.
      * right. now exists y.
Qed.

Variable g : X -> option (string * string).

Let put (m : list (string * string)) (x : X) : list (string * string) :=
  match g x with
  | Some (k, v) => mapSet k v m
  | None => m
  end.

(** A loop that sets in a map the binding computed from some elements:
    a value found in the end was set by an element or was there. *)
Lemma fold_mapSet_origin (l : list X) :
  forall m k v,
    mapGet k (fold_left put l m) = Some v ->
    (exists x, In x l /\ g x = Some (k, v)) \/ mapGet k m = Some v.
Proof.
  induction l as [|x t IH]; intros m k v H; simpl in H; [now right|].
  destruct (IH _ _ _ H) as [(y & Hy & E)|H'].
  - left. exists y. split; [now right | assumption].
  - unfold put in H'. destruct (g x) as [[k' v']|] eqn:Ex; [|now right].
    destruct (String.eqb_spec k k') as [->|Hne].
    + rewrite mapGet_mapSet_same in H'. injection H' as ->.
      left. exists x. split; [now left | assumption].
    + rewrite mapGet_mapSet_other in H' by assumption. now right.
Qed.

Lemma fold_mapSet_present (l : list X) :
  forall m k,
    (exists x v, In x l /\ g x = Some (k, v))
    \/ (exists v, mapGet k m = Some v) ->
    exists v, mapGet k (fold_left put l m) = Some v.
Proof.
  induction l as [|x t IH]; intros m k H; simpl.
  - destruct H as [(x & v & [] & _)|H]. assumption.
  - apply IH. destruct H as [(y & v & [<-|Hy] & E)|(v & H)].
    + right. unfold put. rewrite E. exists v. apply mapGet_mapSet_same.
    + left. now exists y, v.
    + right. unfold put. destruct (g x) as [[k' v']|]; [|now exists v].
      destruct (String.eqb_spec k k') as [->|Hne].
      * exists v'. apply mapGet_mapSet_same.
      * exists v. now rewrite mapGet_mapSet_other.
Qed.

End Folds.

Lemma fold_left_ext {A B : Type} (f g : A -> B -> A) (l : list B) :
  (forall a b, f a b = g a b) ->
  forall a, fold_left f l a = fold_left g l a.
Proof.
  intros H. induction l as [|x t IH]; intros a; simpl; [reflexivity|].
  now rewrite H, IH.
Qed.

(** ** Searching an array *)

Lemma find_first {A : Type} (p : A -> bool) (l : list A) (x : A) :
  find p l = Some x
  <-> exists before after,
      l = before ++ x :: after /\ p x = true
      /\ Forall (fun y => p y = false) before.
Proof.
  induction l as [|y t IH]; simpl.
  - split; [discriminate|]. intros (b & a & H & _). now destruct b.
  - destruct (p y) eqn:E.
    + split.
      * intros [= <-]. exists [], t. repeat split; [assumption | constructor].
      * intros (b & a & H & Hx & Hb). destruct b as [|z b'].
        -- simpl in H. congruence.
        -- simpl in H. injection H as <- _. inversion Hb. congruence.
    + rewrite IH. split.
      * intros (b & a & -> & Hx & Hb). exists (y :: b), a.
        repeat split; [assumption | now constructor].
      * intros (b & a & H & Hx & Hb). destruct b as [|z b'].
        -- simpl in H. injection H as <- _. congruence.
        -- simpl in H. injection H as <- ->. inversion Hb. now exists b', a.
Qed.

Lemma find_the_only {A : Type} (p : A -> bool) (l : list A) (x : A) :
  In x l -> p x = true ->
  (forall y, In y l -> p y = true -> y = x) ->
  find p l = Some x.
Proof.
  intros Hin Hp Huniq.
  destruct (find p l) as [y|] eqn:E.
  - apply find_some in E. destruct E as [Hy Hpy]. f_equal. now apply Huniq.
  - pose proof (find_none _ _ E _ Hin). congruence.
Qed.

Lemma NoDup_map_injective {A B : Type} (f : A -> B) (l : list A) (x y : A) :
  NoDup (map f l) -> In x l -> In y l -> f x = f y -> x = y.
Proof.
  induction l as [|z t IH]; intros Hnd Hx Hy E; [contradiction|].
  simpl in Hnd. inversion Hnd as [|? ? Hnin Hnd']; subst.
  destruct Hx as [<-|Hx], Hy as [<-|Hy]; try reflexivity.
  - exfalso. apply Hnin. rewrite E. now apply in_map.
  - exfalso. apply Hnin. rewrite <- E. now apply in_map.
  - now apply IH.
Qed.

Lemma at_most_one_unique {A : Type} (p : A -> bool) (l : list A) (x y : A) :
  length (filter p l) <= 1 ->
  In x l -> In y l -> p x = true -> p y = true -> x = y.
Proof.
  intros Hlen Hx Hy Px Py.
  assert (Hfx : In x (filter p l)) by (apply filter_In; now split).
  assert (Hfy : In y (filter p l)) by (apply filter_In; now split).
  destruct (filter p l) as [|a [|b t]]; simpl in *;
    try lia; try contradiction.
  destruct Hfx as [<-|[]], Hfy as [<-|[]]. reflexivity.
Qed.

(** ** The accounts to close *)

Section CloseFacts.

Variable toLowerCase : string -> string.

Local Abbreviation launch := (launchBtn_onclick toLowerCase).
Local Abbreviation toClose := (accountsToCloseOf toLowerCase).
Local Abbreviation hasNamed := (hasCharacterNamed toLowerCase).
Local Abbreviation matched := (matchedTo toLowerCase).
Local Abbreviation runningMap := (runningCharToAccountOf toLowerCase).

Lemma hasNamed_iff (rn : string) (acc : Account.t) :
  hasNamed rn acc = true <-> hasRunning toLowerCase acc rn.
Proof.
  unfold hasCharacterNamed, hasRunning. rewrite existsb_exists.
  split; intros (c & Hc & E); exists c; split; try assumption;
    now apply String.eqb_eq.
Qed.

Lemma matched_find (r : list Account.t) (rn : string) (acc : Account.t) :
  matched r rn acc <-> find (hasNamed rn) r = Some acc.
Proof.
  rewrite find_first. unfold matchedTo.
  split; intros (b & a & -> & Hx & Hb); exists b, a;
    (split; [reflexivity|]); (split; [now apply hasNamed_iff|]);
    (eapply Forall_impl; [|exact Hb]); intros y Hy; cbv beta in *.
  - apply not_true_is_false. intros E. now apply Hy, hasNamed_iff.
  - intros E. apply hasNamed_iff in E. congruence.
Qed.

Lemma find_hasNamed_key (r : list Account.t) (rn rn' : string) :
  toLowerCase rn = toLowerCase rn' ->
  find (hasNamed rn) r = find (hasNamed rn') r.
Proof.
  intros E. unfold hasCharacterNamed. now rewrite E.
Qed.

(** What [runningCharToAccount] holds for a running name. *)
Lemma runningMap_get (r : list Account.t) (running : list string)
      (rn : string) :
  In rn running ->
  mapGet (toLowerCase rn) (runningMap r running)
  = option_map Account.name (find (hasNamed rn) r).
Proof.
  intros Hin. unfold runningCharToAccountOf.
  set (g := fun x => match find (hasNamed x) r with
                     | Some account =>
                         Some (toLowerCase x, Account.name account)
                     | None => None
                     end).
  rewrite (fold_left_ext _ (fun m x => match g x with
                                       | Some (k, v) => mapSet k v m
                                       | None => m
                                       end))
    by (intros m x; unfold g; now destruct (find (hasNamed x) r)).
  destruct (mapGet (toLowerCase rn) _) as [v|] eqn:E.
  - apply fold_mapSet_origin in E. destruct E as [(x & Hx & E)|E];
      [|discriminate].
    unfold g in E. destruct (find (hasNamed x) r) as [acc|] eqn:F;
      [|discriminate].
    injection E as Ek <-.
    now rewrite <- (find_hasNamed_key r x rn Ek), F.
  - destruct (find (hasNamed rn) r) as [acc|] eqn:F; [|reflexivity].
    exfalso.
    destruct (fold_mapSet_present g running [] (toLowerCase rn)) as [v Hv].
    { left. exists rn, (Account.name acc). split; [assumption|].
      unfold g. now rewrite F. }
    cbv beta in Hv. congruence.
Qed.

Lemma selectedCharactersOf_In (r : list Account.t) (e : Selected.t) :
  In e (selectedCharactersOf r)
  <-> exists acc c,
      In acc r /\ In c (Account.characters acc)
      /\ Character.selected c = true
      /\ e = Selected.mk (Account.name acc) (Account.password acc)
                         (Character.id c).
Proof.
  unfold selectedCharactersOf. rewrite in_flat_map. split.
  - intros (acc & Hacc & H). apply in_map_iff in H.
    destruct H as (c & <- & Hc). apply filter_In in Hc.
    destruct Hc as [Hc Hs]. now exists acc, c.
  - intros (acc & c & Hacc & Hc & Hs & ->). exists acc.
    split; [assumption|]. apply in_map_iff. exists c.
    split; [reflexivity|]. apply filter_In. now split.
Qed.

Lemma strictEq_eq (a b : Id) : strictEq a b = true -> a = b.
Proof.
  destruct a as [x| |n], b as [y| |m]; simpl; try discriminate.
  - intros H. apply Z.eqb_eq in H. now subst.
  - intros H. apply Bool.eqb_prop in H. now subst.
Qed.

Lemma strictEq_refl (a : Id) : a <> IdNaN -> strictEq a a = true.
Proof.
  destruct a as [x| |n]; simpl; intros H.
  - apply Z.eqb_refl.
  - contradiction.
  - apply Bool.eqb_reflx.
Qed.

Section WellFormed.

Variable r : list Account.t.
Hypothesis wf : wellFormedRoster r.

Let selectedMap := selectedCharNamesByAccountOf r (selectedCharactersOf r).

Lemma wf_account (acc : Account.t) :
  In acc r ->
  Account.name acc <> ""
  /\ NoDup (map Character.id (Account.characters acc))
  /\ atMostOneSelected acc
  /\ Forall (fun c => Character.name c <> "") (Account.characters acc)
  /\ Forall (fun c => Character.id c <> IdNaN) (Account.characters acc).
Proof.
  intros Hacc. destruct wf as [_ H]. rewrite Forall_forall in H.
  destruct (H acc Hacc) as (H1 & H2 & H3 & H4 & H5).
  exact (conj H1 (conj H2 (conj H4 (conj H5 H3)))).
Qed.

Lemma find_account_by_name (acc : Account.t) :
  In acc r ->
  find (fun a => Account.name a =? Account.name acc) r = Some acc.
Proof.
  intros Hacc. apply find_the_only; [assumption|apply String.eqb_refl|].
  intros y Hy E. apply String.eqb_eq in E.
  destruct wf as [Hnd _].
  eapply NoDup_map_injective; eassumption.
Qed.

Lemma find_character_by_id (acc : Account.t) (c : Character.t) :
  In acc r -> In c (Account.characters acc) ->
  find (fun c' => strictEq (Character.id c') (Character.id c))
       (Account.characters acc) = Some c.
Proof.
  intros Hacc Hc.
  destruct (wf_account acc Hacc) as (_ & Hnd & _ & _ & Hnum).
  rewrite Forall_forall in Hnum.
  apply find_the_only; [assumption | apply strictEq_refl; now apply Hnum |].
  intros y Hy E. apply strictEq_eq in E.
  eapply NoDup_map_injective; eassumption.
Qed.

(** The binding that one element of the launch list puts into
    [selectedCharNamesByAccount]. *)
Let resolve (e : Selected.t) : option (string * string) :=
  match find (fun acc => Account.name acc =? Selected.accountName e) r with
  | Some account =>
      match find (fun c => strictEq (Character.id c) (Selected.characterId e))
                 (Account.characters account) with
      | Some character =>
          Some (Selected.accountName e, Character.name character)
      | None => None
      end
  | None => None
  end.

Lemma selectedMap_fold :
  selectedMap
  = fold_left (fun m e => match resolve e with
                          | Some (k, v) => mapSet k v m
                          | None => m
                          end)
              (selectedCharactersOf r) [].
Proof.
  unfold selectedMap, selectedCharNamesByAccountOf.
  apply fold_left_ext. intros m e. unfold resolve.
  destruct (find _ r) as [account|]; [|reflexivity].
  now destruct (find _ (Account.characters account)).
Qed.

Lemma resolve_selected (acc : Account.t) (c : Character.t) :
  In acc r -> In c (Account.characters acc) ->
  resolve (Selected.mk (Account.name acc) (Account.password acc)
                       (Character.id c))
  = Some (Account.name acc, Character.name c).
Proof.
  intros Hacc Hc. unfold resolve. simpl.
  rewrite (find_account_by_name acc Hacc).
  now rewrite (find_character_by_id acc c Hacc Hc).
Qed.

(** A binding of [selectedCharNamesByAccount] comes from a selected
    character of the account of that name. *)
Lemma selectedMap_origin (acc : Account.t) (v : string) :
  In acc r ->
  mapGet (Account.name acc) selectedMap = Some v ->
  exists c, In c (Account.characters acc)
            /\ Character.selected c = true /\ Character.name c = v.
Proof.
  intros Hacc H. rewrite selectedMap_fold in H.
  apply fold_mapSet_origin in H. destruct H as [(e & He & E)|H];
    [|discriminate].
  apply selectedCharactersOf_In in He.
  destruct He as (acc' & c & Hacc' & Hc & Hs & ->).
  rewrite (resolve_selected acc' c Hacc' Hc) in E.
  injection E as En <-.
  assert (acc' = acc) as ->.
  { destruct wf as [Hnd _].
    eapply NoDup_map_injective; eassumption. }
  now exists c.
Qed.

Lemma selectedMap_selected (acc : Account.t) (c : Character.t) :
  In acc r -> In c (Account.characters acc) ->
  Character.selected c = true ->
  mapGet (Account.name acc) selectedMap = Some (Character.name c).
Proof.
  intros Hacc Hc Hs.
  assert (exists v, mapGet (Account.name acc) selectedMap = Some v)
    as [v Hv].
  { rewrite selectedMap_fold. apply fold_mapSet_present. left.
    eexists _, (Character.name c). split.
    - apply selectedCharactersOf_In. now exists acc, c.
    - now apply resolve_selected. }
  rewrite Hv. f_equal.
  destruct (selectedMap_origin acc v Hacc Hv) as (c' & Hc' & Hs' & <-).
  f_equal. destruct (wf_account acc Hacc) as (_ & _ & Hone & _).
  eapply at_most_one_unique; eassumption.
Qed.

Lemma selectedMap_none (acc : Account.t) :
  In acc r -> noneSelectedIn acc ->
  mapGet (Account.name acc) selectedMap = None.
Proof.
  intros Hacc Hnone.
  destruct (mapGet (Account.name acc) selectedMap) as [v|] eqn:E;
    [|reflexivity].
  destruct (selectedMap_origin acc v Hacc E) as (c & Hc & Hs & _).
  rewrite (Hnone c Hc) in Hs. discriminate.
Qed.

(** The verdict of the loop of lines 518-539 on one running name. *)
Let verdict (running : list string) (rn : string) : option string :=
  match mapGet (toLowerCase rn) (runningMap r running) with
  | None => None
  | Some accountName =>
      if accountName =? "" then None
      else
        match mapGet accountName selectedMap with
        | None => Some accountName
        | Some selectedCharName =>
            if selectedCharName =? "" then Some accountName
            else if negb (toLowerCase selectedCharName =? toLowerCase rn)
                 then Some accountName
                 else None
        end
  end.

Lemma toClose_fold (running : list string) :
  toClose r (selectedCharactersOf r) running
  = fold_left (fun acc rn => match verdict running rn with
                             | Some n => setAdd n acc
                             | None => acc
                             end) running [].
Proof.
  unfold accountsToCloseOf. apply fold_left_ext. intros set rn.
  unfold verdict. fold selectedMap.
  destruct (mapGet (toLowerCase rn) _) as [an|]; [|reflexivity].
  destruct (an =? ""); [reflexivity|].
  destruct (mapGet an selectedMap) as [scn|]; [|reflexivity].
  destruct (scn =? ""); [reflexivity|].
  now destruct (negb _).
Qed.

Lemma verdict_spec (running : list string) (rn a : string) :
  In rn running ->
  verdict running rn = Some a
  <-> exists account,
      matched r rn account /\ Account.name account = a
      /\ (noneSelectedIn account \/ selectedDiffers toLowerCase account rn).
Proof.
  intros Hrn. unfold verdict. rewrite (runningMap_get r running rn Hrn).
  split.
  - destruct (find (hasNamed rn) r) as [acc|] eqn:F; [|discriminate].
    assert (Hacc : In acc r) by (apply find_some in F; tauto).
    simpl. destruct (Account.name acc =? ""); [discriminate|].
    intros H. exists acc. split; [now apply matched_find|].
    destruct (mapGet (Account.name acc) selectedMap) as [scn|] eqn:G.
    + destruct (selectedMap_origin acc scn Hacc G) as (c & Hc & Hs & <-).
      destruct (wf_account acc Hacc) as (_ & _ & _ & Hnames & _).
      rewrite Forall_forall in Hnames.
      destruct (String.eqb_spec (Character.name c) "") as [E|_];
        [now apply Hnames in E|].
      destruct (String.eqb_spec (toLowerCase (Character.name c))
                                (toLowerCase rn)) as [E|E];
        simpl in H; [discriminate|].
      injection H as <-. split; [reflexivity|]. right. now exists c.
    + injection H as <-. split; [reflexivity|]. left.
      intros c Hc. destruct (Character.selected c) eqn:Hs; [|reflexivity].
      rewrite (selectedMap_selected acc c Hacc Hc Hs) in G. discriminate.
  - intros (acc & Hm & <- & Hcase). apply matched_find in Hm.
    rewrite Hm. simpl.
    assert (Hacc : In acc r) by (apply find_some in Hm; tauto).
    destruct (wf_account acc Hacc) as (Hname & _ & _ & Hnames & _).
    destruct (String.eqb_spec (Account.name acc) ""); [contradiction|].
    destruct Hcase as [Hnone|(c & Hc & Hs & Hdiff)].
    + now rewrite (selectedMap_none acc Hacc Hnone).
    + rewrite (selectedMap_selected acc c Hacc Hc Hs).
      rewrite Forall_forall in Hnames.
      destruct (String.eqb_spec (Character.name c) "") as [E|_];
        [now apply Hnames in E|].
      destruct (String.eqb_spec (toLowerCase (Character.name c))
                                (toLowerCase rn)); [contradiction|].
      reflexivity.
Qed.

Lemma toClose_spec (running : list string) (a : string) :
  In a (toClose r (selectedCharactersOf r) running)
  <-> mustClose toLowerCase r running a.
Proof.
  rewrite toClose_fold, fold_setAdd_In. unfold mustClose. split.
  - intros [[]|(rn & Hrn & H)]. apply verdict_spec in H; [|assumption].
    destruct H as (acc & Hm & Hn & Hc). now exists rn, acc.
  - intros (rn & acc & Hrn & Hm & Hn & Hc). right. exists rn.
    split; [assumption|]. apply verdict_spec; [assumption|].
    now exists acc.
Qed.

End WellFormed.

(** A window of an account to close that is still there after the
    re-check ends the launch. *)
Lemma failed_close_aborts (s : AppSettings) (w : Backend)
      (cr new : CheckResult.t) (ok : bool) (u : unit)
      (rn : string) (account : Account.t) :
  totalSelected (accounts s) <> 0 ->
  gameFolder s <> "" -> dllFolder s <> "" ->
  autoCycle s = true ->
  firstCheck w = Responded true cr ->
  closeReply w = Responded ok u ->
  recheck w = Responded true new ->
  In rn (CheckResult.runningCharacters new) ->
  matched (accounts s) rn account ->
  In (Account.name account)
     (toClose (accounts s) (selectedCharactersOf (accounts s))
              (CheckResult.runningCharacters cr)) ->
  launch s w
  = [ShowMessage "Checking for existing game instances..." info;
     PostCheckAndFocusWindow (accountsDataOf (accounts s))
                             (selectedAccountsOf (accounts s));
     PostCloseRunningInstances
       (toClose (accounts s) (selectedCharactersOf (accounts s))
                (CheckResult.runningCharacters cr))
       (accountsDataOf (accounts s));
     SetTimeout 5000;
     PostCheckAndFocusWindow (accountsDataOf (accounts s))
                             (selectedAccountsOf (accounts s));
     ShowMessage
       "Failed to close some game windows. Please close them manually."
       error]
  /\ launchedLists (launch s w) = [].
Proof.
  intros Hsel Hg Hd Hauto Hc Hclose Hre Hrn Hm Hin.
  match goal with
  | |- ?lhs = ?rhs /\ _ =>
      assert (E : lhs = rhs); [|split; [exact E | now rewrite E]]
  end.
  unfold launchBtn_onclick. rewrite selectedCharactersOf_length.
  destruct (Nat.eqb_spec (totalSelected (accounts s)) 0); [contradiction|].
  apply String.eqb_neq in Hg, Hd. rewrite Hg, Hd. cbn [orb].
  unfold checkThenLaunch, autoCyclePhase, closeAndRecheck.
  rewrite Hc, Hauto, Hclose, Hre. step_handler.
  set (names := toClose _ _ _) in *.
  assert (Hlen : (0 <? length names)%nat = true).
  { destruct names; [contradiction | reflexivity]. }
  rewrite Hlen. step_handler.
  assert (Hfail : (0 <? length (failedToCloseOf
                                  toLowerCase (accounts s) names
                                  (CheckResult.runningCharacters new)))%nat
                  = true).
  { assert (In rn (failedToCloseOf toLowerCase (accounts s) names
                                   (CheckResult.runningCharacters new))) as H.
    { unfold failedToCloseOf. apply filter_In. split; [assumption|].
      apply matched_find in Hm. rewrite Hm. now apply setHas_In. }
    destruct (failedToCloseOf _ _ _ _); [contradiction | reflexivity]. }
  rewrite Hfail. reflexivity.
Qed.

(** X29: on a well-formed roster (distinct non-empty account names; in
    each account distinct ids, none of them [NaN], non-empty character
    names and at most one selected character), an account name is in
    [accountsToClose] exactly when some running name is matched, ignoring
    case, to a character of that account (the first account of the roster
    that has one; running names matched to no account count for nothing)
    and the account has no selected character or a selected character of
    another name, ignoring case.  And when, after the close request and
    the re-check, a running name is still matched to such an account, the
    handler stops on the could-not-close message without any launch
    request. *)
Theorem accounts_to_close_and_failed_close (s : AppSettings) :
  wellFormedRoster (accounts s) ->
  (forall running a,
      In a (toClose (accounts s) (selectedCharactersOf (accounts s)) running)
      <-> mustClose toLowerCase (accounts s) running a)
  /\ (forall w cr new ok u rn account,
        totalSelected (accounts s) <> 0 ->
        gameFolder s <> "" -> dllFolder s <> "" ->
        autoCycle s = true ->
        firstCheck w = Responded true cr ->
        closeReply w = Responded ok u ->
        recheck w = Responded true new ->
        In rn (CheckResult.runningCharacters new) ->
        matched (accounts s) rn account ->
        mustClose toLowerCase (accounts s)
                  (CheckResult.runningCharacters cr)
                  (Account.name account) ->
        last (launch s w) PostFocusLauncherWindow
        = ShowMessage
            "Failed to close some game windows. Please close them manually."
            error
        /\ launchedLists (launch s w) = []).
Proof.
  intros wf. split; [intros; now apply toClose_spec|].
  intros w cr new ok u rn account Hsel Hg Hd Hauto Hc Hclose Hre Hrn Hm Hmust.
  apply (toClose_spec _ wf) in Hmust.
  destruct (failed_close_aborts s w cr new ok u rn account
                                Hsel Hg Hd Hauto Hc Hclose Hre Hrn Hm Hmust)
    as [E L].
  split; [|exact L]. rewrite E. reflexivity.
Qed.

End CloseFacts.

(** ** Save and load *)

Lemma traverse_map {A B : Type} (f : B -> option A) (g : A -> B) (l : list A) :
  (forall x, f (g x) = Some x) -> traverse f (map g l) = Some l.
Proof.
  intros H. induction l as [|x t IH]; simpl; [reflexivity|].
  now rewrite H, IH.
Qed.

Lemma traverse_map_Forall {A B : Type} (f : B -> option A) (g : A -> B)
      (l : list A) :
  traverse f (map g l) = Some l <-> Forall (fun x => f (g x) = Some x) l.
Proof.
  induction l as [|x t IH]; simpl.
  - split; [constructor | reflexivity].
  - destruct (f (g x)) as [y|] eqn:Ex.
    + destruct (traverse f (map g t)) as [ys|] eqn:Et.
      * split.
        -- intros [= -> ->]. constructor; [assumption | now apply IH].
        -- intros H. inversion H as [|? ? Hx Ht]; subst.
           rewrite Ex in Hx. injection Hx as ->.
           apply IH in Ht. now injection Ht as ->.
      * split; [discriminate|]. intros H. inversion H as [|? ? Hx Ht]; subst.
        apply IH in Ht. discriminate.
    + split; [discriminate|]. intros H. inversion H as [|? ? Hx Ht]; subst.
      rewrite Ex in Hx. discriminate.
Qed.

Lemma Forall_equiv {A : Type} (P Q : A -> Prop) (l : list A) :
  (forall x, P x <-> Q x) -> Forall P l <-> Forall Q l.
Proof.
  intros H. split; apply Forall_impl; intros x; apply H.
Qed.

(** The document of a roster holds no [null] account and no [null]
    character, so the migration loop passes. *)
Lemma saved_roster_passes_migration (r : list Account.t) :
  migrationThrows (map accountToJson r) = false.
Proof.
  unfold migrationThrows. induction r as [|a t IH]; [reflexivity|].
  cbn [map existsb]. rewrite IH, orb_false_r.
  unfold accountToJson. cbn [getMember String.eqb Ascii.eqb Bool.eqb].
  induction (Account.characters a) as [|c cs IHc]; [reflexivity|].
  cbn [map existsb]. now rewrite IHc.
Qed.

Section SaveLoadFacts.

Variable localeCompare : string -> string -> Z.
Variable parseInt10 : string -> Id.

Local Abbreviation render := (renderUI localeCompare).
Local Abbreviation load := (loadConfig_onload localeCompare parseInt10).

(** A character is read back from its document exactly when its id is an
    integer: any other id was written as [null]. *)
Lemma characterOfJson_characterToJson (c : Character.t) :
  characterOfJson parseInt10 (characterToJson c) = Some c
  <-> finiteId (Character.id c).
Proof.
  destruct c as [n i sel com]. unfold characterToJson, characterOfJson.
  cbn [getMember String.eqb Ascii.eqb Bool.eqb Character.name Character.id
       Character.selected Character.comment].
  destruct i as [z| |neg]; cbn [idToJson]; split; try discriminate.
  - intros _. now exists z.
  - reflexivity.
  - intros [z H]. discriminate.
  - intros [z H]. discriminate.
Qed.

Lemma accountOfJson_accountToJson (a : Account.t) :
  accountOfJson parseInt10 (accountToJson a) = Some a
  <-> Forall (fun c => finiteId (Character.id c)) (Account.characters a).
Proof.
  destruct a as [n p cs]. unfold accountToJson, accountOfJson.
  cbn [getMember String.eqb Ascii.eqb Bool.eqb Account.name
       Account.password Account.characters].
  rewrite <- (Forall_equiv _ _ cs characterOfJson_characterToJson).
  rewrite <- traverse_map_Forall.
  destruct (traverse (characterOfJson parseInt10) (map characterToJson cs))
    as [cs'|]; split; try discriminate.
  - now intros [= ->].
  - now intros [= ->].
Qed.

Lemma roster_read_back (r : list Account.t) :
  traverse (accountOfJson parseInt10) (map accountToJson r) = Some r
  <-> finiteIds r.
Proof.
  rewrite traverse_map_Forall. unfold finiteIds.
  apply Forall_equiv. intros a. apply accountOfJson_accountToJson.
Qed.

Lemma render_equivalent (r : list Account.t) : equivalentRoster (render r) r.
Proof.
  exists (map (sortCharacters localeCompare) r). split.
  - apply renderUI_perm.
  - induction r as [|a t IH]; simpl; constructor; [|assumption].
    repeat split. simpl. apply sortBy_perm.
Qed.

(** X28: for a roster whose ids are all integers, loading the document
    that the save button wrote gives back the two folders, the auto-cycle
    flag and the roster as [renderUI] sorts it; that roster has the same
    accounts, with the same passwords, and in each account the same
    characters (name, id, selected flag and comment alike), up to the order
    of accounts and of characters. *)
Theorem save_then_load_round_trip (s current : AppSettings) :
  finiteIds (accounts s) ->
  load (fst (saveConfigBtn_onclick s)) current
  = Some (mkSettings (gameFolder s) (dllFolder s) (render (accounts s))
                     (autoCycle s),
          [ShowMessage "Configuration loaded successfully from file!"
                       success])
  /\ equivalentRoster (render (accounts s)) (accounts s).
Proof.
  intros Hids. split; [|apply render_equivalent].
  unfold saveConfigBtn_onclick, settingsToJson, loadConfig_onload.
  cbn [fst getMember String.eqb Ascii.eqb Bool.eqb].
  now rewrite (proj2 (roster_read_back (accounts s)) Hids).
Qed.

End SaveLoadFacts.

(** ** The targets of a preference copy *)

Lemma mapGet_In {V : Type} (k : string) (v : V) (m : list (string * V)) :
  mapGet k m = Some v -> In (k, v) m.
Proof.
  induction m as [|[k' v'] t IH]; simpl; [discriminate|].
  destruct (String.eqb_spec k k') as [->|_].
  - intros [= ->]. now left.
  - intros H. right. now apply IH.
Qed.

Lemma fold_left_invariant {A B : Type} (P : A -> Prop) (f : A -> B -> A)
      (l : list B) :
  (forall a b, In b l -> P a -> P (f a b)) ->
  forall a, P a -> P (fold_left f l a).
Proof.
  induction l as [|x t IH]; intros Hf a Ha; simpl; [assumption|].
  apply IH.
  - intros a' b Hb. apply Hf. now right.
  - apply Hf; [now left | assumption].
Qed.

Lemma getCharacterKey_not_empty (accountName : string) (characterId : Id) :
  Prefs.getCharacterKey accountName characterId <> "".
Proof.
  unfold Prefs.getCharacterKey. destruct accountName; discriminate.
Qed.

Module PrefsFacts.

Import Prefs.

Lemma rebuild_keyed (st : State) :
  lookupKeyed (characterLookup (rebuildCharacterLookup st)).
Proof.
  unfold rebuildCharacterLookup. cbn [characterLookup].
  apply (fold_left_invariant lookupKeyed); [|intros kv []].
  intros m acc _ Hm.
  apply (fold_left_invariant lookupKeyed); [|assumption].
  intros m' char _ Hm' kv Hkv.
  apply mapSet_keys in Hkv. destruct Hkv as [->|Hkv]; [reflexivity|].
  now apply Hm'.
Qed.

Lemma initialise_excluded (storedAccounts : list Account.t)
      (storedSourceKey : string) :
  sourceExcluded (initialise storedAccounts storedSourceKey).
Proof.
  unfold sourceExcluded. split; [|split].
  - unfold initialise, rebuildCharacterLookup. simpl. tauto.
  - unfold initialise, rebuildCharacterLookup. simpl. tauto.
  - apply rebuild_keyed.
Qed.

Lemma step_excluded (e : UiEvent) (st : State) :
  sourceExcluded st -> sourceExcluded (step e st).
Proof.
  intros (Hsrc & Hempty & Hkeyed).
  destruct e as [value|a c checked|a shouldSelect| |]; simpl.
  - (* the source changes *)
    unfold sourceCharacterSelect_onchange, sourceExcluded. simpl.
    destruct (String.eqb_spec value "") as [->|Hne]; simpl.
    + now repeat split.
    + repeat split; [| |assumption]; rewrite setDelete_In; intuition.
  - (* a target checkbox *)
    unfold targetCheckbox_onchange.
    destruct (negb (rendered st a c)); [now repeat split|].
    destruct (String.eqb_spec (getCharacterKey a c) (sourceCharacterKey st))
      as [E|Hne]; [now repeat split|].
    unfold sourceExcluded. simpl. destruct checked.
    + repeat split; [| |assumption]; rewrite setAdd_In.
      * intros [E|H]; [now symmetry in E | contradiction].
      * intros [E|H]; [|contradiction].
        symmetry in E. now apply getCharacterKey_not_empty in E.
    + repeat split; [| |assumption]; rewrite setDelete_In; intuition.
  - (* All / None of an account *)
    unfold setAccountSelection.
    destruct (find _ (accounts st)) as [account|]; [|now repeat split].
    unfold sourceExcluded. simpl.
    assert (H : ~ In (sourceCharacterKey st)
                  (fold_left
                     (fun targets char =>
                        let key := getCharacterKey a (Character.id char) in
                        if key =? sourceCharacterKey st then targets
                        else if shouldSelect then setAdd key targets
                        else setDelete key targets)
                     (Account.characters account) (selectedTargets st))
                /\ ~ In ""
                     (fold_left
                        (fun targets char =>
                           let key := getCharacterKey a (Character.id char) in
                           if key =? sourceCharacterKey st then targets
                           else if shouldSelect then setAdd key targets
                           else setDelete key targets)
                        (Account.characters account) (selectedTargets st))).
    { apply (fold_left_invariant
               (fun t => ~ In (sourceCharacterKey st) t /\ ~ In "" t));
        [|now split].
      intros t char _ [H1 H2]. cbv zeta.
      destruct (String.eqb_spec (getCharacterKey a (Character.id char))
                                (sourceCharacterKey st)) as [E|Hne];
        [now split|].
      destruct shouldSelect.
      - split; rewrite setAdd_In.
        + intros [E|H]; [now symmetry in E | contradiction].
        + intros [E|H]; [|contradiction].
          symmetry in E. now apply getCharacterKey_not_empty in E.
      - split; rewrite setDelete_In; intuition. }
    destruct H as [H1 H2]. now repeat split.
  - (* Select all *)
    unfold handleSelectAllTargets, sourceExcluded. simpl.
    assert (H : ~ In (sourceCharacterKey st)
                  (fold_left
                     (fun targets (kv : string * Entry.t) =>
                        if negb (fst kv =? sourceCharacterKey st)
                        then setAdd (fst kv) targets else targets)
                     (characterLookup st) (selectedTargets st))
                /\ ~ In ""
                     (fold_left
                        (fun targets (kv : string * Entry.t) =>
                           if negb (fst kv =? sourceCharacterKey st)
                           then setAdd (fst kv) targets else targets)
                        (characterLookup st) (selectedTargets st))).
    { apply (fold_left_invariant
               (fun t => ~ In (sourceCharacterKey st) t /\ ~ In "" t));
        [|now split].
      intros t kv Hkv [H1 H2].
      destruct (String.eqb_spec (fst kv) (sourceCharacterKey st))
        as [E|Hne]; simpl; [now split|].
      split; rewrite setAdd_In.
      - intros [E|H]; [now symmetry in E | contradiction].
      - intros [E|H]; [|contradiction].
        rewrite (Hkeyed kv Hkv) in E. symmetry in E.
        now apply getCharacterKey_not_empty in E. }
    destruct H as [H1 H2]. now repeat split.
  - (* Clear all *)
    unfold handleClearAllTargets, sourceExcluded. simpl. tauto.
Qed.

Lemma run_excluded (events : list UiEvent) :
  forall st, sourceExcluded st -> sourceExcluded (run events st).
Proof.
  unfold run. induction events as [|e t IH]; intros st H; simpl;
    [assumption|].
  apply IH. now apply step_excluded.
Qed.

Lemma payload_excludes_source (st : State) (src : Ref.t) :
  sourceExcluded st ->
  getSourcePayload st = Some src -> ~ In src (buildTargetPayload st).
Proof.
  intros (Hsrc & _ & Hkeyed) Hget Hin.
  unfold getSourcePayload in Hget.
  destruct (sourceCharacterKey st =? ""); [discriminate|].
  destruct (mapGet (sourceCharacterKey st) (characterLookup st))
    as [e|] eqn:Ee; [|discriminate].
  injection Hget as <-.
  unfold buildTargetPayload in Hin. apply in_flat_map in Hin.
  destruct Hin as (key & Hkey & Hin).
  destruct (mapGet key (characterLookup st)) as [e'|] eqn:Ee';
    [|contradiction].
  destruct Hin as [Hin|[]]. injection Hin as Ha Hc.
  apply mapGet_In in Ee, Ee'.
  apply Hkeyed in Ee, Ee'. simpl in Ee, Ee'.
  apply Hsrc. rewrite Ee, <- Ha, <- Hc, <- Ee'. assumption.
Qed.

(** C7: in every state that the page reaches from its initialisation, the
    source character is not among the targets of the request that
    [handleCopyPreferences] builds, a target being compared with the
    source by account name and character id; and a change of the source
    leaves a state in which the new source key is not a selected target,
    whatever was selected before. *)
Theorem source_is_never_a_target
        (storedAccounts : list Account.t) (storedSourceKey : string)
        (events : list UiEvent) :
  let st := run events (initialise storedAccounts storedSourceKey) in
  (forall src, getSourcePayload st = Some src ->
               ~ In src (buildTargetPayload st))
  /\ (forall basePath items backup payload,
        handleCopyPreferences basePath items backup st = inl payload ->
        ~ In (source payload) (targets payload))
  /\ (forall value,
        ~ In value
             (selectedTargets (sourceCharacterSelect_onchange value st)))
  /\ (forall anyState value,
        value <> "" ->
        ~ In value
             (selectedTargets
                (sourceCharacterSelect_onchange value anyState))).
Proof.
  intros st.
  assert (Hst : sourceExcluded st)
    by (apply run_excluded, initialise_excluded).
  split; [|split; [|split]].
  - intros src. now apply payload_excludes_source.
  - intros basePath items backup payload H.
    unfold handleCopyPreferences in H.
    destruct (basePath =? ""); [discriminate|].
    destruct (getSourcePayload st) as [src|] eqn:E; [|discriminate].
    destruct (length items =? 0)%nat; [discriminate|].
    destruct (length (buildTargetPayload st) =? 0)%nat; [discriminate|].
    injection H as <-. simpl. now apply payload_excludes_source.
  - intros value.
    exact (proj1 (step_excluded (SourceChange value) st Hst)).
  - intros anyState value Hne. unfold sourceCharacterSelect_onchange. simpl.
    destruct (String.eqb_spec value ""); [contradiction|]. simpl.
    rewrite setDelete_In. intuition.
Qed.

End PrefsFacts.

(** * Concrete runs *)

Lemma ordinalCompare_total (a b : string) :
  (ordinalCompare a b <= 0)%Z \/ (ordinalCompare b a <= 0)%Z.
Proof.
  unfold ordinalCompare. rewrite (String.compare_antisym a b).
  destruct (String.compare b a); simpl; lia.
Qed.

Lemma sampleRoster_atMostOne : Forall atMostOneSelected sampleRoster.
Proof. repeat constructor. Qed.

Lemma busyRoster_wellFormed : wellFormedRoster busyRoster.
Proof.
  split.
  - simpl. constructor; [intros [H|[]]; discriminate|].
    constructor; [intros []|constructor].
  - repeat constructor; simpl; try discriminate;
      try (intros [H|[]]; discriminate); try (intros []).
Qed.

(** From a roster with three selected characters under one account, a
    plain click on the first one leaves the other two selected. *)
Lemma plain_click_can_leave_two_selected :
  ~ Forall atMostOneSelected (plainClicks ordinalCompare [(0, 0)] crowdedRoster).
Proof.
  intros H. inversion H as [|a t Ha Ht]; subst.
  unfold atMostOneSelected in Ha. vm_compute in Ha. lia.
Qed.

Lemma plain_clicks_keep_one_selected_per_account_witness :
  Forall atMostOneSelected sampleRoster
  /\ Forall atMostOneSelected
            (plainClicks ordinalCompare [(0, 1); (1, 0); (0, 1)] sampleRoster).
Proof.
  split.
  - exact sampleRoster_atMostOne.
  - exact (proj1 (plain_clicks_keep_one_selected_per_account
                    ordinalCompare [(0, 1); (1, 0); (0, 1)] sampleRoster
                    sampleRoster_atMostOne)).
Defined.

Lemma ctrl_click_selects_exactly_the_target_witness :
  totalSelected (checkbox_onclick ordinalCompare true 1 0 sampleRoster) = 1.
Proof.
  exact (proj1 (proj2 (proj2
           (ctrl_click_selects_exactly_the_target
              ordinalCompare sampleRoster 1 0
              (Account.mk "Beta" "pw2" [Character.mk "Cyd" 3 false ""])
              (Character.mk "Cyd" 3 false "")
              eq_refl eq_refl)))).
Defined.

Lemma clear_selection_is_idempotent_witness :
  fst (clearSelectionBtn_onclick
         ordinalCompare
         (fst (clearSelectionBtn_onclick ordinalCompare sampleRoster)))
  = fst (clearSelectionBtn_onclick ordinalCompare sampleRoster).
Proof.
  exact (proj1 (clear_selection_is_idempotent
                  ordinalCompare ordinalCompare_total sampleRoster)).
Defined.

Lemma roster_edits_preserve_selection_invariant_witness :
  Forall atMostOneSelected sampleRoster
  /\ Forall atMostOneSelected
            (applyEdit ordinalCompare digitsIsNaN digitsParseInt
                       (AddCharacter 1 (Some "Dee") (Some "42"))
                       sampleRoster).
Proof.
  split.
  - exact sampleRoster_atMostOne.
  - exact (proj1 (roster_edits_preserve_selection_invariant
                    ordinalCompare digitsIsNaN digitsParseInt
                    (AddCharacter 1 (Some "Dee") (Some "42"))
                    sampleRoster sampleRoster_atMostOne)).
Defined.

Lemma launch_validation_fails_fast_witness :
  exists message type,
    launchBtn_onclick asciiToLowerCase unconfiguredSettings conflictBackend
    = [ShowMessage message type]
    /\ (type = warning \/ type = error)
    /\ filter isCheck
              (launchBtn_onclick asciiToLowerCase unconfiguredSettings
                                 conflictBackend) = []
    /\ filter isClose
              (launchBtn_onclick asciiToLowerCase unconfiguredSettings
                                 conflictBackend) = []
    /\ filter isLaunch
              (launchBtn_onclick asciiToLowerCase unconfiguredSettings
                                 conflictBackend) = [].
Proof.
  exact (launch_validation_fails_fast
           asciiToLowerCase unconfiguredSettings conflictBackend
           (or_intror (or_introl eq_refl))).
Defined.

Lemma conflicted_accounts_are_skipped_witness :
  launchedLists (launchBtn_onclick asciiToLowerCase launchSettings
                                   conflictBackend)
  = [[Selected.mk "Beta" "pw2" 3]].
Proof.
  assert (Hsel : totalSelected (accounts launchSettings) <> 0)
    by (vm_compute; lia).
  assert (Hg : gameFolder launchSettings <> "") by discriminate.
  assert (Hd : dllFolder launchSettings <> "") by discriminate.
  exact (proj1 (proj2 (conflicted_accounts_are_skipped
                         asciiToLowerCase launchSettings conflictBackend
                         conflictReply conflictReply
                         Hsel Hg Hd eq_refl
                         (or_introl (conj (or_introl eq_refl) eq_refl))))
               eq_refl).
Defined.

Lemma single_settle_wait_and_single_recheck_witness :
  exists rest,
    launchBtn_onclick asciiToLowerCase cyclingSettings closingBackend
    = [ShowMessage "Checking for existing game instances..." info;
       PostCheckAndFocusWindow (accountsDataOf busyRoster)
                               (selectedAccountsOf busyRoster);
       PostCloseRunningInstances ["Alpha"] (accountsDataOf busyRoster);
       SetTimeout 5000;
       PostCheckAndFocusWindow (accountsDataOf busyRoster)
                               (selectedAccountsOf busyRoster)]
      ++ rest
    /\ filter isWait rest = []
    /\ filter isCheck rest = []
    /\ filter isClose rest = [].
Proof.
  assert (Hin : In (PostCloseRunningInstances ["Alpha"]
                                              (accountsDataOf busyRoster))
                   (launchBtn_onclick asciiToLowerCase cyclingSettings
                                      closingBackend))
    by (vm_compute; tauto).
  exact (proj1 (proj2 (proj2 (proj2 (proj2
           (single_settle_wait_and_single_recheck
              asciiToLowerCase cyclingSettings closingBackend)))))
           ["Alpha"] (accountsDataOf busyRoster) true tt Hin eq_refl).
Defined.

(** C4: the Add Account button accepts a second account named Twin.  With
    Bea selected under the second Twin and running, the handler looks the
    selection of "Twin" up in the first Twin, finds none, and puts Twin
    among the accounts to close, although the account that runs Bea has
    Bea selected; in auto-cycle mode it then sends the close request for
    Twin and launches Bea again. *)
Theorem twin_accounts_close_the_running_selection :
  addAccountBtn_onclick ordinalCompare (Some "Twin") (Some "pw2")
                        [Account.mk "Twin" "pw1" []]
  = [Account.mk "Twin" "pw1" []; Account.mk "Twin" "pw2" []]
  /\ In "Twin" (accountsToCloseOf asciiToLowerCase twinRoster
                                  (selectedCharactersOf twinRoster) ["Bea"])
  /\ ~ mustClose asciiToLowerCase twinRoster ["Bea"] "Twin"
  /\ In (PostCloseRunningInstances ["Twin"] (accountsDataOf twinRoster))
        (launchBtn_onclick asciiToLowerCase twinSettings closingBackend)
  /\ launchedLists (launchBtn_onclick asciiToLowerCase twinSettings
                                      closingBackend)
     = [[Selected.mk "Twin" "pw2" 2]].
Proof.
  split; [reflexivity|]. split; [vm_compute; tauto|].
  split; [|split; [vm_compute; tauto | reflexivity]].
  intros (rn & account & Hrn & Hm & _ & Hcase).
  destruct Hrn as [<-|[]].
  apply matched_find in Hm. vm_compute in Hm. injection Hm as <-.
  destruct Hcase as [Hnone|(c & Hc & Hs & Hdiff)].
  - specialize (Hnone (Character.mk "Bea" 2 true "") (or_introl eq_refl)).
    discriminate.
  - destruct Hc as [<-|[]]. apply Hdiff. reflexivity.
Qed.

(** In auto-cycle mode the first check does not decide the launch.  It
    reports a conflict on Alpha, which leaves Cyd of Beta to launch; but
    when the re-check shows Bea still running nothing is launched, and when
    the re-check finds nothing running Ada of Alpha is launched as well. *)
Lemma auto_cycle_overrides_the_first_check :
  CheckResult.status conflictReply = conflicts_found
  /\ firstCheck conflictStaysBackend = Responded true conflictReply
  /\ firstCheck conflictClearsBackend = Responded true conflictReply
  /\ filter (fun char =>
               negb (includes (CheckResult.conflictedAccounts conflictReply)
                              (Selected.accountName char)))
            (selectedCharactersOf (accounts cyclingSettings))
     = [Selected.mk "Beta" "pw2" 3]
  /\ launchedLists (launchBtn_onclick asciiToLowerCase cyclingSettings
                                      conflictStaysBackend) = []
  /\ launchedLists (launchBtn_onclick asciiToLowerCase cyclingSettings
                                      conflictClearsBackend)
     = [[Selected.mk "Alpha" "pw1" 1; Selected.mk "Beta" "pw2" 3]].
Proof. repeat split. Qed.

(** A close request that gets no answer is followed by no wait and no
    re-check. *)
Lemma unanswered_close_request_skips_wait_and_recheck :
  In (PostCloseRunningInstances ["Alpha"] (accountsDataOf busyRoster))
     (launchBtn_onclick asciiToLowerCase cyclingSettings deafBackend)
  /\ filter isWait (launchBtn_onclick asciiToLowerCase cyclingSettings
                                      deafBackend) = []
  /\ length (filter isCheck (launchBtn_onclick asciiToLowerCase
                                               cyclingSettings deafBackend))
     = 1.
Proof. split; [vm_compute; tauto | split; reflexivity]. Qed.

Lemma busyRoster_finiteIds : finiteIds busyRoster.
Proof. repeat constructor; eexists; reflexivity. Qed.

(** C9: a blank typed as the id of a new character passes the guard of
    the Add Character button ([isNaN] of a blank is false) and is stored
    as the id [NaN].  The save button writes that id as [null], as it
    writes an infinite id, so that two different rosters are saved to the
    same document; and the load handler reads from that document no roster
    of the data model: the id it finds is [null], not the [NaN] that was
    saved. *)
Theorem blank_id_is_lost_by_save_and_load :
  digitsIsNaN " " = false
  /\ digitsParseInt " " = IdNaN
  /\ addCharBtn_onclick ordinalCompare digitsIsNaN digitsParseInt
                        1 (Some "Zed") (Some " ") sampleRoster
     = Some (blankIdRoster, [])
  /\ characterToJson (Character.mk "Zed" IdNaN false "")
     = JObject [("name", JString "Zed"); ("id", JNull);
                ("selected", JBool false); ("comment", JString "")]
  /\ fst (saveConfigBtn_onclick blankIdSettings)
     = fst (saveConfigBtn_onclick hugeIdSettings)
  /\ accounts blankIdSettings <> accounts hugeIdSettings
  /\ forall current,
      loadConfig_onload ordinalCompare digitsParseInt
                        (fst (saveConfigBtn_onclick blankIdSettings)) current
      = None.
Proof.
  repeat split; try reflexivity. discriminate.
Qed.

Lemma accounts_to_close_and_failed_close_witness :
  wellFormedRoster (accounts cyclingSettings)
  /\ (In "Alpha" (accountsToCloseOf asciiToLowerCase busyRoster
                                    (selectedCharactersOf busyRoster) ["Bea"])
      <-> mustClose asciiToLowerCase busyRoster ["Bea"] "Alpha")
  /\ launchedLists (launchBtn_onclick asciiToLowerCase cyclingSettings
                                      stubbornBackend) = [].
Proof.
  pose proof (accounts_to_close_and_failed_close
                asciiToLowerCase cyclingSettings busyRoster_wellFormed)
    as [Hspec Habort].
  split; [exact busyRoster_wellFormed|].
  split; [exact (Hspec ["Bea"] "Alpha")|].
  assert (Hsel : totalSelected (accounts cyclingSettings) <> 0)
    by (vm_compute; lia).
  assert (Hg : gameFolder cyclingSettings <> "") by discriminate.
  assert (Hd : dllFolder cyclingSettings <> "") by discriminate.
  assert (Hm : matchedTo asciiToLowerCase (accounts cyclingSettings) "Bea"
                         (Account.mk "Alpha" "pw1"
                            [Character.mk "Ada" 1 true "";
                             Character.mk "Bea" 2 false "tank"]))
    by (apply matched_find; reflexivity).
  assert (Hmust : mustClose asciiToLowerCase (accounts cyclingSettings)
                            (CheckResult.runningCharacters beaRunsReply)
                            "Alpha")
    by (apply (Hspec ["Bea"] "Alpha"); vm_compute; tauto).
  exact (proj2 (Habort stubbornBackend beaRunsReply beaRunsReply true tt
                       "Bea" _ Hsel Hg Hd eq_refl eq_refl eq_refl eq_refl
                       (or_introl eq_refl) Hm Hmust)).
Defined.

Lemma source_is_never_a_target_witness :
  ~ In (Prefs.Ref.mk "Alpha" 1)
       (Prefs.buildTargetPayload
          (Prefs.run [Prefs.SelectAllTargets;
                      Prefs.SourceChange "Alpha::1";
                      Prefs.AccountSelection "Alpha" true]
                     (Prefs.initialise busyRoster "Beta::3"))).
Proof.
  exact (proj1 (PrefsFacts.source_is_never_a_target
                  busyRoster "Beta::3"
                  [Prefs.SelectAllTargets;
                   Prefs.SourceChange "Alpha::1";
                   Prefs.AccountSelection "Alpha" true])
               (Prefs.Ref.mk "Alpha" 1) eq_refl).
Defined.

(** * Further properties of the launcher page *)

Lemma updateAt_nth_error_same {A : Type} (f : A -> A) (l : list A) :
  forall i, nth_error (updateAt i f l) i = option_map f (nth_error l i).
Proof.
  induction l as [|x t IH]; intros i; simpl.
  - now destruct i.
  - destruct i as [|i]; simpl; [reflexivity | apply IH].
Qed.

Lemma updateAt_ext {A : Type} (f g : A -> A) (l : list A) :
  (forall x, f x = g x) -> forall i, updateAt i f l = updateAt i g l.
Proof.
  intros H. induction l as [|x t IH]; intros i; simpl.
  - now destruct i.
  - destruct i as [|i]; simpl; [now rewrite H | now rewrite IH].
Qed.

Lemma setSelected_same (c : Character.t) :
  setSelected (Character.selected c) c = c.
Proof. now destruct c. Qed.

(** The radio group when it deselects: only the clicked entry changes. *)
Lemma radio_clear_is_update (charIndex : nat) (l : list Character.t) :
  forall i,
    forEachFrom i (radioStep charIndex false) l
    = if (i <=? charIndex)%nat
      then updateAt (charIndex - i) (setSelected false) l
      else l.
Proof.
  induction l as [|x t IH]; intros i; simpl.
  - destruct (i <=? charIndex)%nat; [now destruct (charIndex - i)|reflexivity].
  - rewrite IH. unfold radioStep.
    destruct (Nat.eqb_spec i charIndex) as [->|Hne].
    + rewrite Nat.sub_diag, Nat.leb_refl.
      destruct (Nat.leb_spec (S charIndex) charIndex); [lia | reflexivity].
    + destruct (Nat.leb_spec i charIndex), (Nat.leb_spec (S i) charIndex);
        try lia; try reflexivity.
      replace (charIndex - i) with (S (charIndex - S i)) by lia. reflexivity.
Qed.

Lemma updateAt_deselect_count (l : list Character.t) :
  forall i ch,
    nth_error l i = Some ch -> Character.selected ch = true ->
    S (length (filter Character.selected (updateAt i (setSelected false) l)))
    = length (filter Character.selected l).
Proof.
  induction l as [|x t IH]; intros i ch Hi Hs.
  - destruct i; discriminate.
  - destruct i as [|i]; simpl in *.
    + injection Hi as ->. now rewrite Hs.
    + destruct (Character.selected x); simpl; [f_equal|]; eapply IH; eassumption.
Qed.

(** X1: a plain click on an unselected character selects it and leaves it
    the only selected character of its account, whatever the account held
    before: every other character of the account is written unselected,
    and the other accounts are not touched. *)
Theorem plain_click_on_unselected_selects_only_it
        (r : list Account.t) (accIndex charIndex : nat)
        (acc : Account.t) (ch : Character.t) :
  nth_error r accIndex = Some acc ->
  nth_error (Account.characters acc) charIndex = Some ch ->
  Character.selected ch = false ->
  exists r' acc',
    plainClickSelection accIndex charIndex r = Some r'
    /\ nth_error r' accIndex = Some acc'
    /\ selectedCount acc' = 1
    /\ nth_error (Account.characters acc') charIndex
       = Some (setSelected true ch)
    /\ (forall j, j <> charIndex ->
                  nth_error (Account.characters acc') j
                  = option_map (setSelected false)
                               (nth_error (Account.characters acc) j))
    /\ (forall k, k <> accIndex -> nth_error r' k = nth_error r k).
Proof.
  intros Hacc Hch Hsel. unfold plainClickSelection.
  rewrite Hacc, Hch, Hsel. cbn [negb].
  eexists _, _. split; [reflexivity|].
  rewrite updateAt_nth_error_same, Hacc. cbn [option_map].
  split; [reflexivity|].
  assert (Hlt : charIndex < length (Account.characters acc))
    by (apply nth_error_Some; congruence).
  repeat split.
  - unfold selectedCount, forEachIndexed. cbn [Account.characters setCharacters].
    rewrite radio_select_count. cbn [Nat.leb andb Nat.add].
    destruct (Nat.ltb_spec charIndex (length (Account.characters acc)));
      [reflexivity | lia].
  - cbn [Account.characters setCharacters]. unfold forEachIndexed.
    rewrite forEachFrom_nth_error, Hch. cbn [option_map Nat.add].
    unfold radioStep. now rewrite Nat.eqb_refl.
  - intros j Hj. cbn [Account.characters setCharacters]. unfold forEachIndexed.
    rewrite forEachFrom_nth_error. cbn [Nat.add].
    destruct (nth_error (Account.characters acc) j) as [x|]; [|reflexivity].
    cbn [option_map]. unfold radioStep.
    destruct (Nat.eqb_spec j charIndex); [contradiction | reflexivity].
  - intros k Hk. now apply updateAt_nth_error_other.
Qed.

(** X2: a plain click on a selected character deselects it and changes
    nothing else: the account keeps every other character as it was, it has
    one selected character fewer, and the other accounts are not touched. *)
Theorem plain_click_on_selected_deselects_only_it
        (r : list Account.t) (accIndex charIndex : nat)
        (acc : Account.t) (ch : Character.t) :
  nth_error r accIndex = Some acc ->
  nth_error (Account.characters acc) charIndex = Some ch ->
  Character.selected ch = true ->
  plainClickSelection accIndex charIndex r
  = Some (updateAt accIndex
                   (fun a => setCharacters
                               (updateAt charIndex (setSelected false)
                                         (Account.characters a)) a)
                   r)
  /\ S (selectedCount
          (setCharacters (updateAt charIndex (setSelected false)
                                   (Account.characters acc)) acc))
     = selectedCount acc.
Proof.
  intros Hacc Hch Hsel. split.
  - unfold plainClickSelection. rewrite Hacc, Hch, Hsel. cbn [negb].
    f_equal. unfold forEachIndexed.
    assert (E : forall a : Account.t,
               setCharacters
                 (forEachFrom 0 (radioStep charIndex false)
                              (Account.characters a)) a
               = setCharacters
                   (updateAt charIndex (setSelected false)
                             (Account.characters a)) a).
    { intros a. rewrite radio_clear_is_update. cbn [Nat.leb].
      now rewrite Nat.sub_0_r. }
    now apply updateAt_ext.
  - unfold selectedCount. cbn [Account.characters setCharacters].
    eapply updateAt_deselect_count; eassumption.
Qed.

Lemma setSelected_clear (v : bool) (c : Character.t) :
  setSelected v (if Character.selected c then setSelected false c else c)
  = setSelected v c.
Proof. destruct c as [n i s k]. now destruct s. Qed.

Lemma ctrl_off_is_clear (charIndex : nat) (l : list Character.t) :
  forall j,
    forEachFrom j (fun cidx char =>
                     setSelected (false && (cidx =? charIndex)%nat) char) l
    = map (fun char => if Character.selected char
                       then setSelected false char else char) l.
Proof.
  induction l as [|x t IH]; intros j; simpl; [reflexivity|].
  rewrite IH. f_equal. destruct x as [n i s k]. now destruct s.
Qed.

Lemma ctrl_on_is_radio (charIndex : nat) (l : list Character.t) :
  forall j,
    forEachFrom j (fun cidx char =>
                     setSelected (true && (cidx =? charIndex)%nat) char) l
    = forEachFrom j (radioStep charIndex true)
                  (map (fun char => if Character.selected char
                                    then setSelected false char else char) l).
Proof.
  induction l as [|x t IH]; intros j; simpl; [reflexivity|].
  rewrite IH. f_equal. unfold radioStep.
  destruct (j =? charIndex)%nat; now rewrite setSelected_clear.
Qed.

Lemma ctrl_is_update_of_clear (accIndex charIndex : nat) (r : list Account.t) :
  forall i,
    forEachFrom i
      (fun idx acc =>
         setCharacters
           (forEachIndexed
              (fun cidx char =>
                 setSelected ((idx =? accIndex)%nat && (cidx =? charIndex)%nat)
                             char)
              (Account.characters acc))
           acc)
      r
    = if (i <=? accIndex)%nat
      then updateAt (accIndex - i)
                    (fun acc =>
                       setCharacters
                         (forEachIndexed (radioStep charIndex true)
                                         (Account.characters acc))
                         acc)
                    (fst (clearSelection r))
      else fst (clearSelection r).
Proof.
  unfold clearSelection, forEachIndexed. cbn [fst].
  induction r as [|a t IH]; intros i.
  - simpl. destruct (i <=? accIndex)%nat; [now destruct (accIndex - i)|].
    reflexivity.
  - cbn [forEachFrom map]. rewrite IH.
    destruct (Nat.eqb_spec i accIndex) as [->|Hne].
    + rewrite Nat.sub_diag, Nat.leb_refl.
      destruct (Nat.leb_spec (S accIndex) accIndex); [lia|].
      cbn [updateAt]. f_equal. unfold setCharacters.
      cbn [Account.name Account.password Account.characters].
      now rewrite ctrl_on_is_radio.
    + destruct (Nat.leb_spec i accIndex), (Nat.leb_spec (S i) accIndex);
        try lia.
      * replace (accIndex - i) with (S (accIndex - S i)) by lia.
        cbn [updateAt]. f_equal. now rewrite ctrl_off_is_clear.
      * f_equal. now rewrite ctrl_off_is_clear.
Qed.

(** X3: Ctrl+click is Clear Selection followed by a plain click: on an
    existing character, the roster that the [ctrlKey] branch writes is the
    one that a plain click on the same character writes once every
    selection has been cleared. *)
Theorem ctrl_click_is_clear_then_plain_click
        (r : list Account.t) (accIndex charIndex : nat)
        (acc : Account.t) (ch : Character.t) :
  nth_error r accIndex = Some acc ->
  nth_error (Account.characters acc) charIndex = Some ch ->
  plainClickSelection accIndex charIndex (fst (clearSelection r))
  = Some (ctrlClickSelection accIndex charIndex r).
Proof.
  intros Hacc Hch. unfold ctrlClickSelection, forEachIndexed at 1.
  rewrite ctrl_is_update_of_clear. cbn [Nat.leb]. rewrite Nat.sub_0_r.
  unfold plainClickSelection, clearSelection. cbn [fst].
  rewrite nth_error_map, Hacc. cbn [option_map Account.characters setCharacters].
  rewrite nth_error_map, Hch. cbn [option_map].
  replace (Character.selected
             (if Character.selected ch then setSelected false ch else ch))
    with false by (destruct ch as [n i s k]; now destruct s).
  reflexivity.
Qed.

Lemma sortedBy_map {A : Type} (cmp : A -> A -> Z) (f : A -> A) (l : list A) :
  (forall a b, cmp (f a) (f b) = cmp a b) ->
  sortedBy cmp l -> sortedBy cmp (map f l).
Proof.
  intros Hf. induction l as [|x t IH]; intros H; simpl; [exact I|].
  destruct H as [Hx Ht]. split; [|now apply IH].
  destruct t as [|y t']; simpl; [exact I|]. now rewrite Hf.
Qed.

(** X4: with a comparator that orders any two strings one way or the
    other, [renderUI] leaves the accounts sorted by name and the characters
    of every account sorted by name, keeps the accounts and their
    characters (up to order), and rendering again changes nothing. *)
Theorem renderUI_sorts_the_roster
        (localeCompare : string -> string -> Z) (r : list Account.t) :
  (forall a b, (localeCompare a b <= 0)%Z \/ (localeCompare b a <= 0)%Z) ->
  sortedBy (fun a b => localeCompare (Account.name a) (Account.name b))
           (renderUI localeCompare r)
  /\ Forall (fun a =>
               sortedBy (fun x y => localeCompare (Character.name x)
                                                  (Character.name y))
                        (Account.characters a))
            (renderUI localeCompare r)
  /\ equivalentRoster (renderUI localeCompare r) r
  /\ renderUI localeCompare (renderUI localeCompare r)
     = renderUI localeCompare r.
Proof.
  intros Htotal. split; [|split; [|split]].
  - unfold renderUI. destruct r as [|a t]; [exact I|].
    cbn [length Nat.eqb]. apply sortedBy_map; [reflexivity|].
    apply sortBy_sorted. intros x y. apply Htotal.
  - unfold renderUI. destruct r as [|a t]; [constructor|].
    cbn [length Nat.eqb]. apply Forall_map, Forall_forall. intros x _.
    simpl. apply sortBy_sorted. intros u v. apply Htotal.
  - apply render_equivalent.
  - now apply renderUI_idempotent.
Qed.

(** ** More on the launch handler *)

Section LaunchTrace.

Variable toLowerCase : string -> string.

Local Abbreviation launch := (launchBtn_onclick toLowerCase).
Local Abbreviation autoCycleBlock := (autoCyclePhase toLowerCase).
Local Abbreviation closeBlock := (closeAndRecheck toLowerCase).
Local Abbreviation toClose := (accountsToCloseOf toLowerCase).
Local Abbreviation closing s cr :=
  (accountsToCloseOf toLowerCase (accounts s)
                     (selectedCharactersOf (accounts s))
                     (CheckResult.runningCharacters cr)).

(** The auto-cycle block and the status switch never end by an error that
    escapes them. *)
Lemma closeBlock_never_throws (r : list Account.t) (w : Backend)
      (names : list string) (m : string) :
  snd (closeBlock r w names) <> Throw m.
Proof.
  unfold closeAndRecheck.
  destruct (closeReply w) as [m'|ok u]; run_handler; [discriminate|].
  destruct (recheck w) as [m'|ok' body]; run_handler; [discriminate|].
  destruct ok'; run_handler; [|discriminate].
  destruct (0 <? _)%nat; run_handler; discriminate.
Qed.

Lemma autoCycleBlock_never_throws (s : AppSettings) (w : Backend)
      (cr : CheckResult.t) (m : string) :
  snd (autoCycleBlock s w cr) <> Throw m.
Proof.
  unfold autoCyclePhase. destruct (autoCycle s); [|discriminate].
  destruct (0 <? _)%nat; [apply closeBlock_never_throws | discriminate].
Qed.

Lemma statusSwitch_never_throws (cr : CheckResult.t) (sel : list Selected.t)
      (m : string) :
  snd (statusSwitch cr sel) <> Throw m.
Proof.
  unfold statusSwitch.
  destruct (CheckResult.status cr); run_handler; try discriminate.
  - destruct (length _ =? 0)%nat; discriminate.
  - destruct (0 <? _)%nat; discriminate.
Qed.

(** The trace of a run that passed the guards and got an answer to its
    first check: the announcement, the check, the auto-cycle block, the
    messages of the status switch, and the launch stage. *)
Lemma launch_unfold (s : AppSettings) (w : Backend) (cr : CheckResult.t) :
  totalSelected (accounts s) <> 0 ->
  gameFolder s <> "" -> dllFolder s <> "" ->
  firstCheck w = Responded true cr ->
  launch s w
  = [ShowMessage "Checking for existing game instances..." info;
     PostCheckAndFocusWindow (accountsDataOf (accounts s))
                             (selectedAccountsOf (accounts s))]
    ++ fst (autoCycleBlock s w cr)
    ++ match snd (autoCycleBlock s w cr) with
       | Continue latest =>
           fst (statusSwitch latest (selectedCharactersOf (accounts s)))
           ++ match snd (statusSwitch latest
                                      (selectedCharactersOf (accounts s))) with
              | Continue submitted =>
                  fst (submitLaunch s w submitted)
                  ++ match snd (submitLaunch s w submitted) with
                     | Throw m => [connectionMessage m]
                     | _ => []
                     end
              | _ => []
              end
       | _ => []
       end.
Proof.
  intros Hsel Hg Hd Hc. unfold launchBtn_onclick.
  rewrite selectedCharactersOf_length.
  destruct (Nat.eqb_spec (totalSelected (accounts s)) 0); [contradiction|].
  apply String.eqb_neq in Hg, Hd. rewrite Hg, Hd. cbn [orb].
  unfold checkThenLaunch. rewrite Hc. step_handler.
  pose proof (autoCycleBlock_never_throws s w cr) as NA.
  destruct (autoCyclePhase toLowerCase s w cr) as [trA [latest| |mA]];
    cbn [fst snd] in *; step_handler.
  - pose proof (statusSwitch_never_throws
                  latest (selectedCharactersOf (accounts s))) as NS.
    destruct (statusSwitch latest _) as [trS [submitted| |mS]];
      cbn [fst snd] in *; step_handler.
    + destruct (submitLaunch s w submitted) as [trL [u| |mL]];
        unfold connectionMessage; simpl; rewrite <- ?app_assoc;
        rewrite ?app_nil_r; reflexivity.
    + simpl. now rewrite <- ?app_assoc, ?app_nil_r.
    + now contradiction (NS mS).
  - simpl. now rewrite ?app_nil_r.
  - now contradiction (NA mA).
Qed.

Lemma filter_none {A : Type} (f : A -> bool) (l : list A) :
  (forall e, In e l -> f e = false) -> filter f l = [].
Proof.
  induction l as [|a l IH]; intros H; [reflexivity|]. simpl.
  rewrite (H a (or_introl eq_refl)). apply IH. intros e He.
  apply H. now right.
Qed.

Lemma launch_guard_fails (s : AppSettings) (w : Backend) :
  totalSelected (accounts s) = 0 \/ gameFolder s = "" \/ dllFolder s = "" ->
  exists message type, launch s w = [ShowMessage message type].
Proof.
  intros H. unfold launchBtn_onclick. rewrite selectedCharactersOf_length.
  destruct (Nat.eqb_spec (totalSelected (accounts s)) 0) as [E|E].
  - now eexists _, _.
  - destruct H as [H|H]; [contradiction|].
    assert (Hb : (gameFolder s =? "") || (dllFolder s =? "") = true).
    { apply orb_true_iff. destruct H as [H|H]; [left|right];
        now apply String.eqb_eq. }
    rewrite Hb. now eexists _, _.
Qed.

Lemma guards_decidable (s : AppSettings) :
  (totalSelected (accounts s) = 0 \/ gameFolder s = "" \/ dllFolder s = "")
  \/ (totalSelected (accounts s) <> 0
      /\ gameFolder s <> "" /\ dllFolder s <> "").
Proof.
  destruct (Nat.eq_dec (totalSelected (accounts s)) 0); [now left; left|].
  destruct (string_dec (gameFolder s) ""); [now left; right; left|].
  destruct (string_dec (dllFolder s) ""); [now left; right; right|].
  now right.
Qed.

Lemma launch_check_unanswered (s : AppSettings) (w : Backend) :
  totalSelected (accounts s) <> 0 ->
  gameFolder s <> "" -> dllFolder s <> "" ->
  (forall cr, firstCheck w <> Responded true cr) ->
  exists message,
    launch s w
    = [ShowMessage "Checking for existing game instances..." info;
       PostCheckAndFocusWindow (accountsDataOf (accounts s))
                               (selectedAccountsOf (accounts s));
       ShowMessage message error].
Proof.
  intros Hsel Hg Hd Hc. unfold launchBtn_onclick.
  rewrite selectedCharactersOf_length.
  destruct (Nat.eqb_spec (totalSelected (accounts s)) 0); [contradiction|].
  apply String.eqb_neq in Hg, Hd. rewrite Hg, Hd. cbn [orb].
  unfold checkThenLaunch.
  destruct (firstCheck w) as [m|ok cr]; [now eexists|].
  destruct ok; [now contradiction (Hc cr) | now eexists].
Qed.

Lemma closeBlock_events (r : list Account.t) (w : Backend)
      (names : list string) (e : Event) :
  In e (fst (closeBlock r w names)) ->
  isLaunch e = false /\ e <> PostFocusLauncherWindow.
Proof.
  unfold closeAndRecheck.
  destruct (closeReply w) as [m|ok u]; run_handler.
  { intros [<-|[<-|[]]]; now split. }
  destruct (recheck w) as [m|ok' body]; run_handler.
  { intros [<-|[<-|[<-|[<-|[]]]]]; now split. }
  destruct ok'; run_handler.
  - destruct (0 <? _)%nat; run_handler.
    + intros [<-|[<-|[<-|[<-|[]]]]]; now split.
    + intros [<-|[<-|[<-|[]]]]; now split.
  - intros [<-|[<-|[<-|[<-|[]]]]]; now split.
Qed.

Lemma autoCycleBlock_events (s : AppSettings) (w : Backend)
      (cr : CheckResult.t) (e : Event) :
  In e (fst (autoCycleBlock s w cr)) ->
  isLaunch e = false /\ e <> PostFocusLauncherWindow.
Proof.
  unfold autoCyclePhase. destruct (autoCycle s); [|intros []].
  destruct (0 <? _)%nat; [apply closeBlock_events | intros []].
Qed.

Lemma statusSwitch_events (cr : CheckResult.t) (sel : list Selected.t)
      (e : Event) :
  In e (fst (statusSwitch cr sel)) ->
  exists message type, e = ShowMessage message type.
Proof.
  unfold statusSwitch.
  destruct (CheckResult.status cr); run_handler.
  - destruct (length _ =? 0)%nat; simpl.
    + intros [<-|[]]. now eexists _, _.
    + intros [<-|[<-|[]]]; now eexists _, _.
  - destruct (0 <? _)%nat; simpl; intros [<-|[]]; now eexists _, _.
  - intros [<-|[]]. now eexists _, _.
  - intros [<-|[]]. now eexists _, _.
  - intros [<-|[]]. now eexists _, _.
Qed.

(** What the status switch hands to the launch stage. *)
Lemma statusSwitch_result (cr : CheckResult.t) (sel submitted : list Selected.t) :
  sel <> [] ->
  snd (statusSwitch cr sel) = Continue submitted ->
  submitted <> [] /\ exists p, submitted = filter p sel.
Proof.
  intros Hsel. unfold statusSwitch.
  destruct (CheckResult.status cr); run_handler.
  - destruct (filter _ sel) as [|c t] eqn:E; simpl; [discriminate|].
    intros [= <-]. split; [discriminate|]. eexists. symmetry. exact E.
  - destruct (0 <? _)%nat; simpl; intros [= <-]; (split; [assumption|]);
      exists (fun _ => true); symmetry; apply forallb_filter_id;
      now apply forallb_forall.
  - discriminate.
  - discriminate.
  - intros [= <-]. split; [assumption|].
    exists (fun _ => true). symmetry. apply forallb_filter_id.
    now apply forallb_forall.
Qed.

(** The launch stage: the request, then a message, then at most the focus
    request. *)
Lemma submitLaunch_trace (s : AppSettings) (w : Backend)
      (sel : list Selected.t) :
  sel <> [] ->
  exists rest,
    fst (submitLaunch s w sel)
    ++ match snd (submitLaunch s w sel) with
       | Throw m => [connectionMessage m]
       | _ => []
       end
    = PostLaunch (gameFolder s) (dllFolder s) sel :: rest
    /\ (forall e, In e rest -> isLaunch e = false)
    /\ (In PostFocusLauncherWindow rest
        <-> exists result,
            launchReply w = Responded true result
            /\ (LaunchResult.status result = launch_success
                \/ LaunchResult.status result = launch_partial_success)).
Proof.
  intros Hsel. unfold submitLaunch. destruct sel as [|c t]; [contradiction|].
  cbn [length Nat.ltb Nat.leb].
  destruct (launchReply w) as [m|ok result]; run_handler.
  { eexists. split; [reflexivity|]. split.
    - intros e [<-|[]]. reflexivity.
    - split; [intros [H|[]]; discriminate|].
      intros (result & H & _). discriminate. }
  destruct ok.
  - destruct (LaunchResult.status result) eqn:E; run_handler;
      (eexists; split; [reflexivity|]; split;
       [intros e He; simpl in He; intuition (subst; reflexivity)|]).
    + split; [intros _|intros _; simpl; tauto].
      exists result. split; [reflexivity | now left].
    + split; [intros _|intros _; simpl; tauto].
      exists result. split; [reflexivity | now right].
    + split; [intros []|].
      intros (result' & [= <-] & [H|H]); congruence.
  - eexists. split; [reflexivity|]. split.
    + intros e [<-|[]]. reflexivity.
    + split; [intros [H|[]]; discriminate|].
      intros (result' & H & _). discriminate.
Qed.

(** X5: the handler sends at most one launch request; a request it sends
    carries the configured game and DLL folders, both non-empty, and a
    non-empty part of the selection, and it is sent only after the first
    conflict check was answered with an ok reply. *)
Theorem launch_request_is_guarded (s : AppSettings) (w : Backend) :
  length (filter isLaunch (launch s w)) <= 1
  /\ (forall g d l,
        In (PostLaunch g d l) (launch s w) ->
        g = gameFolder s /\ d = dllFolder s /\ g <> "" /\ d <> ""
        /\ l <> []
        /\ (exists p, l = filter p (selectedCharactersOf (accounts s)))
        /\ exists cr, firstCheck w = Responded true cr).
Proof.
  destruct (guards_decidable s) as [Hfail|(Hsel & Hg & Hd)].
  { destruct (launch_guard_fails s w Hfail) as (m & t & ->). simpl.
    split; [lia|]. intros g d l [H|[]]. discriminate. }
  destruct (firstCheck w) as [m|[|] cr] eqn:Hc;
    try (destruct (launch_check_unanswered s w Hsel Hg Hd) as (msg & ->);
         [intros cr'; rewrite Hc; discriminate|];
         simpl; split; [lia|]; intros g d l [H|[H|[H|[]]]]; discriminate).
  rewrite (launch_unfold s w cr Hsel Hg Hd Hc).
  assert (HA : forall e, In e (fst (autoCycleBlock s w cr)) ->
                         isLaunch e = false)
    by (intros e He; now apply (autoCycleBlock_events s w cr e)).
  assert (Hne : selectedCharactersOf (accounts s) <> []).
  { intros E. apply Hsel. now rewrite <- selectedCharactersOf_length, E. }
  assert (FA : filter isLaunch (fst (autoCycleBlock s w cr)) = []).
  { apply filter_none. exact HA. }
  cbn [app filter isLaunch]. rewrite filter_app, FA. cbn [app].
  destruct (snd (autoCycleBlock s w cr)) as [latest| |mA].
  2,3: (split; [simpl; lia|]; intros g d l H;
        destruct H as [H|[H|H]]; try discriminate;
        rewrite app_nil_r in H; apply HA in H; discriminate).
  assert (FS : filter isLaunch
                      (fst (statusSwitch latest
                                         (selectedCharactersOf (accounts s))))
               = []).
  { apply filter_none. intros e He.
    destruct (statusSwitch_events _ _ _ He) as (m & t & ->). reflexivity. }
  rewrite filter_app, FS. cbn [app].
  destruct (snd (statusSwitch latest _)) as [submitted| |mS] eqn:ES.
  2,3: (split; [simpl; lia|]; intros g d l H;
        destruct H as [H|[H|H]]; try discriminate;
        rewrite app_nil_r in H; apply in_app_or in H; destruct H as [H|H];
        [apply HA in H; discriminate|];
        destruct (statusSwitch_events _ _ _ H) as (m & t & E); discriminate).
  destruct (statusSwitch_result _ _ _ Hne ES) as [Hsub Hp].
  destruct (submitLaunch_trace s w submitted Hsub) as (rest & -> & Hrest & _).
  assert (FR : filter isLaunch rest = []).
  { apply filter_none. exact Hrest. }
  cbn [filter isLaunch]. rewrite FR. split; [simpl; lia|].
  intros g d l H. destruct H as [H|[H|H]]; try discriminate.
  apply in_app_or in H. destruct H as [H|H]; [apply HA in H; discriminate|].
  apply in_app_or in H. destruct H as [H|H].
  { destruct (statusSwitch_events _ _ _ H) as (m & t & E). discriminate. }
  destruct H as [H|H]; [|apply Hrest in H; discriminate].
  injection H as <- <- <-. repeat split; try assumption. now exists cr.
Qed.

Lemma launch_cases (s : AppSettings) (w : Backend) :
  (forall e, In e (launch s w) ->
             isLaunch e = false /\ e <> PostFocusLauncherWindow)
  \/ exists pre submitted rest,
       launch s w
       = pre ++ PostLaunch (gameFolder s) (dllFolder s) submitted :: rest
       /\ (forall e, In e pre ->
                     isLaunch e = false /\ e <> PostFocusLauncherWindow)
       /\ (forall e, In e rest -> isLaunch e = false)
       /\ (In PostFocusLauncherWindow rest
           <-> exists result,
               launchReply w = Responded true result
               /\ (LaunchResult.status result = launch_success
                   \/ LaunchResult.status result = launch_partial_success)).
Proof.
  destruct (guards_decidable s) as [Hfail|(Hsel & Hg & Hd)].
  { left. destruct (launch_guard_fails s w Hfail) as (m & t & ->).
    intros e [<-|[]]. now split. }
  destruct (firstCheck w) as [m|[|] cr] eqn:Hc;
    try (left; destruct (launch_check_unanswered s w Hsel Hg Hd) as (msg & ->);
         [intros cr'; rewrite Hc; discriminate|];
         intros e [<-|[<-|[<-|[]]]]; now split).
  rewrite (launch_unfold s w cr Hsel Hg Hd Hc).
  assert (Hne : selectedCharactersOf (accounts s) <> []).
  { intros E. apply Hsel. now rewrite <- selectedCharactersOf_length, E. }
  assert (Hpre : forall tr,
             (forall e, In e tr ->
                        isLaunch e = false /\ e <> PostFocusLauncherWindow) ->
             forall e,
               In e ([ShowMessage "Checking for existing game instances..."
                                  info;
                      PostCheckAndFocusWindow
                        (accountsDataOf (accounts s))
                        (selectedAccountsOf (accounts s))]
                     ++ fst (autoCycleBlock s w cr) ++ tr) ->
               isLaunch e = false /\ e <> PostFocusLauncherWindow).
  { intros tr Htr e [<-|[<-|He]];
      [split; [reflexivity|discriminate] | split; [reflexivity|discriminate] |].
    cbn [app] in He. apply in_app_or in He.
    destruct He as [He|He]; [|now apply Htr].
    now apply (autoCycleBlock_events s w cr e). }
  destruct (snd (autoCycleBlock s w cr)) as [latest| |mA];
    [| left; apply Hpre; intros e [] | left; apply Hpre; intros e []].
  assert (HS : forall e,
             In e (fst (statusSwitch latest
                                     (selectedCharactersOf (accounts s)))) ->
             isLaunch e = false /\ e <> PostFocusLauncherWindow).
  { intros e He. destruct (statusSwitch_events _ _ _ He) as (m & t & ->).
    now split. }
  destruct (snd (statusSwitch latest _)) as [submitted| |mS] eqn:ES.
  2,3: left; apply Hpre; rewrite app_nil_r; exact HS.
  destruct (statusSwitch_result _ _ _ Hne ES) as [Hsub _].
  destruct (submitLaunch_trace s w submitted Hsub)
    as (rest & -> & Hrest & Hfocus).
  right.
  exists ([ShowMessage "Checking for existing game instances..." info;
           PostCheckAndFocusWindow (accountsDataOf (accounts s))
                                   (selectedAccountsOf (accounts s))]
          ++ fst (autoCycleBlock s w cr)
          ++ fst (statusSwitch latest (selectedCharactersOf (accounts s)))),
         submitted, rest.
  split; [now rewrite <- !app_assoc|].
  split; [apply Hpre; exact HS|]. now split.
Qed.

(** X6: the launcher window is brought back to the front exactly when a
    launch request was sent and the back end answered it with an ok reply
    whose status is success or partial success. *)
Theorem focus_exactly_after_accepted_launch (s : AppSettings) (w : Backend) :
  In PostFocusLauncherWindow (launch s w)
  <-> (exists g d l, In (PostLaunch g d l) (launch s w))
      /\ exists result,
          launchReply w = Responded true result
          /\ (LaunchResult.status result = launch_success
              \/ LaunchResult.status result = launch_partial_success).
Proof.
  destruct (launch_cases s w)
    as [Hclean|(pre & submitted & rest & -> & Hpre & Hrest & Hfocus)].
  - split.
    + intros H. now destruct (proj2 (Hclean _ H)).
    + intros [(g & d & l & H) _]. discriminate (proj1 (Hclean _ H)).
  - split.
    + intros H. split.
      * exists (gameFolder s), (dllFolder s), submitted.
        apply in_or_app. right. now left.
      * apply in_app_or in H. destruct H as [H|[H|H]].
        -- now destruct (proj2 (Hpre _ H)).
        -- discriminate.
        -- now apply Hfocus.
    + intros [_ H]. apply in_or_app. right. right. now apply Hfocus.
Qed.

Lemma autoCycle_skipped (s : AppSettings) (w : Backend) (cr : CheckResult.t) :
  autoCycle s = false \/ CheckResult.runningCharacters cr = [] ->
  autoCycleBlock s w cr = ([], Continue cr).
Proof.
  unfold autoCyclePhase. intros [->| ->]; [reflexivity|].
  destruct (autoCycle s); reflexivity.
Qed.

(** X7: when auto-cycle is off, or the first check found nothing running,
    a check result of status no_conflicts, and also one of a status the
    page does not know, launches the whole selection in one request, while
    a result of status error or unsupported launches nothing. *)
Theorem check_status_decides_the_launch
        (s : AppSettings) (w : Backend) (cr : CheckResult.t) :
  totalSelected (accounts s) <> 0 ->
  gameFolder s <> "" -> dllFolder s <> "" ->
  firstCheck w = Responded true cr ->
  autoCycle s = false \/ CheckResult.runningCharacters cr = [] ->
  ((CheckResult.status cr = no_conflicts
    \/ exists text, CheckResult.status cr = unknown_status text) ->
   launchedLists (launch s w) = [selectedCharactersOf (accounts s)])
  /\ ((CheckResult.status cr = check_error
       \/ CheckResult.status cr = unsupported) ->
      launchedLists (launch s w) = []).
Proof.
  intros Hsel Hg Hd Hc Hskip.
  rewrite (launch_requests toLowerCase s w cr Hsel Hg Hd Hc).
  rewrite (autoCycle_skipped s w cr Hskip). cbn [snd].
  assert (Hne : selectedCharactersOf (accounts s) <> []).
  { intros E. apply Hsel. now rewrite <- selectedCharactersOf_length, E. }
  unfold statusSwitch.
  split; intros H.
  - destruct (selectedCharactersOf (accounts s)) as [|c t]; [contradiction|].
    destruct H as [-> | (text & ->)]; run_handler; [|reflexivity].
    destruct (0 <? _)%nat; reflexivity.
  - destruct H as [-> | ->]; reflexivity.
Qed.

Lemma connectionMessage_quiet (m : string) :
  isQuiet (connectionMessage m) = true.
Proof. reflexivity. Qed.

(** X8: with auto-cycle off, and also when the first check reports no
    running character, the handler never asks to close a game window,
    never waits, and checks for conflicts at most once. *)
Theorem without_auto_cycle_nothing_is_closed (s : AppSettings) (w : Backend) :
  autoCycle s = false
  \/ (forall cr, firstCheck w = Responded true cr ->
                 CheckResult.runningCharacters cr = []) ->
  filter isClose (launch s w) = []
  /\ filter isWait (launch s w) = []
  /\ length (filter isCheck (launch s w)) <= 1.
Proof.
  intros Hskip.
  destruct (guards_decidable s) as [Hfail|(Hsel & Hg & Hd)].
  { destruct (launch_guard_fails s w Hfail) as (m & t & ->). simpl.
    repeat split; lia. }
  destruct (firstCheck w) as [m|[|] cr] eqn:Hc;
    try (destruct (launch_check_unanswered s w Hsel Hg Hd) as (msg & ->);
         [intros cr'; rewrite Hc; discriminate|];
         simpl; repeat split; lia).
  rewrite (launch_unfold s w cr Hsel Hg Hd Hc).
  rewrite (autoCycle_skipped s w cr)
    by (destruct Hskip as [H|H]; [now left | right; now apply H]).
  cbn [fst snd app].
  set (rest := fst (statusSwitch cr (selectedCharactersOf (accounts s))) ++ _).
  assert (Hq : Forall (fun e => isQuiet e = true) rest).
  { subst rest. apply Forall_app. split; [apply statusSwitch_quiet|].
    destruct (snd (statusSwitch cr _)) as [submitted| |mS]; [|constructor..].
    apply Forall_app. split; [apply submitLaunch_quiet|].
    destruct (snd (submitLaunch s w submitted)); repeat constructor. }
  destruct (quiet_filters rest Hq) as (Hw & Hk & Hx).
  cbn [filter isClose isWait isCheck]. rewrite Hw, Hk, Hx.
  simpl. repeat split; lia.
Qed.

(** X9: in auto-cycle mode with accounts to close, a close request that
    gets no answer ends the run after the error message, without waiting;
    a re-check that gets no answer, or an answer that is not ok, ends it
    after the wait and the re-check.  In both cases nothing is launched. *)
Theorem window_management_error_aborts
        (s : AppSettings) (w : Backend) (cr : CheckResult.t) :
  totalSelected (accounts s) <> 0 ->
  gameFolder s <> "" -> dllFolder s <> "" ->
  autoCycle s = true ->
  firstCheck w = Responded true cr ->
  closing s cr <> [] ->
  ((exists m, closeReply w = Rejected m) ->
   launch s w
   = [ShowMessage "Checking for existing game instances..." info;
      PostCheckAndFocusWindow (accountsDataOf (accounts s))
                              (selectedAccountsOf (accounts s));
      PostCloseRunningInstances (closing s cr) (accountsDataOf (accounts s));
      ShowMessage "Error managing game windows. Please try again." error])
  /\ ((exists ok u, closeReply w = Responded ok u) ->
      (exists m, recheck w = Rejected m)
      \/ (exists body, recheck w = Responded false body) ->
      launch s w
      = [ShowMessage "Checking for existing game instances..." info;
         PostCheckAndFocusWindow (accountsDataOf (accounts s))
                                 (selectedAccountsOf (accounts s));
         PostCloseRunningInstances (closing s cr)
                                   (accountsDataOf (accounts s));
         SetTimeout 5000;
         PostCheckAndFocusWindow (accountsDataOf (accounts s))
                                 (selectedAccountsOf (accounts s));
         ShowMessage "Error managing game windows. Please try again." error]).
Proof.
  intros Hsel Hg Hd Hauto Hc Hclose.
  rewrite (launch_unfold s w cr Hsel Hg Hd Hc).
  assert (Hlen : (0 <? length (closing s cr))%nat = true).
  { case_eq (closing s cr); [intros E; now apply Hclose in E | reflexivity]. }
  unfold autoCyclePhase. rewrite Hauto. cbv zeta. rewrite Hlen.
  unfold closeAndRecheck. split.
  - intros (m & ->). reflexivity.
  - intros (ok & u & ->) [(m & ->)|(body & ->)]; reflexivity.
Qed.

(** X10: after a close request that was answered, a re-check that is ok,
    reports no conflict and shows that none of the closed accounts still
    runs, the whole selection is launched: the outcome follows the
    re-check, whatever the first check had reported. *)
Theorem launch_follows_the_recheck
        (s : AppSettings) (w : Backend) (cr latest : CheckResult.t)
        (ok : bool) (u : unit) :
  totalSelected (accounts s) <> 0 ->
  gameFolder s <> "" -> dllFolder s <> "" ->
  autoCycle s = true ->
  firstCheck w = Responded true cr ->
  closing s cr <> [] ->
  closeReply w = Responded ok u ->
  recheck w = Responded true latest ->
  failedToCloseOf toLowerCase (accounts s) (closing s cr)
                  (CheckResult.runningCharacters latest) = [] ->
  CheckResult.status latest = no_conflicts ->
  launchedLists (launch s w) = [selectedCharactersOf (accounts s)].
Proof.
  intros Hsel Hg Hd Hauto Hc Hclose Hreply Hre Hfailed Hstatus.
  rewrite (launch_requests toLowerCase s w cr Hsel Hg Hd Hc).
  assert (Hne : selectedCharactersOf (accounts s) <> []).
  { intros E. apply Hsel. now rewrite <- selectedCharactersOf_length, E. }
  assert (Hlen : (0 <? length (closing s cr))%nat = true).
  { case_eq (closing s cr); [intros E; now apply Hclose in E | reflexivity]. }
  unfold autoCyclePhase. rewrite Hauto. cbv zeta. rewrite Hlen.
  unfold closeAndRecheck. rewrite Hreply, Hre. run_handler.
  rewrite Hfailed. run_handler.
  unfold statusSwitch. rewrite Hstatus.
  destruct (selectedCharactersOf (accounts s)) as [|c t]; [contradiction|].
  destruct (0 <? length (CheckResult.runningCharacters latest))%nat;
    reflexivity.
Qed.

End LaunchTrace.

(** ** More on the accounts to close and the accounts with a selection *)

Lemma setAdd_NoDup (x : string) (s : list string) :
  NoDup s -> NoDup (setAdd x s).
Proof.
  unfold setAdd. destruct (setHas x s) eqn:E; [trivial|].
  assert (Hx : ~ In x s).
  { intros H. apply setHas_In in H. congruence. }
  clear E. induction 1 as [|y t Hy Ht IH]; simpl.
  - constructor; [intros [] | constructor].
  - constructor.
    + rewrite in_app_iff. intros [H|[H|[]]]; [contradiction|].
      apply Hx. now left.
    + apply IH. intros H. apply Hx. now right.
Qed.

Section CloseList.

Variable toLowerCase : string -> string.

(** X11: whatever the roster and the selection, the list of accounts to
    close has no duplicates and no empty name, and each of its names is
    the name of the account that some running character is matched to:
    the first account of the roster with a character of that name. *)
Theorem accounts_to_close_are_matched_accounts
        (r : list Account.t) (sel : list Selected.t)
        (running : list string) :
  NoDup (accountsToCloseOf toLowerCase r sel running)
  /\ forall a,
      In a (accountsToCloseOf toLowerCase r sel running) ->
      a <> ""
      /\ exists runningCharName account,
          In runningCharName running
          /\ matchedTo toLowerCase r runningCharName account
          /\ Account.name account = a.
Proof.
  unfold accountsToCloseOf.
  apply (fold_left_invariant
           (fun set : list string =>
              NoDup set
              /\ forall a, In a set ->
                           a <> ""
                           /\ exists rn account,
                               In rn running
                               /\ matchedTo toLowerCase r rn account
                               /\ Account.name account = a)).
  2: { split; [constructor | intros a []]. }
  intros set rn Hrn [Hnd Hset].
  rewrite (runningMap_get toLowerCase r running rn Hrn).
  destruct (find (hasCharacterNamed toLowerCase rn) r) as [account|] eqn:F;
    [|now split].
  cbn [option_map].
  destruct (String.eqb_spec (Account.name account) "") as [E|E]; [now split|].
  assert (Hadd : NoDup (setAdd (Account.name account) set)
                 /\ forall a, In a (setAdd (Account.name account) set) ->
                              a <> ""
                              /\ exists rn account,
                                  In rn running
                                  /\ matchedTo toLowerCase r rn account
                                  /\ Account.name account = a).
  { split; [now apply setAdd_NoDup|]. intros a Ha.
    apply setAdd_In in Ha. destruct Ha as [->|Ha]; [|now apply Hset].
    split; [assumption|]. exists rn, account.
    split; [assumption|]. split; [now apply matched_find | reflexivity]. }
  destruct (mapGet (Account.name account) _) as [scn|]; [|exact Hadd].
  destruct (scn =? ""); [exact Hadd|].
  destruct (negb _); [exact Hadd | now split].
Qed.

(** X12: the set of selected accounts sent with a check lists each account
    name once, and lists exactly the names of the accounts that have a
    selected character. *)
Theorem selected_accounts_are_those_with_a_selection (r : list Account.t) :
  NoDup (selectedAccountsOf r)
  /\ forall a,
      In a (selectedAccountsOf r)
      <-> exists account c,
          In account r /\ Account.name account = a
          /\ In c (Account.characters account)
          /\ Character.selected c = true.
Proof.
  unfold selectedAccountsOf. split.
  - apply (fold_left_invariant (fun set : list string => NoDup set));
      [|constructor].
    intros set char _ H. now apply setAdd_NoDup.
  - intros a.
    pose proof (fold_setAdd_In
                  (fun char => Some (Selected.accountName char))
                  (selectedCharactersOf r) [] a) as H.
    cbv beta iota in H. rewrite H. clear H.
    split.
    + intros [[]|(e & He & [= <-])].
      apply selectedCharactersOf_In in He.
      destruct He as (account & c & Hacc & Hc & Hs & ->).
      now exists account, c.
    + intros (account & c & Hacc & <- & Hc & Hs). right.
      exists (Selected.mk (Account.name account) (Account.password account)
                          (Character.id c)).
      split; [|reflexivity]. apply selectedCharactersOf_In.
      now exists account, c.
Qed.

End CloseList.

(** * Further properties of the preference page *)

(** ** Character keys *)

Lemma nilEmpty_no_colon (d : Decimal.uint) :
  ~ In ":"%char (list_ascii_of_string (NilEmpty.string_of_uint d)).
Proof.
  induction d; simpl; intros H;
    [exact H | destruct H as [H|H]; [discriminate | contradiction]..].
Qed.

Lemma string_of_uint_no_colon (d : Decimal.uint) :
  ~ In ":"%char (list_ascii_of_string (NilZero.string_of_uint d)).
Proof.
  destruct d; try apply nilEmpty_no_colon.
  simpl. intros [H|[]]. discriminate.
Qed.

Lemma showZ_no_colon (z : Z) :
  ~ In ":"%char (list_ascii_of_string (showZ z)).
Proof.
  unfold showZ. destruct (Z.to_int z) as [d|d]; simpl.
  - apply string_of_uint_no_colon.
  - intros [H|H]; [discriminate|]. now apply string_of_uint_no_colon in H.
Qed.

Lemma showZ_read_back (z : Z) :
  NilZero.int_of_string (showZ z) = Some (Z.to_int z).
Proof.
  unfold showZ. apply NilZero.isi; destruct z; simpl; intros [= H];
    now apply DecimalPos.Unsigned.to_uint_nonnil in H.
Qed.

Lemma showZ_inj (z z' : Z) : showZ z = showZ z' -> z = z'.
Proof.
  intros H. apply DecimalZ.to_int_inj.
  apply (f_equal NilZero.int_of_string) in H.
  rewrite !showZ_read_back in H. now injection H.
Qed.

Lemma showId_no_colon (i : Id) :
  ~ In ":"%char (list_ascii_of_string (showId i)).
Proof.
  destruct i as [z| |[|]]; [apply showZ_no_colon|..]; simpl;
    intros H; repeat (destruct H as [H|H]; [discriminate|]); exact H.
Qed.

(** The texts [NaN], [Infinity] and [-Infinity] are no decimal numbers. *)
Lemma showId_inj (i i' : Id) : showId i = showId i' -> i = i'.
Proof.
  assert (Hz : forall z t, NilZero.int_of_string t = None -> showZ z <> t).
  { intros z t Ht E. rewrite <- E, showZ_read_back in Ht. discriminate. }
  destruct i as [z| |[|]], i' as [z'| |[|]]; simpl; intros H;
    try reflexivity; try discriminate;
    try (now apply Hz in H); try (symmetry in H; now apply Hz in H).
  f_equal. now apply showZ_inj.
Qed.

Lemma colon_in_append (t x : string) :
  In ":"%char (list_ascii_of_string (t +++ String ":" x)).
Proof. induction t as [|c t IH]; simpl; [now left | now right]. Qed.

(** The separator is found again in a key: the text after it holds no
    colon. *)
Lemma key_split (a1 : string) :
  forall a2 d1 d2,
    ~ In ":"%char (list_ascii_of_string d1) ->
    ~ In ":"%char (list_ascii_of_string d2) ->
    a1 +++ "::" +++ d1 = a2 +++ "::" +++ d2 ->
    a1 = a2 /\ d1 = d2.
Proof.
  induction a1 as [|c t IH]; intros [|c' t'] d1 d2 H1 H2 E; simpl in E.
  - injection E as E. now split.
  - exfalso. injection E as _ E. destruct t' as [|c2 t2]; simpl in E.
    + injection E as E. apply H1. rewrite E. now left.
    + injection E as _ E. apply H1. rewrite E. apply colon_in_append.
  - exfalso. injection E as _ E. destruct t as [|c2 t2]; simpl in E.
    + injection E as E. apply H2. rewrite <- E. now left.
    + injection E as _ E. apply H2. rewrite <- E. apply colon_in_append.
  - injection E as -> E. destruct (IH _ _ _ H1 H2 E) as [-> ->]. now split.
Qed.

Module PrefsMore.

Import Prefs.

(** X13: two characters have the same key exactly when they have the same
    account name and the same id, whatever the account names contain. *)
Theorem character_key_identifies_the_character
        (accountName accountName' : string) (characterId characterId' : Id) :
  getCharacterKey accountName characterId
  = getCharacterKey accountName' characterId'
  <-> accountName = accountName' /\ characterId = characterId'.
Proof.
  split; [|now intros [-> ->]].
  unfold getCharacterKey. intros E.
  apply key_split in E; try apply showId_no_colon.
  destruct E as [-> E]. split; [reflexivity | now apply showId_inj].
Qed.


(** The characters that the lookup is built from. *)
Lemma rebuild_lookup_sound (st : State) (kv : string * Entry.t) :
  In kv (characterLookup (rebuildCharacterLookup st)) ->
  exists acc c,
    In acc (accounts st) /\ Account.name acc <> ""
    /\ In c (Account.characters acc)
    /\ kv = (getCharacterKey (Account.name acc) (Character.id c),
             Entry.mk (Account.name acc) (Character.id c)
                      (orElse (Character.name c)
                              ("Char " +++ showId (Character.id c)))).
Proof.
  unfold rebuildCharacterLookup. cbn [characterLookup]. revert kv.
  apply (fold_left_invariant
           (fun m : list (string * Entry.t) =>
              forall kv, In kv m ->
                exists acc c,
                  In acc (accounts st) /\ Account.name acc <> ""
                  /\ In c (Account.characters acc)
                  /\ kv = (getCharacterKey (Account.name acc) (Character.id c),
                           Entry.mk (Account.name acc) (Character.id c)
                                    (orElse (Character.name c)
                                            ("Char "
                                             +++ showId (Character.id c))))));
    [|intros kv []].
  intros m acc Hacc Hm. apply filter_In in Hacc. destruct Hacc as [Hacc Hname].
  apply negb_true_iff, String.eqb_neq in Hname.
  apply (fold_left_invariant
           (fun m : list (string * Entry.t) =>
              forall kv, In kv m ->
                exists acc c,
                  In acc (accounts st) /\ Account.name acc <> ""
                  /\ In c (Account.characters acc)
                  /\ kv = (getCharacterKey (Account.name acc) (Character.id c),
                           Entry.mk (Account.name acc) (Character.id c)
                                    (orElse (Character.name c)
                                            ("Char "
                                             +++ showId (Character.id c))))));
    [|assumption].
  intros m' char Hchar Hm' kv Hkv.
  apply mapSet_keys in Hkv. destruct Hkv as [->|Hkv]; [|now apply Hm'].
  now exists acc, char.
Qed.






(** The handlers leave the roster and the lookup as they are, and keep the
    set of targets free of duplicates. *)
Lemma step_frame (e : UiEvent) (st : State) :
  accounts (step e st) = accounts st
  /\ characterLookup (step e st) = characterLookup st.
Proof.
  destruct e as [value|a c checked|a shouldSelect| |]; simpl;
    try (now split).
  - unfold targetCheckbox_onchange.
    destruct (negb _); [now split|]. destruct (_ =? _); now split.
  - unfold setAccountSelection. destruct (find _ _); now split.
Qed.

Lemma setDelete_NoDup (x : string) (s : list string) :
  NoDup s -> NoDup (setDelete x s).
Proof. apply NoDup_filter. Qed.

Lemma step_NoDup (e : UiEvent) (st : State) :
  NoDup (selectedTargets st) -> NoDup (selectedTargets (step e st)).
Proof.
  intros H. destruct e as [value|a c checked|a shouldSelect| |]; simpl.
  - destruct (negb _); [now apply setDelete_NoDup | assumption].
  - unfold targetCheckbox_onchange.
    destruct (negb _); [assumption|]. destruct (_ =? _); [assumption|].
    simpl. destruct checked; [now apply setAdd_NoDup | now apply setDelete_NoDup].
  - unfold setAccountSelection. destruct (find _ _); [|assumption]. simpl.
    apply (fold_left_invariant (fun t : list string => NoDup t));
      [|assumption].
    intros ts char _ Hts. destruct (_ =? _); [assumption|].
    destruct shouldSelect; [now apply setAdd_NoDup | now apply setDelete_NoDup].
  - apply (fold_left_invariant (fun t : list string => NoDup t));
      [|assumption].
    intros ts kv _ Hts. destruct (negb _); [now apply setAdd_NoDup | assumption].
  - constructor.
Qed.

Lemma run_frame (events : list UiEvent) :
  forall st,
    accounts (run events st) = accounts st
    /\ characterLookup (run events st) = characterLookup st
    /\ (NoDup (selectedTargets st) -> NoDup (selectedTargets (run events st))).
Proof.
  unfold run. induction events as [|e t IH]; intros st; simpl;
    [now repeat split|].
  destruct (IH (step e st)) as (Ha & Hl & Hn).
  destruct (step_frame e st) as [Ha' Hl'].
  rewrite Ha, Hl, Ha', Hl'. repeat split.
  intros H. now apply Hn, step_NoDup.
Qed.

Lemma buildTargetPayload_In (st : State) (ref : Ref.t) :
  In ref (buildTargetPayload st)
  <-> exists key entry,
      In key (selectedTargets st)
      /\ mapGet key (characterLookup st) = Some entry
      /\ ref = Ref.mk (Entry.accountName entry) (Entry.characterId entry).
Proof.
  unfold buildTargetPayload. rewrite in_flat_map. split.
  - intros (key & Hkey & H).
    destruct (mapGet key (characterLookup st)) as [entry|] eqn:E;
      [|contradiction].
    destruct H as [<-|[]]. now exists key, entry.
  - intros (key & entry & Hkey & E & ->). exists key.
    split; [assumption|]. rewrite E. now left.
Qed.

Lemma buildTargetPayload_NoDup (st : State) :
  lookupKeyed (characterLookup st) ->
  NoDup (selectedTargets st) -> NoDup (buildTargetPayload st).
Proof.
  intros Hkeyed. unfold buildTargetPayload.
  induction 1 as [|key t Hkey Ht IH]; simpl; [constructor|].
  destruct (mapGet key (characterLookup st)) as [entry|] eqn:E;
    [|assumption].
  simpl. constructor; [|assumption].
  intros Hin. apply in_flat_map in Hin. destruct Hin as (key' & Hkey' & Hin).
  destruct (mapGet key' (characterLookup st)) as [entry'|] eqn:E';
    [|contradiction].
  destruct Hin as [Hin|[]]. injection Hin as Ha Hc.
  apply mapGet_In, Hkeyed in E. apply mapGet_In, Hkeyed in E'.
  simpl in E, E'. apply Hkey. rewrite E, <- Ha, <- Hc, <- E'. assumption.
Qed.


(** X17: a copy request that the page sends from a state it reached has a
    path, at least one item and at least one target; no character is
    listed twice among the targets; and the source and every target are
    characters of the roster. *)
Theorem copy_request_is_well_formed
        (storedAccounts : list Account.t) (storedSourceKey : string)
        (events : list UiEvent)
        (basePath : string) (chosen : list string) (backup : bool)
        (payload : Payload) :
  handleCopyPreferences basePath chosen backup
                        (run events
                             (initialise storedAccounts storedSourceKey))
  = inl payload ->
  prefsBasePath payload <> ""
  /\ items payload <> []
  /\ targets payload <> []
  /\ NoDup (targets payload)
  /\ forall ref,
      ref = source payload \/ In ref (targets payload) ->
      exists acc c,
        In acc storedAccounts /\ In c (Account.characters acc)
        /\ Ref.accountName ref = Account.name acc
        /\ Ref.characterId ref = Character.id c.
Proof.
  set (st := run events (initialise storedAccounts storedSourceKey)).
  destruct (run_frame events (initialise storedAccounts storedSourceKey))
    as (_ & Hlookup & Hnd). fold st in Hlookup, Hnd.
  assert (Hkeyed : lookupKeyed (characterLookup st))
    by (rewrite Hlookup; apply PrefsFacts.rebuild_keyed).
  assert (Hroster : forall key entry,
             mapGet key (characterLookup st) = Some entry ->
             exists acc c,
               In acc storedAccounts /\ In c (Account.characters acc)
               /\ Entry.accountName entry = Account.name acc
               /\ Entry.characterId entry = Character.id c).
  { intros key entry H. rewrite Hlookup in H.
    apply mapGet_In, rebuild_lookup_sound in H.
    destruct H as (acc & c & Hacc & _ & Hc & [= _ ->]).
    now exists acc, c. }
  unfold handleCopyPreferences.
  destruct (String.eqb_spec basePath "") as [E|Hpath]; [discriminate|].
  destruct (getSourcePayload st) as [src|] eqn:Esrc; [|discriminate].
  destruct chosen as [|item rest]; [discriminate|]. cbn [length Nat.eqb].
  destruct (buildTargetPayload st) as [|t ts] eqn:Et; [discriminate|].
  cbn [length Nat.eqb]. intros [= <-]. cbn [prefsBasePath items targets source].
  split; [assumption|]. split; [discriminate|]. split; [discriminate|].
  split.
  - rewrite <- Et. apply buildTargetPayload_NoDup; [assumption|].
    apply Hnd. constructor.
  - intros ref [->|Hin].
    + unfold getSourcePayload in Esrc.
      destruct (sourceCharacterKey st =? ""); [discriminate|].
      destruct (mapGet (sourceCharacterKey st) (characterLookup st))
        as [entry|] eqn:E; [|discriminate].
      injection Esrc as <-. now apply (Hroster _ _ E).
    + rewrite <- Et in Hin. apply buildTargetPayload_In in Hin.
      destruct Hin as (key & entry & _ & E & ->). now apply (Hroster _ _ E).
Qed.

Lemma account_fold_In (key : Character.t -> string) (src : string)
      (shouldSelect : bool) (chars : list Character.t) :
  forall init k,
    In k (fold_left
            (fun targets char =>
               if key char =? src then targets
               else if shouldSelect then setAdd (key char) targets
                    else setDelete (key char) targets)
            chars init)
    <-> if shouldSelect
        then In k init \/ (k <> src /\ exists c, In c chars /\ k = key c)
        else In k init /\ ~ (k <> src /\ exists c, In c chars /\ k = key c).
Proof.
  induction chars as [|x t IH]; intros init k; simpl.
  - destruct shouldSelect.
    + split; [now left|]. intros [H|(_ & c & [] & _)]. assumption.
    + split; [|tauto]. intros H. split; [assumption|].
      intros (_ & c & [] & _).
  - rewrite IH. destruct (String.eqb_spec (key x) src) as [E|E].
    + destruct shouldSelect.
      * split; (intros [H|(Hk & c & Hc & ->)]; [now left|right]);
          (split; [assumption|]).
        -- exists c. split; [now right | reflexivity].
        -- destruct Hc as [<-|Hc]; [contradiction|]. now exists c.
      * split; intros [H Hn]; (split; [assumption|]);
          intros (Hk & c & Hc & ->); apply Hn; (split; [assumption|]).
        -- destruct Hc as [<-|Hc]; [contradiction|]. now exists c.
        -- exists c. split; [now right | reflexivity].
    + destruct shouldSelect.
      * rewrite setAdd_In. split.
        -- intros [[->|H]|(Hk & c & Hc & ->)].
           ++ right. split; [assumption|]. exists x. split; [now left|reflexivity].
           ++ now left.
           ++ right. split; [assumption|]. exists c.
              split; [now right | reflexivity].
        -- intros [H|(Hk & c & [<-|Hc] & ->)].
           ++ left. now right.
           ++ left. now left.
           ++ right. split; [assumption|]. now exists c.
      * rewrite setDelete_In. split.
        -- intros [[Hne H] Hn]. split; [assumption|].
           intros (Hk & c & [<-|Hc] & ->); [contradiction|].
           apply Hn. split; [assumption|]. now exists c.
        -- intros [H Hn]. split; [split; [|assumption]|].
           ++ intros ->. apply Hn. split; [assumption|].
              exists x. split; [now left | reflexivity].
           ++ intros (Hk & c & Hc & ->). apply Hn. split; [assumption|].
              exists c. split; [now right | reflexivity].
Qed.

(** X27: the account buttons All and None act on the first account of
    that name: All adds to the targets the keys of its characters, the
    source excepted, and None removes them, the source excepted; every
    other target stays as it is.  Without an account of that name nothing
    changes. *)
Theorem account_selection_adds_or_removes_the_account
        (accountName : string) (shouldSelect : bool) (st : State) :
  match find (fun acc => Account.name acc =? accountName) (accounts st) with
  | None => setAccountSelection accountName shouldSelect st = st
  | Some account =>
      forall key,
        let ofAccount :=
          key <> sourceCharacterKey st
          /\ exists c, In c (Account.characters account)
                       /\ key = getCharacterKey accountName (Character.id c) in
        In key (selectedTargets
                  (setAccountSelection accountName shouldSelect st))
        <-> if shouldSelect
            then In key (selectedTargets st) \/ ofAccount
            else In key (selectedTargets st) /\ ~ ofAccount
  end.
Proof.
  unfold setAccountSelection.
  destruct (find _ (accounts st)) as [account|]; [|reflexivity].
  intros key. cbn [selectedTargets].
  apply (account_fold_In
           (fun c => getCharacterKey accountName (Character.id c))).
Qed.

End PrefsMore.

(** * Roster edits and the launch list *)

Lemma filter_perm {A : Type} (p : A -> bool) (l l' : list A) :
  Permutation l l' -> Permutation (filter p l) (filter p l').
Proof.
  induction 1 as [|x l l' H IH|x y l|l l' l'' H1 IH1 H2 IH2]; simpl.
  - constructor.
  - destruct (p x); [now constructor | assumption].
  - destruct (p x), (p y); try reflexivity. apply perm_swap.
  - etransitivity; eassumption.
Qed.

Lemma flat_map_perm_pointwise {A B : Type} (f g : A -> list B) (l : list A) :
  (forall x, In x l -> Permutation (f x) (g x)) ->
  Permutation (flat_map f l) (flat_map g l).
Proof.
  induction l as [|x t IH]; intros H; simpl; [constructor|].
  apply Permutation_app; [apply H; now left|].
  apply IH. intros y Hy. apply H. now right.
Qed.

Lemma filter_selected_comment (text : string) (cs : list Character.t) :
  forall i,
    map Character.id
        (filter Character.selected (updateAt i (setComment text) cs))
    = map Character.id (filter Character.selected cs).
Proof.
  induction cs as [|c t IH]; intros i; [now destruct i|].
  destruct i as [|i]; simpl.
  - now destruct (Character.selected c).
  - destruct (Character.selected c); simpl; now rewrite IH.
Qed.

Lemma flat_map_updateAt {A B : Type} (g : A -> list B) (f : A -> A)
      (l : list A) :
  (forall x, g (f x) = g x) ->
  forall i, flat_map g (updateAt i f l) = flat_map g l.
Proof.
  intros H. induction l as [|x t IH]; intros i; [now destruct i|].
  destruct i as [|i]; simpl; [now rewrite H | now rewrite IH].
Qed.

(** X18: saving a comment leaves the launch list as it was: the Launch
    button sends the same characters, in the same order, with the same
    account names and passwords. *)
Theorem comment_edit_keeps_the_launch_list
        (accIndex charIndex : nat) (newComment : string)
        (r r' : list Account.t) :
  saveComment accIndex charIndex newComment r = Some r' ->
  selectedCharactersOf r' = selectedCharactersOf r
  /\ selectedAccountsOf r' = selectedAccountsOf r.
Proof.
  unfold saveComment. intros H.
  destruct (nth_error r accIndex) as [account|]; [|discriminate].
  destruct (nth_error (Account.characters account) charIndex);
    [|discriminate].
  injection H as <-.
  assert (E : selectedCharactersOf
                (updateAt accIndex
                          (fun acc =>
                             setCharacters
                               (updateAt charIndex (setComment newComment)
                                         (Account.characters acc)) acc) r)
              = selectedCharactersOf r).
  { unfold selectedCharactersOf. apply flat_map_updateAt. intros a. simpl.
    rewrite <- !(map_map Character.id
                         (fun i => Selected.mk (Account.name a)
                                               (Account.password a) i)).
    now rewrite filter_selected_comment. }
  split; [exact E|]. unfold selectedAccountsOf. now rewrite E.
Qed.

Section RenderLaunch.

Variable localeCompare : string -> string -> Z.

(** X19: rendering the page, which sorts the accounts and their
    characters, changes the launch list only in its order: the same
    characters are sent, each as often as before. *)
Theorem rendering_only_reorders_the_launch_list (r : list Account.t) :
  Permutation (selectedCharactersOf (renderUI localeCompare r))
              (selectedCharactersOf r).
Proof.
  unfold selectedCharactersOf.
  rewrite (Permutation_flat_map _ (renderUI_perm localeCompare r)).
  rewrite flat_map_concat_map, map_map, <- flat_map_concat_map.
  apply flat_map_perm_pointwise. intros a _. simpl.
  apply Permutation_map, filter_perm, sortBy_perm.
Qed.

End RenderLaunch.

(** * Settings in local storage *)

Lemma characters_without_null (parseInt10 : string -> Id) (chars : list json) :
  forall loaded,
    traverse (characterOfJson parseInt10) chars = Some loaded ->
    existsb (fun char => match char with
                         | JNull => true
                         | _ => false
                         end) chars = false.
Proof.
  induction chars as [|j t IH]; intros loaded H; [reflexivity|].
  simpl in H.
  destruct (characterOfJson parseInt10 j) eqn:Ej; [|discriminate].
  destruct (traverse _ t) eqn:Et; [|discriminate].
  simpl. rewrite (IH _ eq_refl). now destruct j.
Qed.

(** A roster that is read as a roster of the data model passes the
    migration loop. *)
Lemma loaded_roster_passes_migration (parseInt10 : string -> Id)
      (accs : list json) :
  forall loaded,
    traverse (accountOfJson parseInt10) accs = Some loaded ->
    migrationThrows accs = false.
Proof.
  induction accs as [|j t IH]; intros loaded H; [reflexivity|].
  simpl in H.
  destruct (accountOfJson parseInt10 j) eqn:Ej; [|discriminate].
  destruct (traverse _ t) eqn:Et; [|discriminate].
  unfold migrationThrows. cbn [existsb].
  fold (migrationThrows t). rewrite (IH _ eq_refl), orb_false_r.
  destruct j as [| | | | |m]; try reflexivity; [discriminate|].
  unfold accountOfJson in Ej.
  destruct (getMember "characters" m) as [[| | | |chars|]|];
    try reflexivity.
  destruct (getMember "name" m) as [[]|]; try discriminate.
  destruct (getMember "password" m) as [[]|]; try discriminate.
  destruct (traverse (characterOfJson parseInt10) chars) eqn:Ec;
    [|discriminate].
  eapply characters_without_null. eassumption.
Qed.

Section StorageFacts.

Variable localeCompare : string -> string -> Z.
Variable parseInt10 : string -> Id.

Local Abbreviation loadStored := (loadSettingsFromLocalStorage parseInt10).
Local Abbreviation loadPage := (pageLoad localeCompare parseInt10).

(** X20: the settings that [saveSettingsToLocalStorage] wrote are read
    back as they were, roster included and without a message, exactly when
    every character id is an integer, whatever the settings in memory are:
    an id that is [NaN] or infinite was written as [null]. *)
Theorem stored_settings_are_read_back (s current : AppSettings) :
  loadStored (Parsed (settingsToJson s)) current = Some (s, [])
  <-> finiteIds (accounts s).
Proof.
  rewrite <- (roster_read_back parseInt10).
  unfold loadSettingsFromLocalStorage, settingsToJson.
  cbn [getMember String.eqb Ascii.eqb Bool.eqb stringOrEmpty boolOrFalse].
  rewrite saved_roster_passes_migration.
  destruct s as [g d accs a]. cbn [gameFolder dllFolder accounts autoCycle].
  destruct (traverse (accountOfJson parseInt10) (map accountToJson accs))
    as [loaded|]; split; intros H; try discriminate.
  - now injection H as ->.
  - now injection H as ->.
Qed.

(** X21: a stored text that does not parse, or that parses to [null],
    leaves the settings as they are and shows the error; a stored object
    whose roster holds a [null] account, or an account with a [null]
    character, shows the same error but has by then replaced the folders
    and the auto-cycle flag, while the roster stays the one of before. *)
Theorem corrupt_storage_is_reported (current : AppSettings) :
  loadStored Unparsable current = Some (current, [corruptStorageMessage])
  /\ loadStored (Parsed JNull) current
     = Some (current, [corruptStorageMessage])
  /\ forall m g d a accs,
      getMember "gameFolder" m = Some (JString g) ->
      getMember "dllFolder" m = Some (JString d) ->
      getMember "autoCycle" m = Some (JBool a) ->
      getMember "accounts" m = Some (JArray accs) ->
      In JNull accs
      \/ (exists members chars,
             In (JObject members) accs
             /\ getMember "characters" members = Some (JArray chars)
             /\ In JNull chars) ->
      loadStored (Parsed (JObject m)) current
      = Some (mkSettings g d (accounts current) a, [corruptStorageMessage]).
Proof.
  split; [reflexivity|]. split; [reflexivity|].
  intros m g d a accs Hg Hd Ha Haccs Hnull.
  unfold loadSettingsFromLocalStorage. rewrite Hg, Hd, Ha, Haccs.
  cbn [stringOrEmpty boolOrFalse].
  assert (Hthrows : migrationThrows accs = true).
  { unfold migrationThrows. apply existsb_exists.
    destruct Hnull as [H|(members & chars & H & Hc & Hn)].
    - now exists JNull.
    - exists (JObject members). split; [assumption|]. rewrite Hc.
      apply existsb_exists. now exists JNull. }
  now rewrite Hthrows.
Qed.

(** X22: the two loaders agree: a document that Load Config accepts from
    a file is read at page load, from local storage and then rendered, to
    the very settings that the file load produced, and without a
    message. *)
Theorem accepted_file_reloads_from_storage
        (doc : json) (current current' loaded : AppSettings) :
  loadConfig_onload localeCompare parseInt10 doc current
  = Some (loaded,
          [ShowMessage "Configuration loaded successfully from file!"
                       success]) ->
  loadPage (Parsed doc) current' = Some (loaded, []).
Proof.
  unfold loadConfig_onload, pageLoad, loadSettingsFromLocalStorage.
  destruct doc as [| | | | |m]; try discriminate.
  destruct (getMember "gameFolder" m) as [[| | |g| |]|]; try discriminate.
  destruct (getMember "dllFolder" m) as [[| | |d| |]|]; try discriminate.
  destruct (getMember "accounts" m) as [[| | | |accs|]|]; try discriminate.
  destruct (traverse (accountOfJson parseInt10) accs) as [roster|] eqn:E;
    [|discriminate].
  rewrite (loaded_roster_passes_migration parseInt10 accs roster E).
  cbn [stringOrEmpty].
  destruct (getMember "autoCycle" m) as [[|b| | | |]|]; try discriminate;
    cbn [boolOrFalse falsy]; now intros [= <-].
Qed.

Hypothesis localeCompare_total :
  forall a b, (localeCompare a b <= 0)%Z \/ (localeCompare b a <= 0)%Z.

(** X23: settings saved after the page was rendered, with ids that are
    all integers, come back unchanged at the next page load: the roster is
    shown in the same order. *)
Theorem rendered_settings_survive_a_reload
        (s current : AppSettings) :
  finiteIds (accounts s) ->
  loadPage (Parsed (settingsToJson
                      (mkSettings (gameFolder s) (dllFolder s)
                                  (renderUI localeCompare (accounts s))
                                  (autoCycle s))))
           current
  = Some (mkSettings (gameFolder s) (dllFolder s)
                     (renderUI localeCompare (accounts s)) (autoCycle s),
          []).
Proof.
  intros Hids.
  assert (Hrendered : finiteIds (renderUI localeCompare (accounts s))).
  { unfold finiteIds in *. rewrite Forall_forall in *. intros a' Ha'.
    rewrite Forall_forall. intros c Hc.
    destruct (renderUI_characters localeCompare _ _ _ Ha' Hc)
      as (a & Ha & _ & Hca).
    specialize (Hids a Ha). rewrite Forall_forall in Hids. now apply Hids. }
  unfold pageLoad, loadSettingsFromLocalStorage, settingsToJson.
  cbn [getMember String.eqb Ascii.eqb Bool.eqb stringOrEmpty boolOrFalse
       gameFolder dllFolder accounts autoCycle].
  rewrite saved_roster_passes_migration.
  rewrite (proj2 (roster_read_back parseInt10 _) Hrendered).
  cbn [gameFolder dllFolder accounts autoCycle].
  now rewrite (renderUI_idempotent localeCompare localeCompare_total).
Qed.

End StorageFacts.

(** * The batch-file export *)

Lemma append_assoc (a b c : string) : (a +++ b) +++ c = a +++ b +++ c.
Proof. induction a as [|x a IH]; simpl; [reflexivity | now rewrite IH]. Qed.

Lemma selectedForBat_launch_list (r : list Account.t) :
  map (fun e => Selected.mk (BatEntry.accountName e) (BatEntry.password e)
                            (BatEntry.characterId e))
      (selectedForBat r)
  = selectedCharactersOf r.
Proof.
  unfold selectedForBat, selectedCharactersOf.
  induction r as [|a t IH]; simpl; [reflexivity|].
  now rewrite map_app, map_map, IH.
Qed.

Lemma selectedForBat_length (r : list Account.t) :
  length (selectedForBat r) = totalSelected r.
Proof.
  rewrite <- selectedCharactersOf_length, <- selectedForBat_launch_list.
  now rewrite length_map.
Qed.

Lemma append_nil_r (a : string) : a +++ "" = a.
Proof. induction a as [|x a IH]; simpl; [reflexivity | now rewrite IH]. Qed.

Lemma fold_append_lines {A : Type} (line : A -> string) (l : list A) :
  forall header,
    fold_left (fun content x => content +++ line x) l header
    = header +++ String.concat "" (map line l).
Proof.
  induction l as [|x t IH]; intros header.
  - simpl. now rewrite append_nil_r.
  - cbn [fold_left map]. rewrite IH, append_assoc. f_equal.
    destruct (map line t) as [|y u]; [apply append_nil_r | reflexivity].
Qed.

(** X24: the batch file starts the characters of the launch list, in its
    order, each with its account name, password and id: its text is the
    header followed by one line for each character that the Launch button
    would send. *)
Theorem bat_script_lists_the_launch_list (s : AppSettings) :
  batContent s (selectedForBat (accounts s))
  = batContent s []
    +++ String.concat
          ""
          (map (fun e => batLine (Selected.accountName e)
                                 (Selected.password e)
                                 (Selected.characterId e))
               (selectedCharactersOf (accounts s))).
Proof.
  unfold batContent at 1.
  rewrite (fold_append_lines
             (fun char => batLine (BatEntry.accountName char)
                                  (BatEntry.password char)
                                  (BatEntry.characterId char))).
  rewrite <- selectedForBat_launch_list, map_map. reflexivity.
Qed.

(** X25: the file name proposed for a single character keeps the length
    of the character's name and holds, for each of its characters, the
    same letter or digit, or an underscore in the place of anything else;
    cleaning a cleaned name changes nothing. *)
Theorem bat_filename_part_is_clean (name : string) :
  String.length (replaceNonAlphaNumeric name) = String.length name
  /\ (forall c,
        In c (list_ascii_of_string (replaceNonAlphaNumeric name)) ->
        isAlphaNumeric c = true \/ c = "_"%char)
  /\ (forall n c,
        String.get n name = Some c ->
        String.get n (replaceNonAlphaNumeric name)
        = Some (if isAlphaNumeric c then c else "_"%char))
  /\ replaceNonAlphaNumeric (replaceNonAlphaNumeric name)
     = replaceNonAlphaNumeric name.
Proof.
  split; [|split; [|split]].
  - induction name as [|c t IH]; simpl; [reflexivity | now rewrite IH].
  - induction name as [|x t IH]; simpl; [intros c []|].
    intros c [<-|H]; [|now apply IH].
    destruct (isAlphaNumeric x) eqn:E; [now left | now right].
  - induction name as [|x t IH]; intros n c; simpl; [discriminate|].
    destruct n as [|n]; [now intros [= ->] | apply IH].
  - induction name as [|x t IH]; simpl; [reflexivity|]. rewrite IH. f_equal.
    destruct (isAlphaNumeric x) eqn:E; [now rewrite E | reflexivity].
Qed.

Section ExportFacts.

Variable toLowerCase : string -> string.

(** X26: the export is refused with a single message in exactly the
    situations in which the launch is: nothing selected, or a folder not
    set.  Otherwise it yields one file, with the name and the text computed
    from the selection, through the save dialog when that succeeded and as
    a download when the dialog is absent, cancelled or failed. *)
Theorem export_is_guarded_like_the_launch
        (s : AppSettings) (picker : SavePicker) (w : Backend) :
  ((exists message type, saveBatBtn_onclick s picker = [Shown message type])
   <-> totalSelected (accounts s) = 0
       \/ gameFolder s = "" \/ dllFolder s = "")
  /\ ((exists message type,
          launchBtn_onclick toLowerCase s w = [ShowMessage message type])
      <-> totalSelected (accounts s) = 0
          \/ gameFolder s = "" \/ dllFolder s = "")
  /\ (totalSelected (accounts s) <> 0 ->
      gameFolder s <> "" -> dllFolder s <> "" ->
      exists message,
        saveBatBtn_onclick s picker
        = [match picker with
           | PickerSaved handleName =>
               WrittenThroughPicker
                 (batFilename (selectedForBat (accounts s))) handleName
                 (batContent s (selectedForBat (accounts s)))
           | _ =>
               Downloaded (batFilename (selectedForBat (accounts s)))
                          (batContent s (selectedForBat (accounts s)))
           end;
           Shown message success]).
Proof.
  assert (Hpass : totalSelected (accounts s) <> 0 ->
                  gameFolder s <> "" -> dllFolder s <> "" ->
                  exists message,
                    saveBatBtn_onclick s picker
                    = [match picker with
                       | PickerSaved handleName =>
                           WrittenThroughPicker
                             (batFilename (selectedForBat (accounts s)))
                             handleName
                             (batContent s (selectedForBat (accounts s)))
                       | _ =>
                           Downloaded
                             (batFilename (selectedForBat (accounts s)))
                             (batContent s (selectedForBat (accounts s)))
                       end;
                       Shown message success]).
  { intros Hsel Hg Hd. unfold saveBatBtn_onclick. cbv zeta.
    rewrite selectedForBat_length.
    destruct (Nat.eqb_spec (totalSelected (accounts s)) 0); [contradiction|].
    apply String.eqb_neq in Hg, Hd. rewrite Hg, Hd. cbn [orb].
    destruct picker; now eexists. }
  split; [|split; [|exact Hpass]].
  - split.
    + intros (message & type & H).
      destruct (guards_decidable s) as [Hfail|(Hsel & Hg & Hd)];
        [assumption|].
      destruct (Hpass Hsel Hg Hd) as (m & E). rewrite E in H. discriminate.
    + intros Hfail. unfold saveBatBtn_onclick. cbv zeta.
      rewrite selectedForBat_length.
      destruct (Nat.eqb_spec (totalSelected (accounts s)) 0) as [E|E];
        [now eexists _, _|].
      destruct Hfail as [H|H]; [contradiction|].
      assert (Hb : (gameFolder s =? "") || (dllFolder s =? "") = true).
      { apply orb_true_iff. destruct H as [H|H]; [left|right];
          now apply String.eqb_eq. }
      rewrite Hb. now eexists _, _.
  - split; [|apply launch_guard_fails].
    intros (message & type & H).
    destruct (guards_decidable s) as [Hfail|(Hsel & Hg & Hd)]; [assumption|].
    destruct (firstCheck w) as [m|[|] cr] eqn:Hc.
    + destruct (launch_check_unanswered toLowerCase s w Hsel Hg Hd)
        as (msg & E); [intros cr'; rewrite Hc; discriminate|].
      rewrite E in H. discriminate.
    + rewrite (launch_unfold toLowerCase s w cr Hsel Hg Hd Hc) in H.
      discriminate.
    + destruct (launch_check_unanswered toLowerCase s w Hsel Hg Hd)
        as (msg & E); [intros cr'; rewrite Hc; discriminate|].
      rewrite E in H. discriminate.
Qed.

End ExportFacts.

(** * Concrete runs of the further properties *)

Lemma plain_click_on_unselected_selects_only_it_witness :
  exists r' acc',
    plainClickSelection 0 1 sampleRoster = Some r'
    /\ nth_error r' 0 = Some acc'
    /\ selectedCount acc' = 1
    /\ nth_error (Account.characters acc') 1
       = Some (Character.mk "Bea" 2 true "tank").
Proof.
  destruct (plain_click_on_unselected_selects_only_it
              sampleRoster 0 1
              (Account.mk "Alpha" "pw1"
                          [Character.mk "Ada" 1 true "";
                           Character.mk "Bea" 2 false "tank"])
              (Character.mk "Bea" 2 false "tank")
              eq_refl eq_refl eq_refl)
    as (r' & acc' & H1 & H2 & H3 & H4 & _).
  exists r', acc'. repeat split; assumption.
Defined.

Lemma plain_click_on_selected_deselects_only_it_witness :
  plainClickSelection 0 0 sampleRoster
  = Some (updateAt 0
                   (fun a => setCharacters
                               (updateAt 0 (setSelected false)
                                         (Account.characters a)) a)
                   sampleRoster).
Proof.
  exact (proj1 (plain_click_on_selected_deselects_only_it
                  sampleRoster 0 0
                  (Account.mk "Alpha" "pw1"
                              [Character.mk "Ada" 1 true "";
                               Character.mk "Bea" 2 false "tank"])
                  (Character.mk "Ada" 1 true "")
                  eq_refl eq_refl eq_refl)).
Defined.

Lemma ctrl_click_is_clear_then_plain_click_witness :
  plainClickSelection 1 0 (fst (clearSelection sampleRoster))
  = Some (ctrlClickSelection 1 0 sampleRoster).
Proof.
  exact (ctrl_click_is_clear_then_plain_click
           sampleRoster 1 0
           (Account.mk "Beta" "pw2" [Character.mk "Cyd" 3 false ""])
           (Character.mk "Cyd" 3 false "")
           eq_refl eq_refl).
Defined.

Lemma renderUI_sorts_the_roster_witness :
  sortedBy (fun a b => ordinalCompare (Account.name a) (Account.name b))
           (renderUI ordinalCompare twinRoster).
Proof.
  exact (proj1 (renderUI_sorts_the_roster
                  ordinalCompare twinRoster ordinalCompare_total)).
Defined.

Lemma check_status_decides_the_launch_witness :
  launchedLists (launchBtn_onclick asciiToLowerCase launchSettings
                                   closingBackend)
  = [selectedCharactersOf busyRoster].
Proof.
  refine (proj1 (check_status_decides_the_launch
                   asciiToLowerCase launchSettings closingBackend
                   beaRunsReply _ _ _ eq_refl (or_introl eq_refl))
                (or_introl eq_refl));
    discriminate.
Defined.

Lemma without_auto_cycle_nothing_is_closed_witness :
  filter isClose (launchBtn_onclick asciiToLowerCase launchSettings
                                    conflictBackend) = [].
Proof.
  exact (proj1 (without_auto_cycle_nothing_is_closed
                  asciiToLowerCase launchSettings conflictBackend
                  (or_introl eq_refl))).
Defined.

Lemma window_management_error_aborts_witness :
  launchBtn_onclick asciiToLowerCase cyclingSettings deafBackend
  = [ShowMessage "Checking for existing game instances..." info;
     PostCheckAndFocusWindow (accountsDataOf busyRoster)
                             (selectedAccountsOf busyRoster);
     PostCloseRunningInstances
       (accountsToCloseOf asciiToLowerCase busyRoster
                          (selectedCharactersOf busyRoster) ["Bea"])
       (accountsDataOf busyRoster);
     ShowMessage "Error managing game windows. Please try again." error].
Proof.
  refine (proj1 (window_management_error_aborts
                   asciiToLowerCase cyclingSettings deafBackend beaRunsReply
                   _ _ _ eq_refl eq_refl _)
                (ex_intro _ "Failed to fetch" eq_refl));
    discriminate.
Defined.

Lemma launch_follows_the_recheck_witness :
  launchedLists (launchBtn_onclick asciiToLowerCase cyclingSettings
                                   closingBackend)
  = [selectedCharactersOf busyRoster].
Proof.
  refine (launch_follows_the_recheck
            asciiToLowerCase cyclingSettings closingBackend
            beaRunsReply quietReply true tt
            _ _ _ eq_refl eq_refl _ eq_refl eq_refl eq_refl eq_refl);
    discriminate.
Defined.


Lemma copy_request_is_well_formed_witness :
  NoDup [Prefs.Ref.mk "Alpha" 1; Prefs.Ref.mk "Alpha" 2].
Proof.
  exact (proj1 (proj2 (proj2 (proj2
           (PrefsMore.copy_request_is_well_formed
              busyRoster "Beta::3" [Prefs.SelectAllTargets]
              "C:\Prefs" ["charCfg"] true
              (Prefs.mkPayload "C:\Prefs" (Prefs.Ref.mk "Beta" 3)
                               [Prefs.Ref.mk "Alpha" 1; Prefs.Ref.mk "Alpha" 2]
                               ["charCfg"] true)
              eq_refl))))).
Defined.

Lemma comment_edit_keeps_the_launch_list_witness :
  exists r',
    saveComment 0 1 "healer" sampleRoster = Some r'
    /\ selectedCharactersOf r' = selectedCharactersOf sampleRoster.
Proof.
  eexists. split; [reflexivity|].
  exact (proj1 (comment_edit_keeps_the_launch_list
                  0 1 "healer" sampleRoster _ eq_refl)).
Defined.

Lemma accepted_file_reloads_from_storage_witness :
  pageLoad ordinalCompare digitsParseInt
           (Parsed (settingsToJson launchSettings)) unconfiguredSettings
  = Some (mkSettings "C:\AO" "C:\AOQuickLauncher"
                     (renderUI ordinalCompare busyRoster) false,
          []).
Proof.
  exact (accepted_file_reloads_from_storage
           ordinalCompare digitsParseInt
           (settingsToJson launchSettings) cyclingSettings
           unconfiguredSettings
           (mkSettings "C:\AO" "C:\AOQuickLauncher"
                       (renderUI ordinalCompare busyRoster) false)
           eq_refl).
Defined.

Lemma rendered_settings_survive_a_reload_witness :
  pageLoad ordinalCompare digitsParseInt
           (Parsed (settingsToJson
                      (mkSettings "C:\AO" "C:\AOQuickLauncher"
                                  (renderUI ordinalCompare busyRoster)
                                  false)))
           unconfiguredSettings
  = Some (mkSettings "C:\AO" "C:\AOQuickLauncher"
                     (renderUI ordinalCompare busyRoster) false,
          []).
Proof.
  exact (rendered_settings_survive_a_reload
           ordinalCompare digitsParseInt ordinalCompare_total
           launchSettings unconfiguredSettings busyRoster_finiteIds).
Defined.

Lemma save_then_load_round_trip_witness :
  loadConfig_onload ordinalCompare digitsParseInt
                    (fst (saveConfigBtn_onclick launchSettings))
                    unconfiguredSettings
  = Some (mkSettings "C:\AO" "C:\AOQuickLauncher"
                     (renderUI ordinalCompare busyRoster) false,
          [ShowMessage "Configuration loaded successfully from file!"
                       success]).
Proof.
  exact (proj1 (save_then_load_round_trip
                  ordinalCompare digitsParseInt launchSettings
                  unconfiguredSettings busyRoster_finiteIds)).
Defined.
